(** * Block-wise Wilson-Cowan task simulation: resampling and hemodynamics

    A shallow embedding of [tmfc_simulation/wilson_cowan_task_simulation.py]
    (classes [WCTaskSim] and [HRF]).

    Conventions of the embedding.
    - A numpy array of shape regions x time is a list of columns
      ([signal]); a column holds one value per region.  [np.hstack] is
      list append, [a.shape[1]] is [length].
    - Python floats are modelled by exact numbers: times, [TR], [dt] and
      [a_s_rate] are rationals ([Q]), activity values and matrix entries
      are integers ([Z]).  Rounding error of IEEE doubles is not modelled.
    - numpy arrays are objects: the matrices handed to the constructor live
      in a store ([gmap loc matrix]) and are passed around by reference.
    - Python exceptions are the [Err] results of an error/state monad. *)

From Stdlib Require Import ZArith QArith Qround Lia.
From stdpp Require Import base list gmap strings.

Open Scope nat_scope.

(** ** Numbers *)

(** Python's [round(x)] on a float: nearest integer, ties to even. *)
Definition py_round (x : Q) : Z :=
  let f := Qfloor x in
  match Qcompare (x - inject_Z f) (1 # 2) with
  | Lt => f
  | Gt => (f + 1)%Z
  | Eq => if Z.even f then f else (f + 1)%Z
  end.

(** [np.mod(a, n)] on integers follows the sign of the divisor, as
    [Z.modulo] does. *)
Definition np_mod (a n : Z) : Z := (a mod n)%Z.

(** ** Arrays *)

Abbreviation column := (list Z).
Abbreviation signal := (list (list Z)).
Abbreviation matrix := (list (list Z)).

(** [l[start::step]] for [step >= 1]: [skip] counts the elements still to
    pass over before the next selected one. *)
Fixpoint strided {A : Type} (step skip : nat) (l : list A) : list A :=
  match l with
  | [] => []
  | x :: r =>
      match skip with
      | O => x :: strided step (step - 1) r
      | S k => strided step k r
      end
  end.

(** ** Errors *)

Inductive exn : Type :=
| AssertionError (msg : string)
| KeyError (key : string)
| ValueError (msg : string)
| AttributeError (msg : string)
| IndexError (msg : string)
| ZeroDivisionError (msg : string).

Inductive result (A : Type) : Type :=
| Ok (a : A)
| Err (e : exn).
Arguments Ok {A} a.
Arguments Err {A} e.

(** The first column index selected by the resampling slice,
    [step - np.mod(idxLastT - 1, step)]. *)
Definition slice_start (step idxLastT : nat) : nat :=
  step - Z.to_nat (np_mod (Z.of_nat idxLastT - 1) (Z.of_nat step)).

(** The slicing expression shared by [HRF.resample_to_TR],
    [HRF.gamma_convolve] and [WCTaskSim._generate_single_block]:
    [a[:, step - np.mod(idxLastT - 1, step) :: step]].  A zero step makes
    numpy raise [ValueError]. *)
Definition phase_slice {A : Type} (step idxLastT : nat) (l : list A)
  : result (list A) :=
  match step with
  | O => Err (ValueError "slice step cannot be zero")
  | S _ => Ok (strided step (slice_start step idxLastT) l)
  end.

(** [idxLastT + np.arange(n)]. *)
Definition t_new_idx (idxLastT n : nat) : list nat := seq idxLastT n.

Definition stamp (dt : Q) (i : nat) : Q := inject_Z (Z.of_nat i) * dt.

(** [int(x)] on a float truncates toward zero. *)
Definition py_int (x : Q) : Z :=
  if Qle_bool 0 x then Qfloor x else Qceiling x.

(** [a % c] on floats, for a nonzero divisor: the result has the sign of
    the divisor. *)
Definition fmod (a c : Q) : Q := a - c * inject_Z (Qfloor (a / c)).

(** [round(x, 3)]: the nearest multiple of one thousandth. *)
Definition round3 (x : Q) : Q := Qred (inject_Z (py_round (x * 1000)) / 1000).

Definition Qgtb (a b : Q) : bool := negb (Qle_bool a b).

(** ** Matrices and the synaptic-activity arithmetic *)

(** [np.fill_diagonal(m, 0)]. *)
Definition fill_diagonal (m : matrix) : matrix :=
  imap (fun i row => <[i := 0%Z]> row) m.

Definition dot (r c : list Z) : Z :=
  foldr Z.add 0%Z (zip_with Z.mul r c).

(** [C @ e] for one column [e]. *)
Definition matvec (C : matrix) (e : column) : column :=
  map (fun row => dot row e) C.

Definition col_add (a b : column) : column := zip_with Z.add a b.
Definition col_scale (k : Z) (a : column) : column := map (Z.mul k) a.

(** Elementwise sum of two arrays of the same shape. *)
Definition sig_add (a b : signal) : signal := zip_with col_add a b.
(** Scalar times array. *)
Definition sig_scale (k : Z) (a : signal) : signal := map (col_scale k) a.
(** [C @ E]. *)
Definition matmul (C : matrix) (E : signal) : signal := map (matvec C) E.

(** [a.shape[0] == n] for a list of columns. *)
Definition rows_are (n : nat) (a : signal) : bool :=
  forallb (fun c => Nat.eqb (length c) n) a.

(** ** The collaborators *)

(** The four Balloon-Windkessel state vectors an [HRF] carries. *)
Record bw_state : Type := mk_bw {
  X_BOLD : list Z;
  F_BOLD : list Z;
  Q_BOLD : list Z;
  V_BOLD : list Z
}.

(** [boldIntegration.simulateBOLD(activity, dt, X, F, Q, V, fix)]: not part
    of the file under study; taken as a parameter.  It returns the BOLD
    chunk and the advanced state. *)
Class BoldIntegrator : Type := {
  simulateBOLD : signal -> Q -> bw_state -> bool -> signal * bw_state
}.

(** References to arrays in the store. *)
Abbreviation loc := nat.

(** [wc.params], neurolib's parameter dictionary, restricted to the
    entries this file reads or writes. *)
Record wc_params : Type := mk_params {
  p_N : nat;
  p_dt : Q;
  p_duration : Q;
  p_Cmat : loc;
  p_lengthMat : loc;
  c_excexc : Z;
  c_excinh : Z;
  c_inhexc : Z;
  c_inhinh : Z;
  p_scalars : gmap string Q;
  p_init : gmap string column
}.

(** What one integration of the neural model yields: time axis, the two
    activity arrays and the final state variables. *)
Record run_out : Type := mk_run_out {
  o_t : list Q;
  o_exc : signal;
  o_inh : signal;
  o_state : gmap string column
}.

(** neurolib's Wilson-Cowan integrator ([WCModel.run] calls it on the
    parameters); external, taken as a parameter together with the
    library's default step size.  The coupling matrix is passed by value:
    the integrator reads the array [params['Cmat']] refers to. *)
Class NeuralMass : Type := {
  default_dt : Q;
  timeIntegration : matrix -> wc_params -> bool -> bool -> run_out
}.

(** The [WCModel] object.  Its constructor keeps the coupling matrix it is
    given as the attribute [Cmat] and stores a copy with zeroed diagonal
    under [params['Cmat']]; [run] publishes every output both as an
    attribute ([wc.exc]) and in [wc.outputs] ([wc['exc']]), keeps the
    final state variables in [wc.state] and, with [continue_run=True],
    copies them into the initial values held by the parameters
    ([params['exc_init']] and the like, here [p_init]). *)
Record WCModel : Type := mk_wc {
  wc_Cmat : loc;
  wc_Dmat : loc;
  params : wc_params;
  wc_exc : signal;
  wc_inh : signal;
  wc_t : list Q;
  wc_outputs : gmap string signal;
  wc_state : gmap string column
}.

(** ** The [HRF] object *)

Record HRF : Type := mk_hrf {
  hrf_N : nat;
  hrf_dt : Q;
  hrf_TR : Q;
  normalize_input : bool;
  hrf_normalize_max : Z;
  hrf_fix : bool;
  samplingRate_NDt : nat;
  t_BOLD : list Q;
  BOLD : signal;
  BOLD_chunk : signal;
  idxLastT : nat;
  bw : bw_state
}.

(** [HRF.__init__].  The sampling step [int(round(TR * 1000 / dt))] is
    kept as a natural number: the embedding covers the objects whose step
    is not negative, as it is for every [TR] and [dt] of the same sign.
    (Python keeps a negative step and then slices backwards.) *)
Definition HRF_init (N : nat) (dt TR : Q) (norm_in : bool) (norm_max : Z)
    (fix_ : bool) : HRF :=
  {| hrf_N := N; hrf_dt := dt; hrf_TR := TR;
     normalize_input := norm_in; hrf_normalize_max := norm_max;
     hrf_fix := fix_;
     samplingRate_NDt := Z.to_nat (py_round (TR * 1000 / dt));
     t_BOLD := []; BOLD := []; BOLD_chunk := [];
     idxLastT := 0;
     bw := {| X_BOLD := replicate N 0%Z; F_BOLD := replicate N 1%Z;
              Q_BOLD := replicate N 1%Z; V_BOLD := replicate N 1%Z |} |}.

(** [HRF.resample_to_TR(signal, idxLastT)]: returns
    [(t_resampled, signal_resampled)]. *)
Definition resample_to_TR (h : HRF) (sig : signal) (idx : nat)
  : result (list Q * signal) :=
  match phase_slice (samplingRate_NDt h) idx sig with
  | Err e => Err e
  | Ok signal_resampled =>
      match phase_slice (samplingRate_NDt h) idx (t_new_idx idx (length sig)) with
      | Err e => Err e
      | Ok ts => Ok (map (stamp (hrf_dt h)) ts, signal_resampled)
      end
  end.

(** [HRF.bw_convolve(activity, append)]. *)
Definition bw_convolve `{BoldIntegrator} (h : HRF) (activity : signal)
    (append : bool) : result HRF :=
  if negb (rows_are (hrf_N h) activity) then
    Err (AssertionError "Input shape must be equal to Number of activations to times")
  else
    let activity :=
      if normalize_input h then sig_scale (hrf_normalize_max h) activity
      else activity in
    let '(chunk, bw') :=
      simulateBOLD activity (hrf_dt h * (1 # 1000)) (bw h) (hrf_fix h) in
    match resample_to_TR h chunk (idxLastT h) with
    | Err e => Err e
    | Ok (t_res, B_res) =>
        let '(t_new, B_new) :=
          if Nat.eqb (length (BOLD h)) 0 then (t_res, B_res)
          else if append then (t_BOLD h ++ t_res, BOLD h ++ B_res)
          else (t_res, B_res) in
        Ok {| hrf_N := hrf_N h; hrf_dt := hrf_dt h; hrf_TR := hrf_TR h;
              normalize_input := normalize_input h;
              hrf_normalize_max := hrf_normalize_max h;
              hrf_fix := hrf_fix h;
              samplingRate_NDt := samplingRate_NDt h;
              t_BOLD := t_new; BOLD := B_new; BOLD_chunk := B_res;
              idxLastT := idxLastT h + length activity;
              bw := bw' |}
    end.

(** ** The [WCTaskSim] object and the store it runs in *)

(** [self.activity], the dictionary of resampled series. *)
Record Activity : Type := mk_activity {
  exc_series : option signal;
  inh_series : option signal;
  sa_series : option signal;
  sampling_rate : Q;
  idx_last_t : nat;
  act_t : option (list Q)
}.

(** The attributes of a [WCTaskSim].  [None] stands for Python's [None]
    (or, for [input_rest] and [fix_bold], for an attribute not yet set). *)
Record WCTaskSim : Type := mk_sim {
  Wij_task_dict : list (string * loc);
  Wij_rest : loc;
  Dmat : loc;
  task_name_list : list string;
  onset_time_list : list Q;
  duration_list : list Q;
  rest_before : bool;
  first_duration : Q;
  last_duration : Q;
  append_outputs : bool;
  bold : bool;
  chunkwise : bool;
  bold_input_ready : bool;
  wc : WCModel;
  activity : Activity;
  hrf : option HRF;
  sim_BOLD : option signal;
  sim_t_BOLD : option (list Q);
  input_rest : option signal;
  normalize_max : option Z;
  output_activation : option string;
  fix_bold : option bool;
  TR : option Q;
  time_idxs_dict : gmap string (list (Q * Q))
}.

(** The store: the numpy arrays that are shared by reference (the
    matrices given to the constructor), what was printed, and the
    simulation object. *)
Record world : Type := mk_world {
  heap : gmap loc matrix;
  stdout : list string;
  self : WCTaskSim
}.

Definition set_self (f : WCTaskSim -> WCTaskSim) (w : world) : world :=
  {| heap := heap w; stdout := stdout w; self := f (self w) |}.
Definition set_heap (f : gmap loc matrix -> gmap loc matrix) (w : world) : world :=
  {| heap := f (heap w); stdout := stdout w; self := self w |}.
Definition print (msg : string) (w : world) : world :=
  {| heap := heap w; stdout := stdout w ++ [msg]; self := self w |}.

Definition with_wc (f : WCModel -> WCModel) (s : WCTaskSim) : WCTaskSim :=
  mk_sim (Wij_task_dict s) (Wij_rest s) (Dmat s) (task_name_list s)
    (onset_time_list s) (duration_list s) (rest_before s) (first_duration s)
    (last_duration s) (append_outputs s) (bold s) (chunkwise s)
    (bold_input_ready s) (f (wc s)) (activity s) (hrf s) (sim_BOLD s)
    (sim_t_BOLD s) (input_rest s) (normalize_max s) (output_activation s)
    (fix_bold s) (TR s) (time_idxs_dict s).

Definition with_activity (a : Activity) (s : WCTaskSim) : WCTaskSim :=
  mk_sim (Wij_task_dict s) (Wij_rest s) (Dmat s) (task_name_list s)
    (onset_time_list s) (duration_list s) (rest_before s) (first_duration s)
    (last_duration s) (append_outputs s) (bold s) (chunkwise s)
    (bold_input_ready s) (wc s) a (hrf s) (sim_BOLD s)
    (sim_t_BOLD s) (input_rest s) (normalize_max s) (output_activation s)
    (fix_bold s) (TR s) (time_idxs_dict s).

(** The hemodynamic attributes: [hrf], [BOLD], [t_BOLD], [input_rest]. *)
Definition with_hemo (h : option HRF) (B : option signal)
    (t : option (list Q)) (r : option signal) (s : WCTaskSim) : WCTaskSim :=
  mk_sim (Wij_task_dict s) (Wij_rest s) (Dmat s) (task_name_list s)
    (onset_time_list s) (duration_list s) (rest_before s) (first_duration s)
    (last_duration s) (append_outputs s) (bold s) (chunkwise s)
    (bold_input_ready s) (wc s) (activity s) h B t r
    (normalize_max s) (output_activation s) (fix_bold s) (TR s)
    (time_idxs_dict s).

(** The run options that [generate_full_series] writes. *)
Definition with_flags (app bld chk ready : bool) (s : WCTaskSim) : WCTaskSim :=
  mk_sim (Wij_task_dict s) (Wij_rest s) (Dmat s) (task_name_list s)
    (onset_time_list s) (duration_list s) (rest_before s) (first_duration s)
    (last_duration s) app bld chk ready (wc s) (activity s) (hrf s)
    (sim_BOLD s) (sim_t_BOLD s) (input_rest s) (normalize_max s)
    (output_activation s) (fix_bold s) (TR s) (time_idxs_dict s).

Definition with_bold_params (nm : option Z) (oa : option string)
    (fx : option bool) (tr : option Q) (s : WCTaskSim) : WCTaskSim :=
  mk_sim (Wij_task_dict s) (Wij_rest s) (Dmat s) (task_name_list s)
    (onset_time_list s) (duration_list s) (rest_before s) (first_duration s)
    (last_duration s) (append_outputs s) (bold s) (chunkwise s)
    (bold_input_ready s) (wc s) (activity s) (hrf s) (sim_BOLD s)
    (sim_t_BOLD s) (input_rest s) nm oa fx tr (time_idxs_dict s).

Definition with_time_idxs (d : gmap string (list (Q * Q))) (s : WCTaskSim)
  : WCTaskSim :=
  mk_sim (Wij_task_dict s) (Wij_rest s) (Dmat s) (task_name_list s)
    (onset_time_list s) (duration_list s) (rest_before s) (first_duration s)
    (last_duration s) (append_outputs s) (bold s) (chunkwise s)
    (bold_input_ready s) (wc s) (activity s) (hrf s) (sim_BOLD s)
    (sim_t_BOLD s) (input_rest s) (normalize_max s) (output_activation s)
    (fix_bold s) (TR s) d.

Definition with_params (f : wc_params -> wc_params) (m : WCModel) : WCModel :=
  mk_wc (wc_Cmat m) (wc_Dmat m) (f (params m)) (wc_exc m) (wc_inh m) (wc_t m)
    (wc_outputs m) (wc_state m).

Definition set_p_Cmat (c : loc) (p : wc_params) : wc_params :=
  mk_params (p_N p) (p_dt p) (p_duration p) c (p_lengthMat p) (c_excexc p)
    (c_excinh p) (c_inhexc p) (c_inhinh p) (p_scalars p) (p_init p).
Definition set_p_duration (d : Q) (p : wc_params) : wc_params :=
  mk_params (p_N p) (p_dt p) d (p_Cmat p) (p_lengthMat p) (c_excexc p)
    (c_excinh p) (c_inhexc p) (c_inhinh p) (p_scalars p) (p_init p).
Definition set_p_init (i : gmap string column) (p : wc_params) : wc_params :=
  mk_params (p_N p) (p_dt p) (p_duration p) (p_Cmat p) (p_lengthMat p)
    (c_excexc p) (c_excinh p) (c_inhexc p) (c_inhinh p) (p_scalars p) i.

(** ** The error and state monad of the methods *)

Definition M (A : Type) : Type := world -> result (A * world).

Definition ret {A : Type} (a : A) : M A := fun w => Ok (a, w).
Definition bind {A B : Type} (m : M A) (k : A -> M B) : M B :=
  fun w => match m w with
           | Ok (a, w') => k a w'
           | Err e => Err e
           end.
Definition raise {A : Type} (e : exn) : M A := fun _ => Err e.
Definition get : M world := fun w => Ok (w, w).
Definition modify (f : world -> world) : M unit := fun w => Ok (tt, f w).
Definition lift {A : Type} (r : result A) : M A :=
  fun w => match r with Ok a => Ok (a, w) | Err e => Err e end.
Definition py_assert (b : bool) (msg : string) : M unit :=
  if b then ret tt else raise (AssertionError msg).
Definition when (b : bool) (m : M unit) : M unit := if b then m else ret tt.

Declare Scope sim_scope.
Delimit Scope sim_scope with sim.
Notation "x <- c1 ;; c2" := (bind c1 (fun x => c2))
  (at level 100, c1 at next level, right associativity) : sim_scope.
Notation "c1 ;;; c2" := (bind c1 (fun _ => c2))
  (at level 100, right associativity) : sim_scope.
Open Scope sim_scope.

(** [for x in l: body x]. *)
Fixpoint for_each {A : Type} (l : list A) (body : A -> M unit) : M unit :=
  match l with
  | [] => ret tt
  | x :: r => body x ;;; for_each r body
  end.

(** [a / b] on Python floats. *)
Definition py_div (a b : Q) : M Q :=
  if Qeq_bool b 0 then raise (ZeroDivisionError "float division by zero")
  else ret (a / b)%Q.

(** [a % b] on Python floats. *)
Definition py_fmod (a b : Q) : M Q :=
  if Qeq_bool b 0 then raise (ZeroDivisionError "float modulo")
  else ret (fmod a b).

(** [d[k]] on a dictionary given as an association list. *)
Fixpoint dict_get {V : Type} (d : list (string * V)) (k : string) : option V :=
  match d with
  | [] => None
  | (k', v) :: r => if String.eqb k' k then Some v else dict_get r k
  end.

Definition dict_keys {V : Type} (d : list (string * V)) : list string :=
  map fst d.

(** [l[i]]. *)
Definition index {A : Type} (l : list A) (i : nat) : M A :=
  match l !! i with
  | Some x => ret x
  | None => raise (IndexError "list index out of range")
  end.

(** [l[-1]]. *)
Definition index_last {A : Type} (l : list A) : M A :=
  match last l with
  | Some x => ret x
  | None => raise (IndexError "list index out of range")
  end.

(** Reading the array a reference points to. *)
Definition deref (l : loc) : M matrix :=
  w <- get ;;
  match heap w !! l with
  | Some m => ret m
  | None => raise (ValueError "no array at this reference")
  end.

(** [np.hstack([old, new])] where [old] may still be [None]. *)
Definition hstack_onto {A : Type} (old : option (list A)) (new : list A)
  : M (list A) :=
  match old with
  | Some o => ret (o ++ new)
  | None => raise (ValueError "hstack of None")
  end.

(** ** [WCModel] (neurolib) *)

(** [WCModel(Cmat=..., Dmat=...)]: keeps [Cmat] as an attribute and puts a
    copy of it, diagonal zeroed, into the parameters. *)
Definition WCModel_new `{NeuralMass} (h : gmap loc matrix) (Cmat D : loc)
  : result (gmap loc matrix * WCModel) :=
  match h !! Cmat with
  | None => Err (ValueError "no array at this reference")
  | Some m =>
      let c := fresh (dom h) in
      Ok (<[c := fill_diagonal m]> h,
          {| wc_Cmat := Cmat; wc_Dmat := D;
             params := {| p_N := length m; p_dt := default_dt;
                          p_duration := 2000; p_Cmat := c; p_lengthMat := D;
                          c_excexc := 16; c_excinh := 15;
                          c_inhexc := 12; c_inhinh := 3;
                          p_scalars := ∅; p_init := ∅ |};
             wc_exc := []; wc_inh := []; wc_t := [];
             wc_outputs := ∅; wc_state := ∅ |})
  end.

(** [wc.run(append_outputs, bold, continue_run=True, chunkwise)]: the
    integrator runs on the current parameters, initial values included;
    outputs and last state are stored (outputs replace the previous ones,
    as with [append_outputs=False]); and, the run being one to continue,
    the last state is written into the initial values of the parameters
    right after integrating ([setInitialValuesToLastState]), so that the
    next run starts from it. *)
Definition WCModel_run `{NeuralMass} (bold_ chunkwise_ : bool) : M unit :=
  w <- get ;;
  let m := wc (self w) in
  C <- deref (p_Cmat (params m)) ;;
  let out := timeIntegration C (params m) bold_ chunkwise_ in
  modify (set_self (with_wc (fun m =>
    {| wc_Cmat := wc_Cmat m; wc_Dmat := wc_Dmat m;
       params := set_p_init (o_state out) (params m);
       wc_exc := o_exc out; wc_inh := o_inh out; wc_t := o_t out;
       wc_outputs := <["exc" := o_exc out]> (<["inh" := o_inh out]> ∅);
       wc_state := o_state out |}))).

(** [wc[name]]. *)
Definition wc_getitem (name : string) : M signal :=
  w <- get ;;
  match wc_outputs (wc (self w)) !! name with
  | Some a => ret a
  | None => raise (KeyError name)
  end.

(** ** [WCTaskSim] *)

(** The constructor's arguments; [a_duration_list] is a single number or a
    list. *)
Record init_args : Type := mk_args {
  a_Wij_task_dict : list (string * loc);
  a_Wij_rest : loc;
  a_D : loc;
  a_onset_time_list : option (list Q);
  a_task_name_list : option (list string);
  a_duration_list : Q + list Q;
  a_rest_before : bool;
  a_first_duration : Q;
  a_last_duration : Q;
  a_append_outputs : bool;
  a_bold : bool;
  a_chunkwise : bool;
  a_act_sampling_rate : Q;
  a_c_excexc : Z;
  a_c_excinh : Z;
  a_c_inhexc : Z;
  a_c_inhinh : Z;
  a_scalars : gmap string Q
}.

(** [(np.diff(onsets) > 0).any()]. *)
Definition np_diff (l : list Q) : list Q :=
  zip_with (fun a b => (b - a)%Q) l (tail l).
Definition any_diff_positive (onsets : list Q) : bool :=
  existsb (fun d => Qgtb d 0) (np_diff onsets).

Definition in_keys (k : string) (ks : list string) : bool :=
  existsb (String.eqb k) ks.

(** [WCTaskSim.__init__] followed by [init_wc_model]. *)
Definition WCTaskSim_init `{NeuralMass} (h : gmap loc matrix) (a : init_args)
  : result world :=
  match WCModel_new h (a_Wij_rest a) (a_D a) with
  | Err e => Err e
  | Ok (h', wc0) =>
      let task_names :=
        match a_task_name_list a with
        | Some l => l
        | None => dict_keys (a_Wij_task_dict a)
        end in
      if negb (forallb (fun n => in_keys n (dict_keys (a_Wij_task_dict a)))
                 task_names)
      then Err (AssertionError "Name in task names not from the dict")
      else
      let onsets :=
        match a_onset_time_list a with
        | Some l => l
        | None => map (fun i => inject_Z (Z.of_nat i)) (seq 0 (length task_names))
        end in
      if negb (Nat.eqb (length task_names) (length onsets))
      then Err (AssertionError "Number of tasks should be equal to number of onset times")
      else
      if Nat.ltb 1 (length onsets) && negb (any_diff_positive onsets)
      then Err (AssertionError "Next onset time should be more than previous ")
      else
      let durations_r :=
        match a_duration_list a with
        | inr l =>
            if Nat.eqb (length l) (length onsets) then Ok l
            else Err (AssertionError "Lenght of duration list should be equal to onset_time list")
        | inl d => Ok (replicate (length onsets) d)
        end in
      match durations_r with
      | Err e => Err e
      | Ok durations =>
          match durations with
          | [] => Err (IndexError "list index out of range")
          | d0 :: _ =>
              let p := params wc0 in
              let wc1 := with_params (fun _ =>
                 {| p_N := p_N p; p_dt := p_dt p;
                    p_duration := (d0 * 1000)%Q;
                    p_Cmat := p_Cmat p; p_lengthMat := p_lengthMat p;
                    c_excexc := a_c_excexc a; c_excinh := a_c_excinh a;
                    c_inhexc := a_c_inhexc a; c_inhinh := a_c_inhinh a;
                    p_scalars := a_scalars a; p_init := p_init p |}) wc0 in
              Ok {| heap := h'; stdout := [];
                    self :=
                      {| Wij_task_dict := a_Wij_task_dict a;
                         Wij_rest := a_Wij_rest a; Dmat := a_D a;
                         task_name_list := task_names;
                         onset_time_list := onsets;
                         duration_list := durations;
                         rest_before := a_rest_before a;
                         first_duration := a_first_duration a;
                         last_duration := a_last_duration a;
                         append_outputs := a_append_outputs a;
                         bold := a_bold a; chunkwise := a_chunkwise a;
                         bold_input_ready := false;
                         wc := wc1;
                         activity :=
                           {| exc_series := None; inh_series := None;
                              sa_series := None;
                              sampling_rate := a_act_sampling_rate a;
                              idx_last_t := 0; act_t := None |};
                         hrf := None; sim_BOLD := None; sim_t_BOLD := None;
                         input_rest := None; normalize_max := None;
                         output_activation := None; fix_bold := None;
                         TR := None;
                         time_idxs_dict :=
                           list_to_map
                             (("Rest", []) ::
                              map (fun k => (k, [])) (dict_keys (a_Wij_task_dict a)))
                      |} |}
          end
      end
  end.

(** [generate_neuronal_oscill]:
    [ee * exc + ei * exc + ie * inh + ii * inh + self.wc.Cmat @ exc]. *)
Definition generate_neuronal_oscill : M signal :=
  w <- get ;;
  let m := wc (self w) in
  let ee := c_excexc (params m) in
  let ei := c_excinh (params m) in
  let ie := c_inhexc (params m) in
  let ii := c_inhinh (params m) in
  let exc := wc_exc m in
  let inh := wc_inh m in
  C <- deref (wc_Cmat m) ;;
  ret (sig_add (sig_add (sig_add (sig_add (sig_scale ee exc) (sig_scale ei exc))
                                 (sig_scale ie inh))
                        (sig_scale ii inh))
               (matmul C exc)).

(** [self.wc.params['Cmat'] = Cmat; np.fill_diagonal(self.wc.params['Cmat'], 0)]:
    the parameter entry is bound to the caller's array, and that array is
    then written to. *)
Definition install_Cmat (Cmat : loc) : M unit :=
  modify (set_self (with_wc (with_params (set_p_Cmat Cmat)))) ;;;
  w <- get ;;
  let c := p_Cmat (params (wc (self w))) in
  m <- deref c ;;
  modify (set_heap (<[c := fill_diagonal m]>)).

(** The resampled-activity part of [_generate_single_block]
    ([if activity: ...]). *)
Definition save_activity (a_s_rate : Q) (syn_act : bool)
    (syn_act_series : signal) : M unit :=
  w <- get ;;
  let act := activity (self w) in
  let m := wc (self w) in
  let idx := idx_last_t act in
  ratio <- py_div (1000 * a_s_rate) (p_dt (params m)) ;;
  let sampling_rate_dt := Z.to_nat (py_round ratio) in
  new_exc_activity <- lift (phase_slice sampling_rate_dt idx (wc_exc m)) ;;
  new_inh_activity <- lift (phase_slice sampling_rate_dt idx (wc_inh m)) ;;
  new_sa_activity <-
    (if syn_act then lift (phase_slice sampling_rate_dt idx syn_act_series)
     else ret []) ;;
  series <-
    match exc_series act with
    | None =>
        ret (Some new_exc_activity, Some new_inh_activity,
             if syn_act then Some new_sa_activity else sa_series act)
    | Some e =>
        i <- hstack_onto (inh_series act) new_inh_activity ;;
        s <- (if syn_act
              then x <- hstack_onto (sa_series act) new_sa_activity ;; ret (Some x)
              else ret (sa_series act)) ;;
        ret (Some (e ++ new_exc_activity), Some i, s)
    end ;;
  let '(es, is_, ss) := series in
  let new_idx_t := t_new_idx idx (length (wc_exc m)) in
  sel <- lift (phase_slice sampling_rate_dt idx new_idx_t) ;;
  let t_activity := map (stamp (p_dt (params m))) sel in
  let t' := match act_t act with
            | None => t_activity
            | Some t => t ++ t_activity
            end in
  modify (set_self (with_activity
    {| exc_series := es; inh_series := is_; sa_series := ss;
       sampling_rate := a_s_rate;
       idx_last_t := idx + length (wc_exc m);
       act_t := Some t' |})).

(** [_generate_single_block(Cmat, duration, activity, a_s_rate, syn_act)]. *)
Definition _generate_single_block `{NeuralMass} (Cmat : loc) (duration : Q)
    (activity_ : bool) (a_s_rate : Q) (syn_act : bool) : M unit :=
  w <- get ;;
  when (chunkwise (self w))
    (r <- py_fmod duration 2 ;;
     py_assert (Qeq_bool r 0)
       "For faster integration time duration is chunkwise duration should be divisible by two ") ;;;
  install_Cmat Cmat ;;;
  modify (set_self (with_wc (with_params (set_p_duration (duration * 1000)%Q)))) ;;;
  WCModel_run (bold (self w)) (chunkwise (self w)) ;;;
  syn_act_series <- (if syn_act then generate_neuronal_oscill else ret []) ;;
  when activity_ (save_activity a_s_rate syn_act syn_act_series).

(** [self.time_idxs_dict[label].append([round(start, 3), round(end, 3)])]. *)
Definition record_interval (label : string) (start_ end_ : Q) : M unit :=
  w <- get ;;
  match time_idxs_dict (self w) !! label with
  | None => raise (KeyError label)
  | Some l =>
      modify (set_self (with_time_idxs
        (<[label := l ++ [(round3 start_, round3 end_)]]> (time_idxs_dict (self w)))))
  end.

(** [_generate_first_rest]. *)
Definition _generate_first_rest `{NeuralMass} (activity_ : bool) (a_s_rate : Q)
    (syn_act : bool) : M unit :=
  w <- get ;;
  onset0 <- index (onset_time_list (self w)) 0 ;;
  let '(start_time_rest, duration) :=
    if rest_before (self w)
    then ((- first_duration (self w))%Q,
          (- - first_duration (self w) + onset0)%Q)
    else (0%Q, onset0) in
  let end_time_rest := onset0 in
  _generate_single_block (Wij_rest (self w)) duration activity_ a_s_rate syn_act ;;;
  record_interval "Rest" start_time_rest end_time_rest.

(** [_generate_last_rest]. *)
Definition _generate_last_rest `{NeuralMass} (activity_ : bool) (a_s_rate : Q)
    (syn_act : bool) : M unit :=
  w <- get ;;
  onset_last <- index_last (onset_time_list (self w)) ;;
  dur_last <- index_last (duration_list (self w)) ;;
  let start_time_rest := (onset_last + dur_last)%Q in
  let duration := last_duration (self w) in
  let end_time_rest := (start_time_rest + duration)%Q in
  _generate_single_block (Wij_rest (self w)) duration activity_ a_s_rate syn_act ;;;
  record_interval "Rest" start_time_rest end_time_rest.

(** The array [generate_bold_chunkwise] stacks onto the leftover, by
    [input_type]: [wc['exc']], [wc['exc'] + wc['inh']] or the synaptic
    activity. *)
Definition chunk_input (input_type : string) : M signal :=
  if String.eqb input_type "exc" then wc_getitem "exc"
  else if String.eqb input_type "sum" then
    e <- wc_getitem "exc" ;; i <- wc_getitem "inh" ;; ret (sig_add e i)
  else generate_neuronal_oscill.

(** [int(n - n % chunksize)] for a nonzero [chunksize]. *)
Definition used_last_idxs (n : nat) (chunksize : Q) : nat :=
  let nq := inject_Z (Z.of_nat n) in
  Z.to_nat (py_int (nq - fmod nq chunksize)).

(** [new_exc.shape[1] > chunksize]. *)
Definition longer_than (n : nat) (chunksize : Q) : bool :=
  Qgtb (inject_Z (Z.of_nat n)) chunksize.

(** [generate_bold_chunkwise(TR, input_type, normalize_max, is_first, fix)]. *)
Definition generate_bold_chunkwise `{BoldIntegrator} (TR_ : Q)
    (input_type : string) (normalize_max_ : Z) (is_first : bool) (fix_ : bool)
  : M unit :=
  modify (set_self (fun s =>
    with_bold_params (normalize_max s) (output_activation s) (fix_bold s)
      (Some TR_) s)) ;;;
  w <- get ;;
  let N := p_N (params (wc (self w))) in
  let dt := p_dt (params (wc (self w))) in
  chunksize <- py_div (TR_ * 1000) dt ;;
  py_assert (in_keys input_type ["exc"; "sum"; "syn_act"])
    "input type could be 'exc', 'sum' or 'syn_act'" ;;;
  old_rest <-
    (if is_first then ret []
     else match input_rest (self w) with
          | Some r => ret r
          | None => raise (AttributeError "input_rest")
          end) ;;
  new_part <- chunk_input input_type ;;
  let new_exc := old_rest ++ new_part in
  let hrf0 :=
    if is_first then Some (HRF_init N dt TR_ true normalize_max_ fix_)
    else hrf (self w) in
  if longer_than (length new_exc) chunksize then
    _ <- py_fmod (inject_Z (Z.of_nat (length new_exc))) chunksize ;;
    let used := used_last_idxs (length new_exc) chunksize in
    let rest := drop used new_exc in
    let bold_input := take used new_exc in
    match hrf0 with
    | None => raise (AttributeError "'NoneType' object has no attribute 'bw_convolve'")
    | Some h =>
        h' <- lift (bw_convolve h bold_input (negb is_first)) ;;
        modify (set_self (with_hemo (Some h') (Some (BOLD h')) (Some (t_BOLD h'))
                            (Some rest)))
    end
  else
    modify (set_self (fun s =>
      with_hemo hrf0 (sim_BOLD s) (sim_t_BOLD s) (Some new_exc) s)).

(** The end of the body of the task loop of [generate_full_series]:
    [if clear_raw: wc.exc = []; wc.inh = []] and then, whatever
    [clear_raw] is, [wc.t = []; wc.outputs = dotdict(); wc.state = dotdict()]. *)
Definition clear_model (clear_raw : bool) (m : WCModel) : WCModel :=
  {| wc_Cmat := wc_Cmat m; wc_Dmat := wc_Dmat m; params := params m;
     wc_exc := if clear_raw then [] else wc_exc m;
     wc_inh := if clear_raw then [] else wc_inh m;
     wc_t := [];
     wc_outputs := ∅;
     wc_state := ∅ |}.

(** The arguments of [generate_full_series]. *)
Record series_args : Type := mk_series_args {
  g_bold_chunkwise : bool;
  g_TR : Q;
  g_activity : bool;
  g_a_s_rate : Q;
  g_normalize_max : Z;
  g_output_activation : string;
  g_clear_raw : bool;
  g_fix_bold : bool
}.

(** The call of [generate_bold_chunkwise] that follows a block when
    [bold_chunkwise] is set. *)
Definition bold_after_block `{BoldIntegrator} (g : series_args)
    (is_first : bool) : M unit :=
  when (g_bold_chunkwise g)
    (generate_bold_chunkwise (g_TR g) (g_output_activation g)
       (g_normalize_max g) is_first (g_fix_bold g)).

(** One iteration of [for i in range(len(self.onset_time_list))]. *)
Definition task_iteration `{NeuralMass} `{BoldIntegrator} (g : series_args)
    (syn_act : bool) (i : nat) : M unit :=
  w <- get ;;
  let s := self w in
  task_name <- index (task_name_list s) i ;;
  Cmat <- match dict_get (Wij_task_dict s) task_name with
          | Some c => ret c
          | None => raise (KeyError task_name)
          end ;;
  onset_time <- index (onset_time_list s) i ;;
  duration <- index (duration_list s) i ;;
  let start_time_block := onset_time in
  _generate_single_block Cmat duration (g_activity g) (g_a_s_rate g) syn_act ;;;
  bold_after_block g false ;;;
  let end_time_block := (onset_time + duration)%Q in
  record_interval task_name start_time_block end_time_block ;;;
  (if Nat.ltb i (length (onset_time_list s) - 1) then
     onset_next <- index (onset_time_list s) (i + 1) ;;
     let gap := (onset_next - onset_time - duration)%Q in
     when (Qgtb gap 0)
       (let start_time_rest := (onset_time + duration)%Q in
        let end_time_rest := onset_next in
        _generate_single_block (Wij_rest s) gap (g_activity g) (g_a_s_rate g)
          syn_act ;;;
        bold_after_block g false ;;;
        record_interval "Rest" start_time_rest end_time_rest)
   else
     _generate_last_rest (g_activity g) (g_a_s_rate g) syn_act ;;;
     bold_after_block g false) ;;;
  modify (set_self (with_wc (clear_model (g_clear_raw g)))).

(** The head of [generate_full_series]: the hemodynamic parameters are
    stored and, under [bold_chunkwise], the run options are overridden;
    returns [chunksize] (a value that is not read when [bold_chunkwise] is
    off). *)
Definition configure_series (g : series_args) : M Q :=
  modify (set_self (with_bold_params (Some (g_normalize_max g))
                      (Some (g_output_activation g)) (Some (g_fix_bold g))
                      (Some (g_TR g)))) ;;;
  if g_bold_chunkwise g then
    modify (set_self (fun s => with_flags false (bold s) (chunkwise s) true s)) ;;;
    w <- get ;;
    when (bold (self w))
      (modify (print "Options bold_chunkwise incompatible with bold True, set to False")) ;;;
    modify (set_self (fun s =>
      with_flags (append_outputs s) false false (bold_input_ready s) s)) ;;;
    py_div (g_TR g * 1000) (p_dt (params (wc (self w))))
  else ret 0%Q.

(** The seeding of the hemodynamic stage after the first rest block. *)
Definition seed_bold `{BoldIntegrator} (g : series_args) (chunksize : Q)
  : M unit :=
  when (g_bold_chunkwise g)
    (e <- wc_getitem "exc" ;;
     py_assert (Qle_bool chunksize (inject_Z (Z.of_nat (length e))))
       "First rest series should be longer than TR" ;;;
     generate_bold_chunkwise (g_TR g) (g_output_activation g)
       (g_normalize_max g) true (g_fix_bold g)).

(** [generate_full_series]. *)
Definition generate_full_series `{NeuralMass} `{BoldIntegrator}
    (g : series_args) : M unit :=
  chunksize <- configure_series g ;;
  let syn_act := negb (String.eqb (g_output_activation g) "exc") in
  _generate_first_rest (g_activity g) (g_a_s_rate g) syn_act ;;;
  seed_bold g chunksize ;;;
  w <- get ;;
  for_each (seq 0 (length (onset_time_list (self w))))
    (task_iteration g syn_act).

(** ** Further methods: [create_task_design_activation], [gamma_convolve], [generate_bold] *)

(** Python's normalisation of a slice bound on a sequence of length [n]:
    a negative bound counts from the end, and both are clipped. *)
Definition slice_bound (n : nat) (z : Z) : nat :=
  if (z <? 0)%Z then Z.to_nat (Z.max (z + Z.of_nat n) 0)
  else Z.to_nat (Z.min z (Z.of_nat n)).

(** [row[start:end] = 1]. *)
Definition set_ones (start end_ : Z) (row : list Z) : list Z :=
  imap (fun p x =>
          if Nat.leb (slice_bound (length row) start) p
             && Nat.ltb p (slice_bound (length row) end_)
          then 1%Z else x) row.

(** [np.max] of a list of numbers; the empty list has no maximum. *)
Definition np_max (l : list Q) : result Q :=
  match l with
  | [] => Err (ValueError "zero-size array to reduction operation maximum which has no identity")
  | x :: r => Ok (foldl (fun a b => if Qle_bool a b then b else a) x r)
  end.

(** A list comprehension whose body may raise. *)
Fixpoint for_list {A B : Type} (f : A -> result B) (l : list A) : result (list B) :=
  match l with
  | [] => Ok []
  | x :: r =>
      match f x with
      | Err e => Err e
      | Ok y => match for_list f r with
                | Err e => Err e
                | Ok ys => Ok (y :: ys)
                end
      end
  end.

(** The window [start:end] of one onset, in fine steps. *)
Definition onset_window (h : HRF) (duration onset : Q) : Z * Z :=
  (py_round ((1000 / hrf_dt h) * onset),
   py_round ((1000 / hrf_dt h) * (onset + duration))).

(** [HRF.create_task_design_activation(onsets, duration, first_rest,
    last_rest)]; [onsets] is one list for all regions or a list of lists.
    The result is given by rows, one per region.  An [HRF] has a nonzero
    [dt], its constructor divides by it. *)
Definition create_task_design_activation (h : HRF)
    (onsets : list Q + list (list Q)) (duration first_rest last_rest : Q)
  : result (list (list Z)) :=
  match onsets with
  | inl [] | inr [] => Err (IndexError "list index out of range")
  | _ =>
      let onsets := match onsets with
                    | inl l => replicate (hrf_N h) l
                    | inr ll => ll
                    end in
      match for_list np_max onsets with
      | Err e => Err e
      | Ok maxes =>
          match np_max maxes with
          | Err e => Err e
          | Ok max_onset =>
              if Qeq_bool (hrf_dt h) 0
              then Err (ZeroDivisionError "float division by zero")
              else
              let length_ :=
                py_int ((max_onset + duration + last_rest) * 1000 / hrf_dt h) in
              let length_first_rest := py_int (first_rest * 1000 / hrf_dt h) in
              if (length_ <? 0)%Z
              then Err (ValueError "negative dimensions are not allowed")
              else
              match
                for_list (fun i =>
                  match onsets !! i with
                  | None => Err (IndexError "list index out of range")
                  | Some os =>
                      Ok (foldl (fun row onset =>
                                   set_ones (onset_window h duration onset).1
                                            (onset_window h duration onset).2 row)
                            (replicate (Z.to_nat length_) 0%Z) os)
                  end) (seq 0 (hrf_N h))
              with
              | Err e => Err e
              | Ok activation =>
                  if (length_first_rest <? 0)%Z
                  then Err (ValueError "negative dimensions are not allowed")
                  else Ok (map (fun row =>
                                  replicate (Z.to_nat length_first_rest) 0%Z ++ row)
                             activation)
              end
          end
      end
  end.

(** [HRF._gamma_hrf], the double-gamma kernel sampled every [dt]
    milliseconds: it is computed by scipy and taken as a parameter. *)
Class GammaKernel : Type := {
  _gamma_hrf : Q -> list Z
}.

(** Elementwise sum of two vectors, the shorter one padded with zeros. *)
Fixpoint add_padded (a b : list Z) : list Z :=
  match a, b with
  | [], _ => b
  | _, [] => a
  | x :: a', y :: b' => (x + y)%Z :: add_padded a' b'
  end.

(** The full discrete convolution, as [np.convolve(a, v)] returns it for
    non-empty arguments. *)
Fixpoint convolve_full (a v : list Z) : list Z :=
  match a with
  | [] => []
  | x :: r => add_padded (map (Z.mul x) v) (0%Z :: convolve_full r v)
  end.

(** [np.convolve(a, v)]. *)
Definition np_convolve (a v : list Z) : result (list Z) :=
  match a, v with
  | [], _ => Err (ValueError "a cannot be empty")
  | _, [] => Err (ValueError "v cannot be empty")
  | _, _ => Ok (convolve_full a v)
  end.

(** [l[:-k]] for [k >= 0]; [l[:-0]] is [l[:0]]. *)
Definition drop_last {A : Type} (k : nat) (l : list A) : list A :=
  match k with
  | O => []
  | S _ => take (length l - k) l
  end.

(** [BOLD_chunk[i, :] = np.convolve(activity[i], hrf_at_dt)[:-(len(hrf_at_dt) - 1)]]
    for a row of length [T]: the assigned vector must have [T] entries (or
    one, which numpy broadcasts). *)
Definition convolve_row (kernel row : list Z) : result (list Z) :=
  match np_convolve row kernel with
  | Err e => Err e
  | Ok full =>
      let cut := drop_last (length kernel - 1) full in
      if Nat.eqb (length cut) (length row) then Ok cut
      else match cut with
           | [x] => Ok (replicate (length row) x)
           | _ => Err (ValueError "could not broadcast input array")
           end
  end.

(** Row [i] of an array given by columns, and the array of given rows. *)
Definition row_of (a : signal) (i : nat) : list Z := map (fun c => nth i c 0%Z) a.
Definition of_rows (T : nat) (rows : list (list Z)) : signal :=
  map (fun t => map (fun r => nth t r 0%Z) rows) (seq 0 T).

(** [HRF.gamma_convolve(activity, append)]. *)
Definition gamma_convolve `{GammaKernel} (h : HRF) (activity : signal)
    (append : bool) : result HRF :=
  if negb (rows_are (hrf_N h) activity) then
    Err (AssertionError "Input shape must be equal to Number of activations to times")
  else
    let activity :=
      if normalize_input h then sig_scale (hrf_normalize_max h) activity
      else activity in
    let hrf_at_dt := _gamma_hrf (hrf_dt h) in
    match for_list (fun i => convolve_row hrf_at_dt (row_of activity i))
            (seq 0 (hrf_N h)) with
    | Err e => Err e
    | Ok rows =>
        let BOLD_chunk := of_rows (length activity) rows in
        match phase_slice (samplingRate_NDt h) (idxLastT h) BOLD_chunk with
        | Err e => Err e
        | Ok B_res =>
            match phase_slice (samplingRate_NDt h) (idxLastT h)
                    (t_new_idx (idxLastT h) (length activity)) with
            | Err e => Err e
            | Ok ts =>
                let t_res := map (stamp (hrf_dt h)) ts in
                let '(t_new, B_new) :=
                  if Nat.eqb (length (BOLD h)) 0 then (t_res, B_res)
                  else if append then (t_BOLD h ++ t_res, BOLD h ++ B_res)
                  else (t_res, B_res) in
                Ok {| hrf_N := hrf_N h; hrf_dt := hrf_dt h; hrf_TR := hrf_TR h;
                      normalize_input := normalize_input h;
                      hrf_normalize_max := hrf_normalize_max h;
                      hrf_fix := hrf_fix h;
                      samplingRate_NDt := samplingRate_NDt h;
                      t_BOLD := t_new; BOLD := B_new; BOLD_chunk := B_res;
                      idxLastT := idxLastT h + length activity;
                      bw := bw h |}
            end
        end
    end.

(** [a[k:]] for an integer [k] of either sign. *)
Definition py_drop {A : Type} (k : Z) (l : list A) : list A :=
  if (k <? 0)%Z then drop (length l - Z.to_nat (- k)) l else drop (Z.to_nat k) l.

(** [WCTaskSim.generate_bold(bold_input, dt, TR, drop_first, normalize_max,
    conv_type, fix)]; the method reads nothing of [self].  The array
    [bold_input] of shape [(N, T)] is given by [N] and its [T] columns.
    For a [conv_type] other than "BW" and "Gamma" the expression
    [NotImplementedError] is evaluated and dropped.  As for every [HRF],
    the convolutions are those of a sampling step that is not negative. *)
Definition generate_bold `{BoldIntegrator} `{GammaKernel} (N : nat)
    (bold_input : signal)
    (dt TR_ drop_first : Q) (normalize_max_ : Z) (conv_type : string)
    (fix_ : bool) : result (list Q * signal) :=
  if Qeq_bool dt 0 then Err (ZeroDivisionError "float division by zero")
  else
    let h0 := HRF_init N dt TR_ true normalize_max_ fix_ in
    match (if String.eqb conv_type "BW" then bw_convolve h0 bold_input false
           else if String.eqb conv_type "Gamma" then gamma_convolve h0 bold_input false
           else Ok h0) with
    | Err e => Err e
    | Ok h =>
        if Qeq_bool TR_ 0 then Err (ZeroDivisionError "float division by zero")
        else
          let drop_idxs := py_int (drop_first / TR_) in
          Ok (py_drop drop_idxs (t_BOLD h), py_drop drop_idxs (BOLD h))
    end.

(** ** Observations and statements used by the properties *)

(** The part of a [WCTaskSim] that describes the experiment. *)
Definition design (s : WCTaskSim)
  : list (string * loc) * loc * list string * list Q * list Q * bool * Q * Q :=
  (Wij_task_dict s, Wij_rest s, task_name_list s, onset_time_list s,
   duration_list s, rest_before s, first_duration s, last_duration s).

(** The observations most frames are about. *)
Definition design_of (w : world) := design (self w).
Definition time_idxs_of (w : world) := time_idxs_dict (self w).

(** The model object of a simulation. *)
Definition wc_of (w : world) : WCModel := wc (self w).

(** [m] leaves the observation [P] of the store unchanged when it returns. *)
Definition keeps {A X : Type} (P : world -> X) (m : M A) : Prop :=
  forall w a w', m w = Ok (a, w') -> P w' = P w.

(** Resampling the first [k] columns at offset [idx], the remaining ones at
    offset [idx + k], and concatenating time stamps and samples. *)
Definition resample_in_two (h : HRF) (sig : signal) (k idx : nat)
  : result (list Q * signal) :=
  match resample_to_TR h (take k sig) idx with
  | Err e => Err e
  | Ok (t1, s1) =>
      match resample_to_TR h (drop k sig) (idx + k) with
      | Err e => Err e
      | Ok (t2, s2) => Ok (t1 ++ t2, s1 ++ s2)
      end
  end.

(** The number of columns to pass over, standing at fine step [i] of an
    unbroken stream, before the next sampling point (the fine steps
    congruent to 1 modulo [c]). *)
Definition phase (c i : nat) : nat :=
  Z.to_nat ((1 - Z.of_nat i) mod Z.of_nat c).

(** The skip counter of [strided] after [n] more columns. *)
Fixpoint walk (c j n : nat) : nat :=
  match n with
  | O => j
  | S n' =>
      match j with
      | O => walk c (c - 1) n'
      | S j' => walk c j' n'
      end
  end.

(** The synaptic activity as the documentation gives it, for a coupling
    matrix [C]: [(c_ee + c_ei) * E + (c_ie + c_ii) * I + C @ E]. *)
Definition synaptic_formula (ee ei ie ii : Z) (E I : signal) (C : matrix)
  : signal :=
  sig_add (sig_add (sig_scale (ee + ei) E) (sig_scale (ie + ii) I)) (matmul C E).

(** What [generate_full_series] prints when both hemodynamic modes are
    requested. *)
Definition bold_conflict_warning : string :=
  "Options bold_chunkwise incompatible with bold True, set to False".

(** The constructor arguments of the design with one task "A" at onset
    2 s lasting 3 s, a first rest of 6 s before it and a last rest of 8 s;
    everything else is left open. *)
Definition one_task_args (cR cA cD : loc) (app bld chk : bool) (rate : Q)
    (ee ei ie ii : Z) (sc : gmap string Q) : init_args :=
  {| a_Wij_task_dict := [("A", cA)];
     a_Wij_rest := cR; a_D := cD;
     a_onset_time_list := Some [2%Q];
     a_task_name_list := Some ["A"];
     a_duration_list := inl 3%Q;
     a_rest_before := true;
     a_first_duration := 6; a_last_duration := 8;
     a_append_outputs := app; a_bold := bld; a_chunkwise := chk;
     a_act_sampling_rate := rate;
     a_c_excexc := ee; a_c_excinh := ei; a_c_inhexc := ie; a_c_inhinh := ii;
     a_scalars := sc |}.

(** The schedule that design is expected to unfold to: rest for 8 s over
    [-6, 2], task A for 3 s over [2, 5], rest for 8 s over [5, 13], each
    block followed by its bookkeeping. *)
Definition three_block_schedule `{NeuralMass} `{BoldIntegrator}
    (g : series_args) (cR cA : loc) : M unit :=
  chunksize <- configure_series g ;;
  let syn_act := negb (String.eqb (g_output_activation g) "exc") in
  _generate_single_block cR 8 (g_activity g) (g_a_s_rate g) syn_act ;;;
  record_interval "Rest" (-6) 2 ;;;
  seed_bold g chunksize ;;;
  _generate_single_block cA 3 (g_activity g) (g_a_s_rate g) syn_act ;;;
  bold_after_block g false ;;;
  record_interval "A" 2 5 ;;;
  _generate_single_block cR 8 (g_activity g) (g_a_s_rate g) syn_act ;;;
  record_interval "Rest" 5 13 ;;;
  bold_after_block g false ;;;
  modify (set_self (with_wc (clear_model (g_clear_raw g)))).

(** How the store of arrays may change during a run: every array is
    either left as it was or has had its diagonal zeroed. *)
Definition zero_diag_step (h h' : gmap loc matrix) : Prop :=
  forall c, h' !! c = h !! c \/ h' !! c = fill_diagonal <$> (h !! c).
Definition heap_mono {A : Type} (m : M A) : Prop :=
  forall w a w', m w = Ok (a, w') -> zero_diag_step (heap w) (heap w').

(** Every diagonal entry of [m] is zero. *)
Definition zero_diagonal (m : matrix) : Prop :=
  forall i row, m !! i = Some row -> i < length row -> row !! i = Some 0%Z.

(** What [bw_convolve] hands to the integrator. *)
Definition integrator_input (h : HRF) (activity : signal) : signal :=
  if normalize_input h then sig_scale (hrf_normalize_max h) activity
  else activity.


(** The bookkeeping of the hemodynamic stage after [T] fine steps have
    been fed to it, for a sampling step of [c] fine steps: a leftover of at
    most [c] columns, the other [T - leftover] fine steps integrated, and
    one coarse sample (with its time stamp) for every [c] of them. *)
Definition hemo_inv (c T : nat) (w : world) : Prop :=
  exists h rest,
    hrf (self w) = Some h /\ input_rest (self w) = Some rest /\
    samplingRate_NDt h = c /\
    length rest <= c /\
    idxLastT h + length rest = T /\
    length (BOLD h) * c = idxLastT h /\
    length (t_BOLD h) = length (BOLD h).

(** The states of the hemodynamic stage reached by a sequence of chunkwise
    calls of one run: a first call ([is_first=True]) and then further calls
    ([is_first=False]), each on a state in which the stage is as the call
    before left it (the blocks run in between change the model's outputs,
    not the stage).  [c] is the sampling step in fine steps and the index
    counts the fine steps fed so far. *)
Inductive chunkwise_calls (B : BoldIntegrator) (c : nat) (TR_ : Q)
    (it : string) (nm : Z) (fx : bool) : nat -> world -> Prop :=
| calls_first w u w' new :
    (TR_ * 1000 / p_dt (params (wc (self w))) == inject_Z (Z.of_nat c))%Q ->
    chunk_input it w = Ok (new, w) ->
    generate_bold_chunkwise TR_ it nm true fx w = Ok (u, w') ->
    chunkwise_calls B c TR_ it nm fx (length new) w'
| calls_next T w0 w u w' new :
    chunkwise_calls B c TR_ it nm fx T w0 ->
    hrf (self w) = hrf (self w0) ->
    input_rest (self w) = input_rest (self w0) ->
    (TR_ * 1000 / p_dt (params (wc (self w))) == inject_Z (Z.of_nat c))%Q ->
    chunk_input it w = Ok (new, w) ->
    generate_bold_chunkwise TR_ it nm false fx w = Ok (u, w') ->
    chunkwise_calls B c TR_ it nm fx (T + length new) w'.

Definition integrates_in_sequence (B : BoldIntegrator) : Prop :=
  forall (a b : signal) (dt : Q) (st : bw_state) (fx : bool),
    let r1 := simulateBOLD a dt st fx in
    let r2 := simulateBOLD b dt r1.2 fx in
    simulateBOLD (a ++ b) dt st fx = (r1.1 ++ r2.1, r2.2) /\
    length r1.1 = length a.

Definition with_BOLD_chunk (ch : signal) (h : HRF) : HRF :=
  {| hrf_N := hrf_N h; hrf_dt := hrf_dt h; hrf_TR := hrf_TR h;
     normalize_input := normalize_input h;
     hrf_normalize_max := hrf_normalize_max h;
     hrf_fix := hrf_fix h;
     samplingRate_NDt := samplingRate_NDt h;
     t_BOLD := t_BOLD h; BOLD := BOLD h; BOLD_chunk := ch;
     idxLastT := idxLastT h; bw := bw h |}.

Inductive chunkwise_feed (B : BoldIntegrator) (sized : Q -> Prop) (TR_ : Q)
    (it : string) (nm : Z) (fx : bool) : HRF -> signal -> world -> Prop :=
| feed_first w u w' new :
    sized (TR_ * 1000 / p_dt (params (wc (self w))))%Q ->
    chunk_input it w = Ok (new, w) ->
    generate_bold_chunkwise TR_ it nm true fx w = Ok (u, w') ->
    chunkwise_feed B sized TR_ it nm fx
      (HRF_init (p_N (params (wc (self w)))) (p_dt (params (wc (self w))))
         TR_ true nm fx)
      new w'
| feed_next h0 fed w0 w u w' new :
    chunkwise_feed B sized TR_ it nm fx h0 fed w0 ->
    hrf (self w) = hrf (self w0) ->
    input_rest (self w) = input_rest (self w0) ->
    sized (TR_ * 1000 / p_dt (params (wc (self w))))%Q ->
    chunk_input it w = Ok (new, w) ->
    generate_bold_chunkwise TR_ it nm false fx w = Ok (u, w') ->
    chunkwise_feed B sized TR_ it nm fx h0 (fed ++ new) w'.

Definition batch_inv `{B : BoldIntegrator} (c : nat) (h0 : HRF) (fed : signal)
    (w : world) : Prop :=
  samplingRate_NDt h0 = c /\ idxLastT h0 = 0 /\ BOLD h0 = [] /\
  exists h rest m,
    hrf (self w) = Some h /\ input_rest (self w) = Some rest /\
    idxLastT h = m * c /\ idxLastT h <= length fed /\
    rest = drop (idxLastT h) fed /\
    (m = 0 /\ h = h0 \/
     1 <= m /\
     exists ch, bw_convolve h0 (take (idxLastT h) fed) false
                = Ok (with_BOLD_chunk ch h)).

Definition resolved_names (a : init_args) : list string :=
  match a_task_name_list a with
  | Some l => l
  | None => dict_keys (a_Wij_task_dict a)
  end.

Definition aligned (a : Activity) : Prop :=
  exists e i t,
    exc_series a = Some e /\ inh_series a = Some i /\ act_t a = Some t /\
    length i = length e /\ length t = length e.

Definition not_yet_saved (a : Activity) : Prop :=
  exc_series a = None /\ act_t a = None.

Definition equal_length_outputs (NM : NeuralMass) : Prop :=
  forall C p b c,
    length (o_inh (timeIntegration C p b c)) = length (o_exc (timeIntegration C p b c)).

Definition preserves {A : Type} (I : world -> Prop) (m : M A) : Prop :=
  forall w a w', I w -> m w = Ok (a, w') -> I w'.

Definition activity_of (w : world) : Activity := activity (self w).

Definition saved_at (r : Q) (w : world) : Prop :=
  aligned (activity (self w)) /\ sampling_rate (activity (self w)) = r.

Abbreviation interval := (string * (Q * Q))%type.


Definition task_intervals (s : WCTaskSim) (i : nat) : list interval :=
  match task_name_list s !! i, onset_time_list s !! i, duration_list s !! i with
  | Some name, Some onset, Some duration =>
      (name, (onset, (onset + duration)%Q)) ::
      (if Nat.ltb i (length (onset_time_list s) - 1) then
         match onset_time_list s !! (i + 1) with
         | Some next =>
             if Qgtb (next - onset - duration) 0
             then [("Rest", ((onset + duration)%Q, next))]
             else []
         | None => []
         end
       else
         match last (onset_time_list s), last (duration_list s) with
         | Some o, Some d =>
             [("Rest", ((o + d)%Q, (o + d + last_duration s)%Q))]
         | _, _ => []
         end)
  | _, _, _ => []
  end.


Definition record_planned (m : gmap string (list (Q * Q))) (iv : interval)
  : gmap string (list (Q * Q)) :=
  <[iv.1 := default [] (m !! iv.1) ++ [(round3 iv.2.1, round3 iv.2.2)]]> m.

Definition hemo_of (w : world)
  : option HRF * option signal * option (list Q) * option signal * list string :=
  (hrf (self w), sim_BOLD (self w), sim_t_BOLD (self w), input_rest (self w),
   stdout w).

(** Whether fine step [p] of a row of length [n] lies in the window of
    [onset]. *)
Definition in_window (h : HRF) (n : nat) (duration : Q) (p : nat) (onset : Q)
  : bool :=
  Nat.leb (slice_bound n (onset_window h duration onset).1) p
  && Nat.ltb p (slice_bound n (onset_window h duration onset).2).

(** The onsets of region [i]. *)
Definition region_onsets (onsets : list Q + list (list Q)) (i : nat) : list Q :=
  match onsets with
  | inl l => l
  | inr ll => default [] (ll !! i)
  end.

(** The convolution sum [sum_j a[j] * v[n - j]] over the entries of [a] up
    to position [n]. *)
Fixpoint conv_at (a v : list Z) (n : nat) : Z :=
  match a with
  | [] => 0
  | x :: r =>
      x * nth n v 0 + match n with
                      | O => 0
                      | S n' => conv_at r v n'
                      end
  end%Z.

(** The exceptions other than [KeyError] and [IndexError]. *)
Definition benign (e : exn) : Prop :=
  match e with
  | KeyError _ | IndexError _ => False
  | _ => True
  end.

(** [m] raises neither [KeyError] nor [IndexError], whatever the state. *)
Definition mild {A : Type} (m : M A) : Prop :=
  forall w e, m w = Err e -> benign e.

(** The design is consistent and every label a run records under is a key
    of the time-index map. *)
Definition well_formed (w : world) : Prop :=
  let s := self w in
  1 <= length (onset_time_list s) /\
  length (task_name_list s) = length (onset_time_list s) /\
  length (duration_list s) = length (onset_time_list s) /\
  (forall n, n ∈ task_name_list s -> is_Some (dict_get (Wij_task_dict s) n)) /\
  (forall n, n = "Rest" \/ is_Some (dict_get (Wij_task_dict s) n) ->
             is_Some (time_idxs_dict s !! n)).

(** The model holds the outputs of a run. *)
Definition has_outputs (w : world) : Prop :=
  is_Some (wc_outputs (wc (self w)) !! "exc") /\
  is_Some (wc_outputs (wc (self w)) !! "inh").

(** ** Sample collaborators and designs, to run the model *)

(** A neural mass that emits [duration / dt] columns per run; its single
    state variable counts the columns emitted so far, and the excitatory
    value of a column is that count. *)
Definition counting_run (C : matrix) (p : wc_params) (_ _ : bool) : run_out :=
  let n := Z.to_nat (Qfloor (p_duration p / p_dt p)) in
  let start := match p_init p !! "exc" with
               | Some (v :: _) => v
               | _ => 0%Z
               end in
  let vals := map (fun i => (start + Z.of_nat i + 1)%Z) (seq 0 n) in
  {| o_t := [];
     o_exc := map (fun v => replicate (p_N p) v) vals;
     o_inh := map (fun _ => replicate (p_N p) 1%Z) vals;
     o_state := {[ "exc" := [(start + Z.of_nat n)%Z] ]} |}.

(** One column per second. *)
Definition counting_mass : NeuralMass :=
  {| default_dt := 1000; timeIntegration := counting_run |}.

(** A hemodynamic integrator that returns its input as the BOLD chunk and
    appends to [X] the first-region value of every column it is given. *)
Definition logging_bold : BoldIntegrator :=
  {| simulateBOLD := fun a _ st _ =>
       (a, {| X_BOLD := X_BOLD st ++ map (fun c => hd 0%Z c) a;
              F_BOLD := F_BOLD st; Q_BOLD := Q_BOLD st;
              V_BOLD := V_BOLD st |}) |}.

(** Three arrays: the rest matrix at 0, the matrix of task A at 1, the
    delay matrix at 2. *)
Definition sample_heap : gmap loc matrix :=
  {[ 0 := [[5; 1]; [1; 5]]%Z; 1 := [[7; 2]; [3; 7]]%Z; 2 := [[0; 0]; [0; 0]]%Z ]}.

(** Constructor arguments over the sample store: one task matrix, "A",
    a first rest of 6 s and a last rest of 8 s. *)
Definition sample_args (onsets : list Q) (names : list string)
    (durations : Q + list Q) : init_args :=
  {| a_Wij_task_dict := [("A", 1)];
     a_Wij_rest := 0; a_D := 2;
     a_onset_time_list := Some onsets;
     a_task_name_list := Some names;
     a_duration_list := durations;
     a_rest_before := true;
     a_first_duration := 6; a_last_duration := 8;
     a_append_outputs := false; a_bold := false; a_chunkwise := false;
     a_act_sampling_rate := 20;
     a_c_excexc := 16; a_c_excinh := 15; a_c_inhexc := 12; a_c_inhinh := 3;
     a_scalars := ∅ |}.

(** Arguments of [generate_full_series] with [TR = 2] s and activity kept
    every 2 s. *)
Definition sample_series (chunkwise_ : bool) (output : string) : series_args :=
  {| g_bold_chunkwise := chunkwise_; g_TR := 2; g_activity := true;
     g_a_s_rate := 2; g_normalize_max := 2; g_output_activation := output;
     g_clear_raw := true; g_fix_bold := true |}.

(** The simulation object the constructor builds, over the sample store,
    for a design given by its onsets, task names and durations. *)
Definition sample_world (onsets : list Q) (names : list string)
    (durations : Q + list Q) : option world :=
  match @WCTaskSim_init counting_mass sample_heap
          (sample_args onsets names durations) with
  | Ok w => Some w
  | Err _ => None
  end.

(** The one-task design over the sample store, built with [bold=True]. *)
Definition sample_world_builtin_bold : option world :=
  match @WCTaskSim_init counting_mass sample_heap
          (one_task_args 0 1 2 false true false 20 16 15 12 3 ∅) with
  | Ok w => Some w
  | Err _ => None
  end.

(** The one-task design with a first rest block of three fine steps
    (onset at -3 s after a rest of 6 s), after the head of
    [generate_full_series] and the first rest block. *)
Definition sample_after_short_first_rest : option world :=
  match sample_world [(-3)%Q] ["A"] (inl 3%Q) with
  | Some w =>
      match (configure_series (sample_series true "exc") ;;;
             @_generate_first_rest counting_mass true 2 false) w with
      | Ok (_, w1) => Some w1
      | Err _ => None
      end
  | None => None
  end.

(** A kernel with two taps and one with a single tap. *)
Definition two_tap_kernel : GammaKernel := {| _gamma_hrf := fun _ => [1; 2]%Z |}.
Definition one_tap_kernel : GammaKernel := {| _gamma_hrf := fun _ => [1]%Z |}.

Arguments _generate_single_block : simpl never.
Arguments record_interval : simpl never.
Arguments seed_bold : simpl never.
Arguments bold_after_block : simpl never.
Arguments generate_bold_chunkwise : simpl never.
Arguments configure_series : simpl never.

(** * Properties *)

(** ** The resampler *)

Lemma strided_cons_0 {A : Type} (c : nat) (x : A) (l : list A) :
  strided c 0 (x :: l) = x :: strided c (c - 1) l.
Proof. reflexivity. Qed.

Lemma strided_cons_S {A : Type} (c j : nat) (x : A) (l : list A) :
  strided c (S j) (x :: l) = strided c j l.
Proof. reflexivity. Qed.

Lemma strided_length {A : Type} (c j : nat) (l : list A) :
  1 <= c -> length (strided c j l) = (length l + (c - 1) - j) / c.
Proof.
  intros Hc. revert j. induction l as [|x l IH]; intros j.
  - symmetry. apply Nat.div_small. simpl. lia.
  - destruct j as [|j].
    + rewrite strided_cons_0, 2!length_cons, IH.
      replace (S (length l) + (c - 1) - 0) with (length l + 1 * c) by lia.
      rewrite Nat.div_add by lia.
      replace (length l + (c - 1) - (c - 1)) with (length l) by lia; try lia.
    + rewrite strided_cons_S, length_cons, IH. reflexivity.
Qed.

Lemma strided_app {A : Type} (c j : nat) (l1 l2 : list A) :
  strided c j (l1 ++ l2) = strided c j l1 ++ strided c (walk c j (length l1)) l2.
Proof.
  revert j. induction l1 as [|x l1 IH]; intros j; [reflexivity|].
  destruct j as [|j]; simpl; rewrite IH; reflexivity.
Qed.

Lemma slice_start_phase (c i : nat) :
  1 <= c ->
  slice_start c i = if Nat.eqb (phase c i) 0 then c else phase c i.
Proof.
  intros Hc. unfold slice_start, phase, np_mod.
  pose proof (Z.mod_pos_bound (Z.of_nat i - 1) (Z.of_nat c) ltac:(lia)) as Hr.
  replace (Z.sub 1 (Z.of_nat i)) with (Z.opp (Z.sub (Z.of_nat i) 1)) by lia.
  destruct (Z.eq_dec ((Z.of_nat i - 1) mod Z.of_nat c)%Z 0%Z) as [E|E].
  - rewrite Z.mod_opp_l_z by (lia || exact E). rewrite E. simpl.
    lia.
  - rewrite Z.mod_opp_l_nz by (lia || exact E).
    destruct (Nat.eqb_spec (Z.to_nat (Z.of_nat c - (Z.of_nat i - 1) mod Z.of_nat c)%Z) 0); lia.
Qed.

Lemma phase_succ (c i : nat) :
  1 <= c ->
  phase c (S i) = match phase c i with O => c - 1 | S p => p end.
Proof.
  intros Hc. unfold phase.
  pose proof (Z.mod_pos_bound (1 - Z.of_nat i) (Z.of_nat c) ltac:(lia)) as Hr.
  replace (Z.sub 1 (Z.of_nat (S i))) with (Z.sub (Z.sub 1 (Z.of_nat i)) 1) by lia.
  rewrite <- Zminus_mod_idemp_l.
  destruct (Z.eq_dec ((1 - Z.of_nat i) mod Z.of_nat c)%Z 0%Z) as [E|E].
  - rewrite E. change (Z.to_nat 0) with 0.
    replace (Z.sub 0 1) with (Z.add (Z.sub (Z.of_nat c) 1) (Z.mul (-1) (Z.of_nat c)))
      by lia.
    rewrite Z_mod_plus_full, Z.mod_small by lia. lia.
  - rewrite Z.mod_small by lia.
    destruct (Z.to_nat ((1 - Z.of_nat i) mod Z.of_nat c)%Z) eqn:En; lia.
Qed.

Lemma walk_phase (c i n : nat) :
  1 <= c -> walk c (phase c i) n = phase c (i + n).
Proof.
  intros Hc. revert i. induction n as [|n IH]; intros i.
  - rewrite Nat.add_0_r. reflexivity.
  - replace (i + S n) with (S i + n) by lia. rewrite <- IH.
    rewrite (phase_succ c i Hc). simpl. destruct (phase c i); reflexivity.
Qed.

Lemma walk_slice_start (c i n : nat) :
  1 <= c -> 1 <= n -> walk c (slice_start c i) n = phase c (i + n).
Proof.
  intros Hc Hn. rewrite (slice_start_phase c i Hc).
  destruct (Nat.eqb_spec (phase c i) 0) as [E|E]; [|apply walk_phase; exact Hc].
  destruct n as [|n]; [lia|]. destruct c as [|c]; [lia|]. simpl.
  replace (i + S n) with (S i + n) by lia. rewrite <- walk_phase by lia.
  rewrite phase_succ, E by lia. f_equal. lia.
Qed.

Lemma strided_split {A : Type} (c idx k : nat) (l : list A) :
  1 <= c -> 1 <= k <= length l ->
  strided c (slice_start c idx) l
  = strided c (slice_start c idx) (take k l)
    ++ strided c (phase c (idx + k)) (drop k l).
Proof.
  intros Hc Hk. rewrite <- (take_drop k l) at 1.
  rewrite strided_app, length_take, Nat.min_l by lia.
  rewrite walk_slice_start by lia. reflexivity.
Qed.

Lemma t_new_idx_split (idx k n : nat) :
  k <= n ->
  take k (t_new_idx idx n) = t_new_idx idx k /\
  drop k (t_new_idx idx n) = t_new_idx (idx + k) (n - k).
Proof.
  intros Hk. unfold t_new_idx.
  replace n with (k + (n - k)) at 1 2 by lia. rewrite seq_app.
  split.
  - rewrite take_app_length'; [reflexivity|symmetry; apply length_seq].
  - rewrite drop_app_length'; [reflexivity|symmetry; apply length_seq].
Qed.

(** X1: away from the sampling points the resampler is continuous: a
    split at [k] gives the result of the single call whenever fine step
    [idx + k] is not itself a sampling point. *)
Lemma resample_continuity_off_boundary (h : HRF) (sig : signal) (k idx : nat) :
  1 <= k <= length sig ->
  phase (samplingRate_NDt h) (idx + k) <> 0 ->
  resample_in_two h sig k idx = resample_to_TR h sig idx.
Proof.
  intros Hk Hph. unfold resample_in_two, resample_to_TR, phase_slice.
  destruct (samplingRate_NDt h) as [|c'] eqn:Ec; [reflexivity|].
  set (c := S c') in *.
  assert (slice_start c (idx + k) = phase c (idx + k)) as Hs.
  { rewrite slice_start_phase by lia.
    destruct (Nat.eqb_spec (phase c (idx + k)) 0); [contradiction|reflexivity]. }
  rewrite (strided_split c idx k sig) by lia.
  rewrite (strided_split c idx k (t_new_idx idx (length sig)))
    by (unfold t_new_idx; rewrite ?length_seq; lia).
  destruct (t_new_idx_split idx k (length sig) ltac:(lia)) as [-> ->].
  rewrite length_take, length_drop, Nat.min_l, Hs by lia.
  rewrite map_app. reflexivity.
Qed.

(** X2: at a sampling point the split loses exactly the column of that
    fine step, and its time stamp; every other sample is kept. *)
Lemma resample_split_drops_boundary_column (h : HRF) (sig : signal)
    (k idx : nat) (x : column) :
  1 <= samplingRate_NDt h ->
  1 <= k -> sig !! k = Some x ->
  phase (samplingRate_NDt h) (idx + k) = 0 ->
  exists t1 t2 B1 B2,
    resample_to_TR h sig idx
      = Ok (t1 ++ stamp (hrf_dt h) (idx + k) :: t2, B1 ++ x :: B2) /\
    resample_in_two h sig k idx = Ok (t1 ++ t2, B1 ++ B2).
Proof.
  intros Hc Hk1 Hx Hph.
  pose proof (lookup_lt_Some _ _ _ Hx) as Hlt.
  unfold resample_in_two, resample_to_TR, phase_slice.
  destruct (samplingRate_NDt h) as [|c'] eqn:Ec; [lia|].
  set (c := S c') in *.
  assert (slice_start c (idx + k) = c) as Hs.
  { rewrite slice_start_phase, Hph by lia. reflexivity. }
  rewrite (strided_split c idx k sig) by lia.
  rewrite (strided_split c idx k (t_new_idx idx (length sig)))
    by (unfold t_new_idx; rewrite ?length_seq; lia).
  destruct (t_new_idx_split idx k (length sig) ltac:(lia)) as [-> ->].
  rewrite length_take, length_drop, Nat.min_l, Hs, Hph by lia.
  rewrite (drop_S sig x k Hx).
  replace (length sig - k) with (S (length sig - S k)) by lia.
  unfold t_new_idx at 2 4. rewrite <- cons_seq.
  assert (forall (A : Type) (y : A) (l : list A),
            strided c c (y :: l) = strided c (c - 1) l) as Hcc.
  { intros A y l. unfold c at 2. rewrite strided_cons_S.
    f_equal. unfold c. lia. }
  rewrite !strided_cons_0, !Hcc.
  eexists _, _, _, _. split.
  - rewrite map_app. simpl. reflexivity.
  - reflexivity.
Qed.

(** C1 (as the code behaves): with a sampling step of two fine steps, four
    columns resampled in one call from offset 0 give the columns at fine
    steps 1 and 3; resampled as one column at offset 0 followed by three
    columns at offset 1, they give only the column at fine step 3.  The
    column at the boundary (fine step 1, the first of the second call) is
    lost, so the two results differ. *)
Theorem resample_split_at_phase_boundary_loses_sample :
  let h := HRF_init 1 1000 2 true 1 true in
  let sig := [[10]; [11]; [12]; [13]]%Z in
  samplingRate_NDt h = 2 /\
  resample_to_TR h sig 0 = Ok ([1000; 3000]%Q, [[11]; [13]]%Z) /\
  resample_in_two h sig 1 0 = Ok ([3000]%Q, [[13]]%Z) /\
  resample_to_TR h sig 0 <> resample_in_two h sig 1 0.
Proof.
  cbv zeta. split; [reflexivity|]. split; [reflexivity|].
  split; [reflexivity|]. vm_compute. discriminate.
Qed.

(** ** A small program logic for the methods *)

Lemma bind_ok {A B : Type} (m : M A) (k : A -> M B) w b w' :
  bind m k w = Ok (b, w') ->
  exists a w1, m w = Ok (a, w1) /\ k a w1 = Ok (b, w').
Proof.
  unfold bind. destruct (m w) as [[a w1]|e]; [|discriminate].
  intros Hk. exists a, w1. split; [reflexivity|exact Hk].
Qed.

Section Keeps.
Context {X : Type} (P : world -> X).

Lemma keeps_ret {A : Type} (a : A) : keeps P (ret a).
Proof. intros w b w' [= _ <-]. reflexivity. Qed.

Lemma keeps_raise {A : Type} (e : exn) : keeps P (@raise A e).
Proof. intros w b w' [=]. Qed.

Lemma keeps_get : keeps P get.
Proof. intros w b w' [= _ <-]. reflexivity. Qed.

Lemma keeps_lift {A : Type} (r : result A) : keeps P (lift r).
Proof. intros w b w'. unfold lift. destruct r; intros [=]. congruence. Qed.

Lemma keeps_bind {A B : Type} (m : M A) (k : A -> M B) :
  keeps P m -> (forall a, keeps P (k a)) -> keeps P (bind m k).
Proof.
  intros Hm Hk w b w' Hrun.
  apply bind_ok in Hrun as (a & w1 & H1 & H2).
  rewrite (Hk _ _ _ _ H2). eapply Hm; eassumption.
Qed.

Lemma keeps_modify (f : world -> world) :
  (forall w, P (f w) = P w) -> keeps P (modify f).
Proof. intros Hf w b w' [= _ <-]. apply Hf. Qed.

Lemma keeps_assert b msg : keeps P (py_assert b msg).
Proof. destruct b; [apply keeps_ret|apply keeps_raise]. Qed.

Lemma keeps_when b (m : M unit) : keeps P m -> keeps P (when b m).
Proof. destruct b; [trivial|intros _; apply keeps_ret]. Qed.

Lemma keeps_for_each {A : Type} (l : list A) (body : A -> M unit) :
  (forall x, keeps P (body x)) -> keeps P (for_each l body).
Proof.
  intros Hb. induction l as [|x l IH]; simpl.
  - apply keeps_ret.
  - apply keeps_bind; [apply Hb|intros _; exact IH].
Qed.

Lemma keeps_index {A : Type} (l : list A) i : keeps P (index l i).
Proof. unfold index. destruct (l !! i); [apply keeps_ret|apply keeps_raise]. Qed.

Lemma keeps_index_last {A : Type} (l : list A) : keeps P (index_last l).
Proof. unfold index_last. destruct (last l); [apply keeps_ret|apply keeps_raise]. Qed.

Lemma keeps_py_div a b : keeps P (py_div a b).
Proof. unfold py_div. destruct (Qeq_bool b 0); [apply keeps_raise|apply keeps_ret]. Qed.

Lemma keeps_py_fmod a b : keeps P (py_fmod a b).
Proof. unfold py_fmod. destruct (Qeq_bool b 0); [apply keeps_raise|apply keeps_ret]. Qed.

Lemma keeps_hstack_onto {A : Type} (o : option (list A)) n :
  keeps P (hstack_onto o n).
Proof. destruct o; [apply keeps_ret|apply keeps_raise]. Qed.

Lemma keeps_deref l : keeps P (deref l).
Proof.
  unfold deref. apply keeps_bind; [apply keeps_get|intros w].
  destruct (heap w !! l); [apply keeps_ret|apply keeps_raise].
Qed.

Lemma keeps_wc_getitem name : keeps P (wc_getitem name).
Proof.
  unfold wc_getitem. apply keeps_bind; [apply keeps_get|intros w].
  destruct (_ !! name); [apply keeps_ret|apply keeps_raise].
Qed.

Lemma keeps_generate_neuronal_oscill : keeps P generate_neuronal_oscill.
Proof.
  unfold generate_neuronal_oscill.
  apply keeps_bind; [apply keeps_get|intros w]. cbv zeta.
  apply keeps_bind; [apply keeps_deref|intros C]. apply keeps_ret.
Qed.

Lemma keeps_chunk_input it : keeps P (chunk_input it).
Proof.
  unfold chunk_input.
  destruct (String.eqb it "exc"); [apply keeps_wc_getitem|].
  destruct (String.eqb it "sum"); [|apply keeps_generate_neuronal_oscill].
  apply keeps_bind; [apply keeps_wc_getitem|intros e].
  apply keeps_bind; [apply keeps_wc_getitem|intros i]. apply keeps_ret.
Qed.
End Keeps.

(** One step of a frame proof: split a bind, close a leaf, or case on the
    scrutinee of a conditional. *)
Ltac keeps_step :=
  match goal with
  | |- keeps _ (bind _ _) => apply keeps_bind; [|intros ?]
  | |- keeps _ (ret _) => apply keeps_ret
  | |- keeps _ (raise _) => apply keeps_raise
  | |- keeps _ get => apply keeps_get
  | |- keeps _ (lift _) => apply keeps_lift
  | |- keeps _ (py_assert _ _) => apply keeps_assert
  | |- keeps _ (when _ _) => apply keeps_when
  | |- keeps _ (index _ _) => apply keeps_index
  | |- keeps _ (index_last _) => apply keeps_index_last
  | |- keeps _ (py_div _ _) => apply keeps_py_div
  | |- keeps _ (py_fmod _ _) => apply keeps_py_fmod
  | |- keeps _ (hstack_onto _ _) => apply keeps_hstack_onto
  | |- keeps _ (deref _) => apply keeps_deref
  | |- keeps _ (wc_getitem _) => apply keeps_wc_getitem
  | |- keeps _ generate_neuronal_oscill => apply keeps_generate_neuronal_oscill
  | |- keeps _ (chunk_input _) => apply keeps_chunk_input
  | |- keeps _ (for_each _ _) => apply keeps_for_each; intros ?
  | |- keeps _ (modify _) => apply keeps_modify; intros ?; reflexivity
  | |- keeps _ (if ?b then _ else _) => destruct b
  | |- keeps _ (match ?x with _ => _ end) => destruct x
  | |- keeps _ (let _ := _ in _) => cbv zeta
  end.

Create HintDb frames discriminated.

Ltac frame := repeat keeps_step; try solve [eauto with frames].

(** ** The experiment design is never written to *)

Section DesignFrame.
Context `{NeuralMass} `{BoldIntegrator}.

Lemma design_WCModel_run b c : keeps design_of (WCModel_run b c).
Proof. unfold WCModel_run. frame. Qed.

Lemma design_install_Cmat c : keeps design_of (install_Cmat c).
Proof. unfold install_Cmat. frame. Qed.

Lemma design_save_activity r sa ser : keeps design_of (save_activity r sa ser).
Proof. unfold save_activity. frame. Qed.

Hint Resolve design_WCModel_run design_install_Cmat design_save_activity : frames.

Lemma design_generate_single_block c d a r sa :
  keeps design_of (_generate_single_block c d a r sa).
Proof. unfold _generate_single_block. frame. Qed.

Lemma design_record_interval l s e : keeps design_of (record_interval l s e).
Proof. unfold record_interval. frame. Qed.

Hint Resolve design_generate_single_block design_record_interval : frames.

Lemma design_generate_first_rest a r sa : keeps design_of (_generate_first_rest a r sa).
Proof. unfold _generate_first_rest. frame. Qed.

Lemma design_generate_last_rest a r sa : keeps design_of (_generate_last_rest a r sa).
Proof. unfold _generate_last_rest. frame. Qed.

Lemma design_generate_bold_chunkwise tr it nm first fx :
  keeps design_of (generate_bold_chunkwise tr it nm first fx).
Proof. unfold generate_bold_chunkwise. frame. Qed.

Hint Resolve design_generate_first_rest design_generate_last_rest
  design_generate_bold_chunkwise : frames.

Lemma design_bold_after_block g first : keeps design_of (bold_after_block g first).
Proof. unfold bold_after_block. frame. Qed.

Lemma design_configure_series g : keeps design_of (configure_series g).
Proof. unfold configure_series. frame. Qed.

Lemma design_seed_bold g cs : keeps design_of (seed_bold g cs).
Proof. unfold seed_bold. frame. Qed.

Hint Resolve design_bold_after_block design_configure_series design_seed_bold : frames.

Lemma design_task_iteration g sa i : keeps design_of (task_iteration g sa i).
Proof. unfold task_iteration. frame. Qed.

End DesignFrame.

(** ** The schedule of the one-task design *)

Lemma init_one_task `{NeuralMass} h cR cA cD app bld chk rate ee ei ie ii sc w0 :
  WCTaskSim_init h (one_task_args cR cA cD app bld chk rate ee ei ie ii sc) = Ok w0 ->
  design_of w0 = ([("A", cA)], cR, ["A"], [2%Q], [3%Q], true, 6%Q, 8%Q) /\
  time_idxs_of w0 = {[ "Rest" := []; "A" := [] ]}.
Proof.
  unfold WCTaskSim_init. destruct (WCModel_new _ _ _) as [[h' wc0]|e]; [|discriminate].
  simpl. intros [= <-]. split; reflexivity.
Qed.

Lemma run_bind {A B} (m : M A) (k : A -> M B) w :
  bind m k w = match m w with Ok (a, w') => k a w' | Err e => Err e end.
Proof. reflexivity. Qed.

Ltac same_step Hd lem :=
  rewrite 2!run_bind;
  match goal with
  | |- match ?m ?w with _ => _ end = _ =>
      let E := fresh "E" in let w1 := fresh "w" in let a := fresh "a" in
      destruct (m w) as [[a w1]|?] eqn:E; [|reflexivity];
      apply lem in E; rewrite Hd in E; clear Hd; rename E into Hd
  end.



Lemma design_fields w a b c d e f g h :
  design_of w = (a, b, c, d, e, f, g, h) ->
  Wij_task_dict (self w) = a /\ Wij_rest (self w) = b /\
  task_name_list (self w) = c /\ onset_time_list (self w) = d /\
  duration_list (self w) = e /\ rest_before (self w) = f /\
  first_duration (self w) = g /\ last_duration (self w) = h.
Proof. unfold design_of, design. intros [= -> -> -> -> -> -> -> ->]. repeat split. Qed.

Ltac use_design Hd :=
  let H := fresh in
  pose proof (design_fields _ _ _ _ _ _ _ _ _ Hd) as H;
  let H1 := fresh in let H2 := fresh in let H3 := fresh in let H4 := fresh in
  let H5 := fresh in let H6 := fresh in let H7 := fresh in let H8 := fresh in
  destruct H as (H1 & H2 & H3 & H4 & H5 & H6 & H7 & H8);
  rewrite ?H1, ?H2, ?H3, ?H4, ?H5, ?H6, ?H7, ?H8;
  clear H1 H2 H3 H4 H5 H6 H7 H8.

Ltac advance lem Hd :=
  match goal with
  | |- context [match ?m ?w with _ => _ end] =>
      lazymatch m with
      | context [match _ with _ => _ end] => fail
      | _ =>
      let E := fresh "E" in let w1 := fresh "w" in
      destruct (m w) as [[? w1]|?] eqn:E; [|reflexivity];
      apply lem in E; rewrite Hd in E; clear Hd; rename E into Hd
      end
  end.

Lemma schedule_of_one_task `{NeuralMass} `{BoldIntegrator} g cR cA w0 :
  design_of w0 = ([("A", cA)], cR, ["A"], [2%Q], [3%Q], true, 6%Q, 8%Q) ->
  generate_full_series g w0 = three_block_schedule g cR cA w0.
Proof.
  intros Hd. unfold generate_full_series, three_block_schedule.
  rewrite 2!run_bind.
  advance (design_configure_series g) Hd.
  cbv zeta. set (sa := negb _).
  unfold _generate_first_rest, bind, get, index.
  use_design Hd. simpl.
  change (Qplus (Qopp (Qopp (6#1))) (2#1)) with (8#1).
  change (Qopp (6#1)) with ((-6)#1).
  advance (design_generate_single_block cR 8 (g_activity g) (g_a_s_rate g) sa) Hd.
  advance (design_record_interval "Rest" ((-6)#1) 2) Hd.
  advance (design_seed_bold g q) Hd.
  use_design Hd. simpl.
  unfold task_iteration, bind, get, index. use_design Hd. simpl.
  advance (design_generate_single_block cA 3 (g_activity g) (g_a_s_rate g) sa) Hd.
  advance (design_bold_after_block g false) Hd.
  change (Qplus (2#1) (3#1)) with (5#1).
  advance (design_record_interval "A" 2 5) Hd.
  unfold _generate_last_rest, bind, get, index_last. use_design Hd. simpl.
  change (Qplus (2#1) (3#1)) with (5#1).
  change (Qplus (5#1) (8#1)) with (13#1).
  advance (design_generate_single_block cR 8 (g_activity g) (g_a_s_rate g) sa) Hd.
  advance (design_record_interval "Rest" 5 13) Hd.
  advance (design_bold_after_block g false) Hd.
  unfold ret. destruct (modify _ _) as [[[] ?]|]; reflexivity.
Qed.


Section TimeFrame.
Context `{NeuralMass} `{BoldIntegrator}.

Lemma tidx_WCModel_run b c : keeps time_idxs_of (WCModel_run b c).
Proof. unfold WCModel_run. frame. Qed.
Lemma tidx_install_Cmat c : keeps time_idxs_of (install_Cmat c).
Proof. unfold install_Cmat. frame. Qed.
Lemma tidx_save_activity r sa ser : keeps time_idxs_of (save_activity r sa ser).
Proof. unfold save_activity. frame. Qed.
Hint Resolve tidx_WCModel_run tidx_install_Cmat tidx_save_activity : frames.
Lemma tidx_generate_single_block c d a r sa :
  keeps time_idxs_of (_generate_single_block c d a r sa).
Proof. unfold _generate_single_block. frame. Qed.
Lemma tidx_generate_bold_chunkwise tr it nm first fx :
  keeps time_idxs_of (generate_bold_chunkwise tr it nm first fx).
Proof. unfold generate_bold_chunkwise. frame. Qed.
Hint Resolve tidx_generate_single_block tidx_generate_bold_chunkwise : frames.
Lemma tidx_bold_after_block g first : keeps time_idxs_of (bold_after_block g first).
Proof. unfold bold_after_block. frame. Qed.
Lemma tidx_configure_series g : keeps time_idxs_of (configure_series g).
Proof. unfold configure_series. frame. Qed.
Lemma tidx_seed_bold g cs : keeps time_idxs_of (seed_bold g cs).
Proof. unfold seed_bold. frame. Qed.
End TimeFrame.

Lemma record_interval_ok l s e w u w' :
  record_interval l s e w = Ok (u, w') ->
  exists old, time_idxs_of w !! l = Some old /\
    time_idxs_of w' = <[l := old ++ [(round3 s, round3 e)]]> (time_idxs_of w).
Proof.
  unfold record_interval, bind, get, time_idxs_of. simpl.
  destruct (time_idxs_dict (self w) !! l) as [old|]; [|discriminate].
  intros [= <- <-]. exists old. split; reflexivity.
Qed.

Ltac next_step E :=
  let a := fresh "a" in let w1 := fresh "w" in
  apply bind_ok in E as (a & w1 & ?E & E).

Lemma time_map_of_schedule `{NeuralMass} `{BoldIntegrator} g cR cA w0 w' :
  time_idxs_of w0 = {[ "Rest" := []; "A" := [] ]} ->
  three_block_schedule g cR cA w0 = Ok (tt, w') ->
  time_idxs_of w' =
    {[ "Rest" := [((-6)%Q, 2%Q); (5%Q, 13%Q)]; "A" := [(2%Q, 5%Q)] ]}.
Proof.
  intros Ht E. unfold three_block_schedule in E.
  next_step E. apply tidx_configure_series in E0. rewrite Ht in E0. clear Ht.
  cbv zeta in E.
  next_step E. apply tidx_generate_single_block in E1. rewrite E0 in E1. clear E0.
  next_step E. apply record_interval_ok in E0 as (old & Hold & E0).
  rewrite E1 in Hold, E0. clear E1. vm_compute in Hold. injection Hold as <-.
  next_step E. apply tidx_seed_bold in E1. rewrite E0 in E1. clear E0.
  next_step E. apply tidx_generate_single_block in E0. rewrite E1 in E0. clear E1.
  next_step E. apply tidx_bold_after_block in E1. rewrite E0 in E1. clear E0.
  next_step E. apply record_interval_ok in E0 as (old & Hold & E0).
  rewrite E1 in Hold, E0. clear E1. vm_compute in Hold. injection Hold as <-.
  next_step E. apply tidx_generate_single_block in E1. rewrite E0 in E1. clear E0.
  next_step E. apply record_interval_ok in E0 as (old & Hold & E0).
  rewrite E1 in Hold, E0. clear E1. vm_compute in Hold. injection Hold as <-.
  next_step E. apply tidx_bold_after_block in E1. rewrite E0 in E1. clear E0.
  injection E as <-. unfold time_idxs_of in *. simpl. rewrite E1.
  vm_compute. reflexivity.
Qed.

(** C9: the design with one task "A" at onset 2 s lasting 3 s, a first
    rest of 6 s and a last rest of 8 s, with a rest block before the task,
    runs as exactly three blocks in this order: rest for 8 s recorded as
    [-6, 2], task A for 3 s recorded as [2, 5], rest for 8 s recorded as
    [5, 13]; and when the run returns, the time-index map is
    {"Rest": [[-6, 2], [5, 13]], "A": [[2, 5]]}. *)
Theorem one_task_design_three_blocks `{NeuralMass} `{BoldIntegrator}
    h cR cA cD app bld chk rate ee ei ie ii sc g w0 :
  WCTaskSim_init h (one_task_args cR cA cD app bld chk rate ee ei ie ii sc)
    = Ok w0 ->
  generate_full_series g w0 = three_block_schedule g cR cA w0 /\
  forall w', generate_full_series g w0 = Ok (tt, w') ->
    time_idxs_dict (self w') =
      {[ "Rest" := [((-6)%Q, 2%Q); (5%Q, 13%Q)]; "A" := [(2%Q, 5%Q)] ]}.
Proof.
  intros Hinit. apply init_one_task in Hinit as [Hd Ht].
  pose proof (schedule_of_one_task g cR cA w0 Hd) as Hs.
  split; [exact Hs|]. intros w' Hrun. rewrite Hs in Hrun.
  exact (time_map_of_schedule g cR cA w0 w' Ht Hrun).
Qed.

Lemma one_task_design_three_blocks_witness :
  exists w0,
    @WCTaskSim_init counting_mass sample_heap
      (one_task_args 0 1 2 false false false 20 16 15 12 3 ∅) = Ok w0 /\
    (@generate_full_series counting_mass logging_bold
       (sample_series true "syn_act") w0
     = @three_block_schedule counting_mass logging_bold
         (sample_series true "syn_act") 0 1 w0 /\
     forall w',
       @generate_full_series counting_mass logging_bold
         (sample_series true "syn_act") w0 = Ok (tt, w') ->
       time_idxs_dict (self w') =
         {[ "Rest" := [((-6)%Q, 2%Q); (5%Q, 13%Q)]; "A" := [(2%Q, 5%Q)] ]}).
Proof.
  eexists. split; [vm_compute; reflexivity|].
  apply (@one_task_design_three_blocks counting_mass logging_bold
           sample_heap 0 1 2 false false false 20 16 15 12 3 ∅).
  vm_compute. reflexivity.
Defined.

(** The run of the one-task design over the sample store does return.  Its
    blocks have 8, 3 and 8 fine steps and activity is kept every second
    fine step: the third block starts on a sampling point (fine step 11),
    and the stamp 11000 is missing from the resampled time axis. *)
Example one_task_run_returns :
  exists w w',
    sample_world [2%Q] ["A"] (inl 3%Q) = Some w /\
    @generate_full_series counting_mass logging_bold
      (sample_series true "syn_act") w = Ok (tt, w') /\
    act_t (activity (self w'))
    = Some [1000; 3000; 5000; 7000; 9000; 13000; 15000; 17000]%Q.
Proof.
  eexists. eexists. split; [vm_compute; reflexivity|].
  split; vm_compute; reflexivity.
Qed.

(** ** Matrices are zeroed in place *)

Lemma fill_diagonal_lookup (m : matrix) (i : nat) (row : list Z) :
  m !! i = Some row -> fill_diagonal m !! i = Some (<[i := 0%Z]> row).
Proof.
  intros Hm. unfold fill_diagonal. rewrite list_lookup_imap, Hm. reflexivity.
Qed.

Lemma fill_diagonal_idem (m : matrix) :
  fill_diagonal (fill_diagonal m) = fill_diagonal m.
Proof.
  apply list_eq. intros i. unfold fill_diagonal.
  rewrite !list_lookup_imap. destruct (m !! i) as [row|]; simpl; [|reflexivity].
  f_equal. destruct (decide (i < length row)).
  - apply list_insert_insert_eq.
  - rewrite (list_insert_ge row i) by lia. apply list_insert_ge. lia.
Qed.

Lemma fill_diagonal_zero (m : matrix) : zero_diagonal (fill_diagonal m).
Proof.
  intros i row. unfold fill_diagonal. rewrite list_lookup_imap.
  destruct (m !! i) as [r|]; simpl; [|discriminate].
  intros [= <-]. rewrite length_insert. intros Hi.
  apply list_lookup_insert_eq. exact Hi.
Qed.

Lemma zero_diag_step_refl h : zero_diag_step h h.
Proof. intros c. left. reflexivity. Qed.

Lemma zero_diag_step_trans h1 h2 h3 :
  zero_diag_step h1 h2 -> zero_diag_step h2 h3 -> zero_diag_step h1 h3.
Proof.
  intros H12 H23 c. destruct (H23 c) as [E|E], (H12 c) as [F|F];
    rewrite E, F; auto.
  right. destruct (h1 !! c); simpl; [|reflexivity].
  rewrite fill_diagonal_idem. reflexivity.
Qed.

Lemma zero_diag_step_zeroed h h' c m :
  zero_diag_step h h' -> h !! c = Some (fill_diagonal m) ->
  h' !! c = Some (fill_diagonal m).
Proof.
  intros Hs Hc. destruct (Hs c) as [E|E]; rewrite E, Hc; [reflexivity|].
  simpl. rewrite fill_diagonal_idem. reflexivity.
Qed.

Lemma keeps_heap_mono {A : Type} (m : M A) : keeps heap m -> heap_mono m.
Proof. intros Hk w a w' Hr. rewrite (Hk _ _ _ Hr). apply zero_diag_step_refl. Qed.

Lemma heap_mono_bind {A B : Type} (m : M A) (k : A -> M B) :
  heap_mono m -> (forall a, heap_mono (k a)) -> heap_mono (bind m k).
Proof.
  intros Hm Hk w b w' Hr. apply bind_ok in Hr as (a & w1 & H1 & H2).
  eapply zero_diag_step_trans; [eapply Hm|eapply Hk]; eassumption.
Qed.

Lemma heap_mono_for_each {A : Type} (l : list A) (body : A -> M unit) :
  (forall x, heap_mono (body x)) -> heap_mono (for_each l body).
Proof.
  intros Hb. induction l as [|x l IH]; simpl.
  - apply keeps_heap_mono, keeps_ret.
  - apply heap_mono_bind; [apply Hb|intros _; exact IH].
Qed.

Lemma install_Cmat_ok c w u w' :
  install_Cmat c w = Ok (u, w') ->
  exists m, heap w !! c = Some m /\ heap w' = <[c := fill_diagonal m]> (heap w).
Proof.
  unfold install_Cmat. cbv beta iota delta [bind modify get deref ret]. simpl.
  destruct (heap w !! c) as [m|] eqn:E; simpl; [|discriminate].
  intros [= <- <-]. exists m. split; reflexivity.
Qed.

Lemma heap_mono_install_Cmat c : heap_mono (install_Cmat c).
Proof.
  intros w u w' Hr. apply install_Cmat_ok in Hr as (m & Hm & ->).
  intros c'. destruct (decide (c' = c)) as [->|Hne].
  - right. rewrite lookup_insert_eq, Hm. reflexivity.
  - left. apply lookup_insert_ne. congruence.
Qed.

Section HeapFrame.
Context `{NeuralMass} `{BoldIntegrator}.

Lemma heap_WCModel_run b c : keeps heap (WCModel_run b c).
Proof. unfold WCModel_run. frame. Qed.
Lemma heap_save_activity r sa ser : keeps heap (save_activity r sa ser).
Proof. unfold save_activity. frame. Qed.
Lemma heap_record_interval l s e : keeps heap (record_interval l s e).
Proof. unfold record_interval. frame. Qed.
Lemma heap_generate_bold_chunkwise tr it nm first fx :
  keeps heap (generate_bold_chunkwise tr it nm first fx).
Proof. unfold generate_bold_chunkwise. frame. Qed.
Hint Resolve heap_WCModel_run heap_save_activity heap_record_interval
  heap_generate_bold_chunkwise : frames.
Lemma heap_bold_after_block g first : keeps heap (bold_after_block g first).
Proof. unfold bold_after_block. frame. Qed.
Lemma heap_configure_series g : keeps heap (configure_series g).
Proof. unfold configure_series. frame. Qed.
Lemma heap_seed_bold g cs : keeps heap (seed_bold g cs).
Proof. unfold seed_bold. frame. Qed.

(** What the rest of a block does after the matrix is installed. *)
Lemma generate_single_block_heap c d a r sa w u w' :
  _generate_single_block c d a r sa w = Ok (u, w') ->
  exists m, heap w !! c = Some m /\ heap w' = <[c := fill_diagonal m]> (heap w).
Proof.
  unfold _generate_single_block. intros Hr.
  apply bind_ok in Hr as (w0 & w1 & Hget & Hr). injection Hget as <- <-.
  apply bind_ok in Hr as (? & w1 & H1 & Hr).
  assert (heap w1 = heap w) as E1.
  { revert H1. apply (keeps_when heap). frame. }
  apply bind_ok in Hr as (? & w2 & H2 & Hr).
  apply install_Cmat_ok in H2 as (m & Hm & E2).
  exists m. rewrite <- E1. split; [exact Hm|]. rewrite <- E2.
  match type of Hr with
  | ?m _ = _ => assert (keeps heap m) as Hk by frame
  end.
  exact (Hk _ _ _ Hr).
Qed.
End HeapFrame.

Lemma zero_diag_step_back h h' c m :
  zero_diag_step h h' -> h' !! c = Some m ->
  exists m0, h !! c = Some m0 /\ fill_diagonal m = fill_diagonal m0.
Proof.
  intros Hs Hc. destruct (Hs c) as [E|E]; rewrite Hc in E.
  - exists m. split; [symmetry; exact E|reflexivity].
  - destruct (h !! c) as [m0|]; simpl in E; [|discriminate].
    injection E as ->. exists m0. split; [reflexivity|apply fill_diagonal_idem].
Qed.

Lemma for_each_app {A : Type} (l1 l2 : list A) (body : A -> M unit) w u w' :
  for_each (l1 ++ l2) body w = Ok (u, w') ->
  exists w1, for_each l1 body w = Ok (tt, w1) /\ for_each l2 body w1 = Ok (u, w').
Proof.
  revert w. induction l1 as [|x l1 IH]; intros w; simpl.
  - intros Hr. exists w. split; [reflexivity|exact Hr].
  - intros Hr. apply bind_ok in Hr as (a & wa & Hx & Hr).
    apply IH in Hr as (w1 & H1 & H2). exists w1. split; [|exact H2].
    unfold bind. rewrite Hx. exact H1.
Qed.

Section InPlace.
Context `{NeuralMass} `{BoldIntegrator}.

Lemma block_zeroes c d a r sa w u w' :
  _generate_single_block c d a r sa w = Ok (u, w') ->
  zero_diag_step (heap w) (heap w') /\
  exists m, heap w !! c = Some m /\ heap w' !! c = Some (fill_diagonal m).
Proof.
  intros Hr. apply generate_single_block_heap in Hr as (m & Hm & ->). split.
  - intros c'. destruct (decide (c' = c)) as [->|Hne].
    + right. rewrite lookup_insert_eq, Hm. reflexivity.
    + left. apply lookup_insert_ne. congruence.
  - exists m. split; [exact Hm|apply lookup_insert_eq].
Qed.

Lemma heap_mono_generate_single_block c d a r sa :
  heap_mono (_generate_single_block c d a r sa).
Proof. intros w u w' Hr. apply block_zeroes in Hr as [Hs _]. exact Hs. Qed.

Lemma heap_mono_when b (m : M unit) : heap_mono m -> heap_mono (when b m).
Proof. destruct b; [trivial|intros _; apply keeps_heap_mono, keeps_ret]. Qed.

Ltac mono :=
  repeat match goal with
  | |- heap_mono (bind _ _) => apply heap_mono_bind; [|intros ?]
  | |- heap_mono (_generate_single_block _ _ _ _ _) =>
      apply heap_mono_generate_single_block
  | |- heap_mono (for_each _ _) => apply heap_mono_for_each; intros ?
  | |- heap_mono (when _ _) => apply heap_mono_when
  | |- heap_mono (if ?b then _ else _) => destruct b
  | |- heap_mono (match ?x with _ => _ end) => destruct x
  | |- heap_mono (let _ := _ in _) => cbv zeta
  | |- heap_mono _ =>
      solve [ apply keeps_heap_mono;
              first [ apply heap_bold_after_block | apply heap_record_interval
                    | apply heap_seed_bold | apply heap_configure_series
                    | frame ] ]
  end.

Lemma heap_mono_generate_last_rest a r sa : heap_mono (_generate_last_rest a r sa).
Proof. unfold _generate_last_rest. mono. Qed.

Lemma heap_mono_task_iteration g sa i : heap_mono (task_iteration g sa i).
Proof. unfold task_iteration. mono; apply heap_mono_generate_last_rest. Qed.

Lemma heap_mono_generate_first_rest a r sa : heap_mono (_generate_first_rest a r sa).
Proof. unfold _generate_first_rest. mono. Qed.

Lemma heap_mono_generate_full_series g : heap_mono (generate_full_series g).
Proof.
  unfold generate_full_series. mono.
  - apply heap_mono_generate_first_rest.
  - apply heap_mono_task_iteration.
Qed.

Ltac rest_is_mono Hr Hm :=
  match type of Hr with
  | ?m _ = _ => assert (heap_mono m) as Hm by (mono; try apply heap_mono_generate_last_rest; try apply heap_mono_task_iteration)
  end.

Lemma generate_first_rest_zeroes a r sa w u w' :
  _generate_first_rest a r sa w = Ok (u, w') ->
  exists m, heap w !! Wij_rest (self w) = Some m /\
    heap w' !! Wij_rest (self w) = Some (fill_diagonal m).
Proof.
  unfold _generate_first_rest. intros Hr.
  apply bind_ok in Hr as (w0 & w1 & Hget & Hr). injection Hget as <- <-.
  apply bind_ok in Hr as (onset0 & w1 & Hi & Hr).
  apply (keeps_index (fun w => w)) in Hi. subst w1.
  destruct (if rest_before (self w) then _ else _) as [st du].
  apply bind_ok in Hr as (? & w1 & Hb & Hr).
  apply block_zeroes in Hb as (_ & m & Hm & Hz).
  exists m. split; [exact Hm|].
  apply heap_record_interval in Hr. rewrite Hr. exact Hz.
Qed.

Lemma task_iteration_zeroes g sa i w u w' name c :
  task_iteration g sa i w = Ok (u, w') ->
  task_name_list (self w) !! i = Some name ->
  dict_get (Wij_task_dict (self w)) name = Some c ->
  exists m, heap w !! c = Some m /\ heap w' !! c = Some (fill_diagonal m).
Proof.
  unfold task_iteration. intros Hr Hn Hc.
  apply bind_ok in Hr as (w0 & w1 & Hget & Hr). injection Hget as <- <-.
  cbv zeta in Hr. unfold index at 1 in Hr. rewrite Hn in Hr.
  apply bind_ok in Hr as (? & w1 & Hi & Hr). injection Hi as <- <-.
  rewrite Hc in Hr.
  apply bind_ok in Hr as (? & w1 & Hi & Hr). injection Hi as <- <-.
  apply bind_ok in Hr as (onset & w1 & Hi & Hr).
  apply (keeps_index (fun w => w)) in Hi. subst w1.
  apply bind_ok in Hr as (dur & w1 & Hi & Hr).
  apply (keeps_index (fun w => w)) in Hi. subst w1.
  apply bind_ok in Hr as (? & w1 & Hb & Hr).
  apply block_zeroes in Hb as (_ & m & Hm & Hz).
  exists m. split; [exact Hm|].
  rest_is_mono Hr Hmono.
  eapply zero_diag_step_zeroed; [eapply Hmono; exact Hr|exact Hz].
Qed.

Lemma seq_split (n i : nat) :
  i < n -> seq 0 n = seq 0 i ++ i :: seq (S i) (n - S i).
Proof.
  intros Hi. replace n with (i + S (n - S i)) at 1 by lia.
  rewrite seq_app. reflexivity.
Qed.

(** C10: a run that returns has written to the caller's arrays: the array
    [Wij_rest] refers to, and the array of every task of the design, hold at
    the end what they held at the start with the diagonal set to zero (so
    their diagonal is zero), under the very reference the constructor was
    given; and no array of the store changed in any other way. *)
Theorem installed_matrices_zeroed_in_place g w w' :
  generate_full_series g w = Ok (tt, w') ->
  zero_diag_step (heap w) (heap w') /\
  (exists m, heap w !! Wij_rest (self w) = Some m /\
     heap w' !! Wij_rest (self w) = Some (fill_diagonal m) /\
     zero_diagonal (fill_diagonal m)) /\
  (forall i name c,
     i < length (onset_time_list (self w)) ->
     task_name_list (self w) !! i = Some name ->
     dict_get (Wij_task_dict (self w)) name = Some c ->
     exists m, heap w !! c = Some m /\
       heap w' !! c = Some (fill_diagonal m) /\
       zero_diagonal (fill_diagonal m)).
Proof.
  intros Hrun. split; [eapply heap_mono_generate_full_series; exact Hrun|].
  unfold generate_full_series in Hrun.
  apply bind_ok in Hrun as (cs & w1 & Hcfg & Hrun).
  pose proof (heap_configure_series _ _ _ _ Hcfg) as Hh1.
  pose proof (design_configure_series _ _ _ _ Hcfg) as Hd1.
  cbv zeta in Hrun.
  apply bind_ok in Hrun as (? & w2 & Hfirst & Hrun).
  pose proof (design_generate_first_rest _ _ _ _ _ _ Hfirst) as Hd2.
  pose proof (heap_mono_generate_first_rest _ _ _ _ _ _ Hfirst) as Hm2.
  rewrite Hh1 in Hm2.
  split.
  - apply generate_first_rest_zeroes in Hfirst as (m & Hm & Hz).
    destruct (design_fields _ _ _ _ _ _ _ _ _ Hd1) as (_ & Hr & _).
    simpl in Hr. rewrite Hr, Hh1 in Hm. rewrite Hr in Hz.
    exists m. split; [exact Hm|]. split; [|apply fill_diagonal_zero].
    rest_is_mono Hrun Hmono.
    eapply zero_diag_step_zeroed; [eapply Hmono; exact Hrun|exact Hz].
  - intros i name c Hi Hn Hc.
    apply bind_ok in Hrun as (? & w3 & Hseed & Hrun).
    pose proof (design_seed_bold _ _ _ _ _ Hseed) as Hd3.
    pose proof (heap_seed_bold _ _ _ _ _ Hseed) as Hh3.
    apply bind_ok in Hrun as (w0 & w4 & Hget & Hrun). injection Hget as <- <-.
    assert (design_of w3 = design_of w) as Hd by congruence.
    destruct (design_fields _ _ _ _ _ _ _ _ _ Hd) as (Hw & _ & Ht & Ho & _).
    simpl in Hw, Ht, Ho. rewrite Ho, (seq_split _ i Hi) in Hrun.
    apply for_each_app in Hrun as (wa & Hpre & Hrun).
    simpl in Hrun. apply bind_ok in Hrun as (? & wb & Hit & Hrun).
    assert (design_of wa = design_of w3) as Hda.
    { revert Hpre. apply keeps_for_each. intros ?. apply design_task_iteration. }
    rewrite Hd in Hda.
    destruct (design_fields _ _ _ _ _ _ _ _ _ Hda) as (Hwa & _ & Hta & _).
    simpl in Hwa, Hta.
    rewrite <- Hta in Hn. rewrite <- Hwa in Hc.
    destruct (task_iteration_zeroes _ _ _ _ _ _ _ _ Hit Hn Hc) as (m & Hm & Hz).
    assert (zero_diag_step (heap w) (heap wa)) as Hstep.
    { eapply zero_diag_step_trans; [exact Hm2|]. rewrite <- Hh3.
      revert Hpre. apply heap_mono_for_each. intros ?. apply heap_mono_task_iteration. }
    destruct (zero_diag_step_back _ _ _ _ Hstep Hm) as (m0 & Hm0 & Hfd).
    exists m0. split; [exact Hm0|]. split; [|apply fill_diagonal_zero].
    rewrite <- Hfd.
    eapply zero_diag_step_zeroed; [|exact Hz].
    revert Hrun. apply heap_mono_for_each. intros ?. apply heap_mono_task_iteration.
Qed.
End InPlace.

Lemma installed_matrices_zeroed_in_place_witness :
  exists w w',
    sample_world [2%Q] ["A"] (inl 3%Q) = Some w /\
    @generate_full_series counting_mass logging_bold
      (sample_series true "syn_act") w = Ok (tt, w') /\
    (zero_diag_step (heap w) (heap w') /\
     (exists m, heap w !! Wij_rest (self w) = Some m /\
        heap w' !! Wij_rest (self w) = Some (fill_diagonal m) /\
        zero_diagonal (fill_diagonal m)) /\
     (forall i name c,
        i < length (onset_time_list (self w)) ->
        task_name_list (self w) !! i = Some name ->
        dict_get (Wij_task_dict (self w)) name = Some c ->
        exists m, heap w !! c = Some m /\
          heap w' !! c = Some (fill_diagonal m) /\
          zero_diagonal (fill_diagonal m))).
Proof.
  eexists. eexists. split; [vm_compute; reflexivity|].
  split; [vm_compute; reflexivity|].
  apply (@installed_matrices_zeroed_in_place counting_mass logging_bold
           (sample_series true "syn_act")).
  vm_compute. reflexivity.
Defined.

(** ** The first rest block and the hemodynamic seed *)

Section FirstRest.
Context `{NeuralMass} `{BoldIntegrator}.

Lemma wc_of_save_activity r sa ser : keeps wc_of (save_activity r sa ser).
Proof. unfold save_activity. frame. Qed.

Lemma wc_of_record_interval l s e : keeps wc_of (record_interval l s e).
Proof. unfold record_interval. frame. Qed.

Lemma WCModel_run_outputs b c w u w' :
  WCModel_run b c w = Ok (u, w') ->
  wc_outputs (wc_of w') !! "exc" = Some (wc_exc (wc_of w')).
Proof.
  unfold WCModel_run. intros Hr.
  apply bind_ok in Hr as (w0 & w1 & Hget & Hr). injection Hget as <- <-.
  cbv zeta in Hr.
  apply bind_ok in Hr as (C & w1 & Hd & Hr).
  apply (keeps_deref (fun w => w)) in Hd. subst w1.
  injection Hr as <- <-. unfold wc_of. simpl. apply lookup_insert_eq.
Qed.

Lemma generate_single_block_outputs c d a r sa w u w' :
  _generate_single_block c d a r sa w = Ok (u, w') ->
  wc_outputs (wc_of w') !! "exc" = Some (wc_exc (wc_of w')).
Proof.
  unfold _generate_single_block. intros Hr.
  apply bind_ok in Hr as (w0 & w1 & Hget & Hr). injection Hget as <- <-.
  apply bind_ok in Hr as (? & w1 & _ & Hr).
  apply bind_ok in Hr as (? & w2 & _ & Hr).
  apply bind_ok in Hr as (? & w3 & _ & Hr).
  apply bind_ok in Hr as (? & w4 & Hrun & Hr).
  apply WCModel_run_outputs in Hrun.
  match type of Hr with
  | ?m _ = _ => assert (keeps wc_of m) as Hk
  end.
  { repeat keeps_step. apply wc_of_save_activity. }
  rewrite (Hk _ _ _ Hr). exact Hrun.
Qed.

Lemma generate_first_rest_outputs a r sa w u w' :
  _generate_first_rest a r sa w = Ok (u, w') ->
  wc_outputs (wc_of w') !! "exc" = Some (wc_exc (wc_of w')).
Proof.
  unfold _generate_first_rest. intros Hr.
  apply bind_ok in Hr as (w0 & w1 & Hget & Hr). injection Hget as <- <-.
  apply bind_ok in Hr as (onset0 & w1 & _ & Hr).
  destruct (if rest_before (self w) then _ else _) as [st du].
  apply bind_ok in Hr as (? & w2 & Hb & Hr).
  apply generate_single_block_outputs in Hb.
  apply wc_of_record_interval in Hr. rewrite Hr. exact Hb.
Qed.

Lemma configure_series_chunksize g w cs w0 :
  g_bold_chunkwise g = true ->
  configure_series g w = Ok (cs, w0) ->
  cs = (g_TR g * 1000 / p_dt (params (wc (self w))))%Q.
Proof.
  unfold configure_series. intros -> Hr.
  cbv beta iota delta [bind modify get ret when] in Hr. simpl in Hr.
  destruct (bold (self w)); simpl in Hr; unfold py_div in Hr;
    destruct (Qeq_bool _ 0); try discriminate; injection Hr as <- _; reflexivity.
Qed.

(** C8: with chunkwise hemodynamic generation on, once the first rest block
    has run, [generate_full_series] compares the number of fine samples the
    block produced with [chunksize = TR * 1000 / dt]: with fewer samples it
    fails with the assertion error of the first rest series; with at least
    [chunksize] samples that error is not raised and the run goes on with
    the first call of [generate_bold_chunkwise] and the task loop. *)
Theorem first_rest_must_fill_one_TR g w cs w0 u w1 :
  g_bold_chunkwise g = true ->
  configure_series g w = Ok (cs, w0) ->
  _generate_first_rest (g_activity g) (g_a_s_rate g)
    (negb (String.eqb (g_output_activation g) "exc")) w0 = Ok (u, w1) ->
  let n := inject_Z (Z.of_nat (length (wc_exc (wc (self w1))))) in
  cs = (g_TR g * 1000 / p_dt (params (wc (self w))))%Q /\
  (n < cs ->
   generate_full_series g w
   = Err (AssertionError "First rest series should be longer than TR"))%Q /\
  (cs <= n ->
   generate_full_series g w
   = (generate_bold_chunkwise (g_TR g) (g_output_activation g)
        (g_normalize_max g) true (g_fix_bold g) ;;;
      w' <- get ;;
      for_each (seq 0 (length (onset_time_list (self w'))))
        (task_iteration g (negb (String.eqb (g_output_activation g) "exc"))))
       w1)%Q.
Proof.
  intros Hchunk Hcfg Hfirst n.
  split; [eapply configure_series_chunksize; eassumption|].
  pose proof (generate_first_rest_outputs _ _ _ _ _ _ Hfirst) as Hout.
  unfold wc_of in Hout.
  assert (forall K : M unit,
    (seed_bold g cs ;;; K) w1 =
    if Qle_bool cs n
    then (generate_bold_chunkwise (g_TR g) (g_output_activation g)
            (g_normalize_max g) true (g_fix_bold g) ;;; K) w1
    else Err (AssertionError "First rest series should be longer than TR"))
    as Hseed.
  { intros K. unfold seed_bold. rewrite Hchunk. unfold when.
    cbv beta iota delta [bind wc_getitem get ret]. rewrite Hout.
    fold n. destruct (Qle_bool cs n); reflexivity. }
  assert (generate_full_series g w =
          (seed_bold g cs ;;;
           w' <- get ;;
           for_each (seq 0 (length (onset_time_list (self w'))))
             (task_iteration g (negb (String.eqb (g_output_activation g) "exc"))))
            w1) as Hrun.
  { unfold generate_full_series. unfold bind at 1. rewrite Hcfg.
    cbv zeta. unfold bind at 1. rewrite Hfirst. destruct u. reflexivity. }
  rewrite Hrun, Hseed. split.
  - intros Hlt. destruct (Qle_bool cs n) eqn:E; [|reflexivity].
    apply Qle_bool_iff in E. exfalso. exact (Qlt_not_le _ _ Hlt E).
  - intros Hle. apply Qle_bool_iff in Hle. rewrite Hle. reflexivity.
Qed.
End FirstRest.

Lemma first_rest_must_fill_one_TR_witness :
  exists w cs w0 w1,
    sample_world [2%Q] ["A"] (inl 3%Q) = Some w /\
    configure_series (sample_series true "syn_act") w = Ok (cs, w0) /\
    @_generate_first_rest counting_mass true 2 true w0 = Ok (tt, w1) /\
    (cs = (2 * 1000 / p_dt (params (wc (self w))))%Q /\
     (inject_Z (Z.of_nat (length (wc_exc (wc (self w1))))) < cs ->
      @generate_full_series counting_mass logging_bold
        (sample_series true "syn_act") w
      = Err (AssertionError "First rest series should be longer than TR"))%Q /\
     (cs <= inject_Z (Z.of_nat (length (wc_exc (wc (self w1))))) ->
      @generate_full_series counting_mass logging_bold
        (sample_series true "syn_act") w
      = (@generate_bold_chunkwise logging_bold 2 "syn_act" 2 true true ;;;
         w' <- get ;;
         for_each (seq 0 (length (onset_time_list (self w'))))
           (@task_iteration counting_mass logging_bold
              (sample_series true "syn_act") true))
          w1)%Q).
Proof.
  eexists. eexists. eexists. eexists.
  split; [vm_compute; reflexivity|].
  split; [vm_compute; reflexivity|].
  split; [vm_compute; reflexivity|].
  eapply (@first_rest_must_fill_one_TR counting_mass logging_bold
            (sample_series true "syn_act")).
  - reflexivity.
  - vm_compute; reflexivity.
  - vm_compute; reflexivity.
Defined.

(** ** Conflicting hemodynamic modes *)

(** C7: when [bold_chunkwise] is requested on an object built with
    [bold=True], the head of [generate_full_series] raises nothing: it
    prints the warning, sets [bold] (and [chunkwise], [append_outputs]) to
    false, and the run goes on from that state with the first rest block,
    the seeding call of [generate_bold_chunkwise] and the task loop. *)
Theorem chunkwise_overrides_builtin_bold `{NeuralMass} `{BoldIntegrator} g w :
  g_bold_chunkwise g = true ->
  bold (self w) = true ->
  Qeq_bool (p_dt (params (wc (self w)))) 0 = false ->
  exists w',
    configure_series g w
      = Ok ((g_TR g * 1000 / p_dt (params (wc (self w))))%Q, w') /\
    stdout w' = stdout w ++ [bold_conflict_warning] /\
    bold (self w') = false /\
    chunkwise (self w') = false /\
    append_outputs (self w') = false /\
    bold_input_ready (self w') = true /\
    generate_full_series g w
    = (_generate_first_rest (g_activity g) (g_a_s_rate g)
         (negb (String.eqb (g_output_activation g) "exc")) ;;;
       (e <- wc_getitem "exc" ;;
        py_assert (Qle_bool (g_TR g * 1000 / p_dt (params (wc (self w))))
                     (inject_Z (Z.of_nat (length e))))
          "First rest series should be longer than TR" ;;;
        generate_bold_chunkwise (g_TR g) (g_output_activation g)
          (g_normalize_max g) true (g_fix_bold g)) ;;;
       w1 <- get ;;
       for_each (seq 0 (length (onset_time_list (self w1))))
         (task_iteration g (negb (String.eqb (g_output_activation g) "exc"))))
        w'.
Proof.
  intros Hchunk Hbold Hdt.
  assert (exists w', configure_series g w
      = Ok ((g_TR g * 1000 / p_dt (params (wc (self w))))%Q, w') /\
    stdout w' = stdout w ++ [bold_conflict_warning] /\
    bold (self w') = false /\ chunkwise (self w') = false /\
    append_outputs (self w') = false /\ bold_input_ready (self w') = true)
    as (w' & Hcfg & Hrest).
  { unfold configure_series. rewrite Hchunk.
    cbv beta iota delta [bind modify get ret when]. simpl. rewrite Hbold.
    simpl. unfold py_div. rewrite Hdt. eexists. split; [reflexivity|].
    simpl. repeat split; reflexivity. }
  exists w'. split; [exact Hcfg|].
  destruct Hrest as (H1 & H2 & H3 & H4 & H5). repeat (split; [assumption|]).
  unfold generate_full_series. unfold bind at 1. rewrite Hcfg.
  unfold seed_bold. rewrite Hchunk. reflexivity.
Qed.

Lemma chunkwise_overrides_builtin_bold_witness :
  exists w,
    sample_world_builtin_bold = Some w /\
    exists w',
      configure_series (sample_series true "syn_act") w
        = Ok ((2 * 1000 / p_dt (params (wc (self w))))%Q, w') /\
      stdout w' = stdout w ++ [bold_conflict_warning] /\
      bold (self w') = false /\
      chunkwise (self w') = false /\
      append_outputs (self w') = false /\
      bold_input_ready (self w') = true /\
      @generate_full_series counting_mass logging_bold
        (sample_series true "syn_act") w
      = (@_generate_first_rest counting_mass true 2 true ;;;
         (e <- wc_getitem "exc" ;;
          py_assert (Qle_bool (2 * 1000 / p_dt (params (wc (self w))))
                       (inject_Z (Z.of_nat (length e))))
            "First rest series should be longer than TR" ;;;
          @generate_bold_chunkwise logging_bold 2 "syn_act" 2 true true) ;;;
         w1 <- get ;;
         for_each (seq 0 (length (onset_time_list (self w1))))
           (@task_iteration counting_mass logging_bold
              (sample_series true "syn_act") true))
          w'.
Proof.
  eexists. split; [vm_compute; reflexivity|].
  apply (@chunkwise_overrides_builtin_bold counting_mass logging_bold
           (sample_series true "syn_act")); reflexivity.
Defined.

(** ** The check on the onsets *)

(** C4 (as the code behaves): the constructor's check on the onsets is
    [(np.diff(onsets) > 0).any()]: one increasing step is enough.  The
    onsets 0, 5, 3 are not increasing (3 follows 5) and yet the
    constructor accepts them; only a list with no increasing step at all,
    such as 5, 3, is rejected. *)
Theorem onsets_out_of_order_are_accepted :
  any_diff_positive [0; 5; 3]%Q = true /\
  (exists w,
     @WCTaskSim_init counting_mass sample_heap
       (sample_args [0; 5; 3]%Q ["A"; "A"; "A"] (inl 3%Q)) = Ok w /\
     onset_time_list (self w) = [0; 5; 3]%Q) /\
  @WCTaskSim_init counting_mass sample_heap
    (sample_args [5; 3]%Q ["A"; "A"] (inl 3%Q))
  = Err (AssertionError "Next onset time should be more than previous ").
Proof.
  split; [reflexivity|]. split; [|vm_compute; reflexivity].
  eexists. split; vm_compute; reflexivity.
Qed.

(** ** The coupling matrix of the synaptic activity *)

Lemma col_scale_add (a b : Z) (c : column) :
  col_add (col_scale a c) (col_scale b c) = col_scale (a + b) c.
Proof.
  unfold col_add, col_scale. induction c as [|x c IH]; simpl; [reflexivity|].
  rewrite IH. f_equal. lia.
Qed.

Lemma sig_scale_add (a b : Z) (E : signal) :
  sig_add (sig_scale a E) (sig_scale b E) = sig_scale (a + b) E.
Proof.
  unfold sig_add, sig_scale. induction E as [|c E IH]; simpl; [reflexivity|].
  rewrite IH, col_scale_add. reflexivity.
Qed.

Lemma col_add_assoc (a b c : column) :
  col_add (col_add a b) c = col_add a (col_add b c).
Proof.
  unfold col_add. revert b c.
  induction a as [|x a IH]; intros [|y b] [|z c]; simpl; try reflexivity.
  rewrite IH. f_equal. lia.
Qed.

Lemma sig_add_assoc (A B C : signal) :
  sig_add (sig_add A B) C = sig_add A (sig_add B C).
Proof.
  unfold sig_add. revert B C.
  induction A as [|x A IH]; intros [|y B] [|z C]; simpl; try reflexivity.
  rewrite IH, col_add_assoc. reflexivity.
Qed.

(** X15: what [generate_neuronal_oscill] computes.  When it returns it
    has changed nothing, and its result is
    [(c_excexc + c_excinh) * exc + (c_inhexc + c_inhinh) * inh + C @ exc]
    for the current outputs of the model, where [C] is the array behind
    the attribute [wc.Cmat]. *)
Lemma generate_neuronal_oscill_formula w sa w' :
  generate_neuronal_oscill w = Ok (sa, w') ->
  w' = w /\
  exists C, heap w !! wc_Cmat (wc (self w)) = Some C /\
    sa = synaptic_formula (c_excexc (params (wc (self w))))
           (c_excinh (params (wc (self w)))) (c_inhexc (params (wc (self w))))
           (c_inhinh (params (wc (self w)))) (wc_exc (wc (self w)))
           (wc_inh (wc (self w))) C.
Proof.
  unfold generate_neuronal_oscill.
  cbv beta iota zeta delta [bind get ret deref]. simpl.
  destruct (heap w !! wc_Cmat (wc (self w))) as [C|]; [|discriminate].
  intros [= <- <-]. split; [reflexivity|]. exists C. split; [reflexivity|].
  unfold synaptic_formula.
  rewrite sig_scale_add, (sig_add_assoc (sig_scale _ _) (sig_scale _ _)).
  rewrite sig_scale_add. reflexivity.
Qed.

(** The attribute [wc.Cmat] is never assigned after construction. *)
Lemma wc_Cmat_WCModel_run `{NeuralMass} b c :
  keeps (fun w => wc_Cmat (wc (self w))) (WCModel_run b c).
Proof. unfold WCModel_run. frame. Qed.

Lemma wc_Cmat_install_Cmat c :
  keeps (fun w => wc_Cmat (wc (self w))) (install_Cmat c).
Proof. unfold install_Cmat. frame. Qed.

Lemma wc_Cmat_save_activity r sa ser :
  keeps (fun w => wc_Cmat (wc (self w))) (save_activity r sa ser).
Proof. unfold save_activity. frame. Qed.

Lemma wc_Cmat_generate_single_block `{NeuralMass} c d a r sa :
  keeps (fun w => wc_Cmat (wc (self w))) (_generate_single_block c d a r sa).
Proof.
  unfold _generate_single_block. repeat keeps_step.
  - apply wc_Cmat_install_Cmat.
  - apply wc_Cmat_WCModel_run.
  - apply wc_Cmat_save_activity.
Qed.

(** C6 (as the code behaves): in the one-task design over the sample store,
    after the first rest block and the block of task A, the matrix
    installed in the model's parameters is the array of task A, but
    [generate_neuronal_oscill] reads the attribute [wc.Cmat], which still
    refers to the rest array: the synaptic activity it returns is the
    formula over the rest matrix and differs from the formula over the
    matrix installed for the block. *)
Theorem synaptic_activity_uses_rest_matrix_in_task_block :
  exists w w1 C_task C_rest sa,
    sample_world [2%Q] ["A"] (inl 3%Q) = Some w /\
    (@_generate_first_rest counting_mass true 2 true ;;;
     @_generate_single_block counting_mass 1 3 true 2 true) w = Ok (tt, w1) /\
    p_Cmat (params (wc (self w1))) = 1 /\
    wc_Cmat (wc (self w1)) = Wij_rest (self w1) /\
    heap w1 !! 1 = Some C_task /\
    heap w1 !! Wij_rest (self w1) = Some C_rest /\
    generate_neuronal_oscill w1 = Ok (sa, w1) /\
    sa = synaptic_formula 16 15 12 3 (wc_exc (wc (self w1)))
           (wc_inh (wc (self w1))) C_rest /\
    sa <> synaptic_formula 16 15 12 3 (wc_exc (wc (self w1)))
            (wc_inh (wc (self w1))) C_task.
Proof.
  eexists. eexists. eexists. eexists. eexists.
  split; [vm_compute; reflexivity|].
  split; [vm_compute; reflexivity|].
  split; [reflexivity|]. split; [reflexivity|].
  split; [vm_compute; reflexivity|].
  split; [vm_compute; reflexivity|].
  split; [vm_compute; reflexivity|].
  split; [vm_compute; reflexivity|].
  vm_compute. discriminate.
Qed.

(** ** Clearing the model after a task *)

(** The clearing step touches nothing but the model object: the resampled
    activity, the hemodynamic stage and its leftover stay as they are. *)
Lemma clear_model_frame (b : bool) (w : world) :
  let w' := set_self (with_wc (clear_model b)) w in
  activity (self w') = activity (self w) /\
  hrf (self w') = hrf (self w) /\
  sim_BOLD (self w') = sim_BOLD (self w) /\
  input_rest (self w') = input_rest (self w) /\
  params (wc (self w')) = params (wc (self w)) /\
  heap w' = heap w.
Proof. repeat split; reflexivity. Qed.

(** Every iteration of the task loop ends with an empty [wc.state] and
    empty [wc.outputs], whatever [clear_raw] is. *)
Lemma task_iteration_resets_state `{NeuralMass} `{BoldIntegrator} g sa i w u w' :
  task_iteration g sa i w = Ok (u, w') ->
  wc_state (wc (self w')) = ∅ /\ wc_outputs (wc (self w')) = ∅.
Proof.
  unfold task_iteration. intros Hr.
  repeat (apply bind_ok in Hr as (? & ? & _ & Hr)).
  injection Hr as _ <-. split; reflexivity.
Qed.

(** What a block hands to the integrator and what it keeps of the result:
    the integrator gets the parameters of the model as they are, with the
    matrix and the duration of the block, and the block leaves the
    outputs, the last state, and the last state again as the initial values
    of the next run. *)
Lemma generate_single_block_run `{NeuralMass} c d a r sa w u w2 :
  _generate_single_block c d a r sa w = Ok (u, w2) ->
  exists m,
    heap w !! c = Some m /\
    let p := set_p_duration (d * 1000) (set_p_Cmat c (params (wc (self w)))) in
    let out := timeIntegration (fill_diagonal m) p (bold (self w))
                 (chunkwise (self w)) in
    wc_exc (wc (self w2)) = o_exc out /\
    wc_inh (wc (self w2)) = o_inh out /\
    wc_state (wc (self w2)) = o_state out /\
    p_init (params (wc (self w2))) = o_state out.
Proof.
  unfold _generate_single_block. intros Hr.
  apply bind_ok in Hr as (w0 & w1 & Hget & Hr). injection Hget as <- <-.
  apply bind_ok in Hr as (? & w1 & H1 & Hr).
  assert (w1 = w) as ->.
  { revert H1. apply (keeps_when (fun w => w)). frame. }
  apply bind_ok in Hr as (? & w2' & H2 & Hr).
  unfold install_Cmat in H2.
  cbv beta iota delta [bind modify get deref ret] in H2. simpl in H2.
  destruct (heap w !! c) as [m|] eqn:Hm; simpl in H2; [|discriminate].
  injection H2 as _ <-. exists m. split; [reflexivity|].
  apply bind_ok in Hr as (? & w3 & H3 & Hr). injection H3 as _ <-.
  apply bind_ok in Hr as (? & w4 & H4 & Hr).
  unfold WCModel_run in H4.
  cbv beta iota zeta delta [bind modify get deref ret] in H4. simpl in H4.
  rewrite lookup_insert_eq in H4. simpl in H4. injection H4 as _ <-.
  match type of Hr with
  | ?m _ = _ => assert (keeps wc_of m) as Hk
  end.
  { apply keeps_bind; [|intros ?; apply keeps_when; apply wc_of_save_activity].
    destruct sa; [apply keeps_generate_neuronal_oscill|apply keeps_ret]. }
  apply Hk in Hr. unfold wc_of in Hr. cbv zeta. rewrite Hr.
  repeat split; reflexivity.
Qed.

(** C5: the discard at the end of an iteration of the task loop
    ([wc.exc], [wc.inh] under [clear_raw]; [wc.t], [wc.outputs] and
    [wc.state] always) removes copies only.  It leaves the resampled
    activity, the hemodynamic stage with its leftover, the store and the
    parameters of the model as they are, and the parameters hold the
    initial values of the next run, where [run(continue_run=True)] put the
    last state.  So the block that follows the discard integrates from the
    carried state: its integrator is called on the parameters of before
    the discard (with the matrix and duration of the block), and it leaves
    its own last state as the initial values of the run after it. *)
Theorem discarding_raw_buffers_keeps_the_continuation `{NeuralMass}
    (b : bool) (w : world) :
  let w' := set_self (with_wc (clear_model b)) w in
  (activity (self w') = activity (self w) /\
   hrf (self w') = hrf (self w) /\
   sim_BOLD (self w') = sim_BOLD (self w) /\
   sim_t_BOLD (self w') = sim_t_BOLD (self w) /\
   input_rest (self w') = input_rest (self w) /\
   params (wc (self w')) = params (wc (self w)) /\
   heap w' = heap w) /\
  (wc_state (wc (self w')) = ∅ /\ wc_outputs (wc (self w')) = ∅ /\
   (b = true -> wc_exc (wc (self w')) = [] /\ wc_inh (wc (self w')) = [])) /\
  forall c d a r sa u w2,
    _generate_single_block c d a r sa w' = Ok (u, w2) ->
    exists m,
      heap w !! c = Some m /\
      let p := set_p_duration (d * 1000) (set_p_Cmat c (params (wc (self w)))) in
      let out := timeIntegration (fill_diagonal m) p (bold (self w))
                   (chunkwise (self w)) in
      p_init p = p_init (params (wc (self w))) /\
      wc_exc (wc (self w2)) = o_exc out /\
      wc_inh (wc (self w2)) = o_inh out /\
      wc_state (wc (self w2)) = o_state out /\
      p_init (params (wc (self w2))) = o_state out.
Proof.
  cbv zeta. split; [repeat split; reflexivity|].
  split; [split; [reflexivity|split; [reflexivity|intros ->; split; reflexivity]]|].
  intros c d a r sa u w2 Hr.
  apply generate_single_block_run in Hr as (m & Hm & He & Hi & Hs & Hp).
  exists m. split; [exact Hm|]. split; [reflexivity|].
  repeat split; assumption.
Qed.

(** In the design with two tasks over the sample store (onsets 2 s and
    7 s, 3 s each) the neural mass of the sample counts the columns it has
    emitted.  The first iteration of the task loop (task A and the rest
    that fills the gap) ends after 13 fine steps with an empty [wc.state];
    the initial values of the parameters hold the count 13, and the block
    of the second task emits the columns 14, 15, 16. *)
Lemma discarding_raw_buffers_keeps_the_continuation_witness :
  exists w w1 w2,
    sample_world [2; 7]%Q ["A"; "A"] (inl 3%Q) = Some w /\
    (cs <- configure_series (sample_series false "exc") ;;
     @_generate_first_rest counting_mass true 2 false ;;;
     @seed_bold logging_bold (sample_series false "exc") cs ;;;
     @task_iteration counting_mass logging_bold
        (sample_series false "exc") false 0) w = Ok (tt, w1) /\
    idx_last_t (activity (self w1)) = 13 /\
    wc_state (wc (self w1)) = ∅ /\
    p_init (params (wc (self w1))) = {[ "exc" := [13%Z] ]} /\
    @_generate_single_block counting_mass 1 3 true 2 false w1 = Ok (tt, w2) /\
    wc_exc (wc (self w2)) = [[14; 14]; [15; 15]; [16; 16]]%Z /\
    p_init (params (wc (self w2))) = {[ "exc" := [16%Z] ]}.
Proof.
  let v := eval vm_compute in (sample_world [2; 7]%Q ["A"; "A"] (inl 3%Q)) in
  match v with Some ?w => pose (w0 := w) end.
  let v := eval vm_compute in
    ((cs <- configure_series (sample_series false "exc") ;;
      @_generate_first_rest counting_mass true 2 false ;;;
      @seed_bold logging_bold (sample_series false "exc") cs ;;;
      @task_iteration counting_mass logging_bold
         (sample_series false "exc") false 0) w0) in
  match v with Ok (_, ?w) => pose (w1 := w) end.
  let v := eval vm_compute in
    (@_generate_single_block counting_mass 1 3 true 2 false w1) in
  match v with Ok (_, ?w) => pose (w2 := w) end.
  exists w0, w1, w2.
  split; [vm_compute; reflexivity|]. split; [vm_compute; reflexivity|].
  split; [reflexivity|]. split; [reflexivity|]. split; [vm_compute; reflexivity|].
  assert (@_generate_single_block counting_mass 1 3 true 2 false
            (set_self (with_wc (clear_model true)) w1) = Ok (tt, w2)) as Hr
    by (vm_compute; reflexivity).
  split; [vm_compute; reflexivity|].
  destruct (discarding_raw_buffers_keeps_the_continuation (H := counting_mass)
              true w1) as (_ & _ & Hnext).
  destruct (Hnext 1 3%Q true 2%Q false tt w2 Hr) as (m & Hm & _ & He & _ & _ & Hp).
  vm_compute in Hm. injection Hm as <-.
  split; [rewrite He|rewrite Hp]; vm_compute; reflexivity.
Defined.

(** ** Numbers of the hemodynamic stage *)

Lemma slice_start_multiple (c k : nat) : 1 <= c -> slice_start c (k * c) = 1.
Proof.
  intros Hc. unfold slice_start, np_mod.
  replace (Z.of_nat (k * c) - 1)%Z
    with ((Z.of_nat c - 1) + (Z.of_nat k - 1) * Z.of_nat c)%Z by lia.
  rewrite Z_mod_plus_full, Z.mod_small by lia. lia.
Qed.

Lemma py_round_integral (x : Q) (z : Z) : (x == inject_Z z)%Q -> py_round x = z.
Proof.
  intros Hx. unfold py_round.
  assert (Qfloor x = z) as -> by (rewrite Hx; apply Qfloor_Z).
  assert ((x - inject_Z z ?= 1 # 2)%Q = Lt) as ->; [|reflexivity].
  rewrite Hx. unfold Qminus. rewrite Qplus_opp_r. reflexivity.
Qed.

Lemma py_int_integral (x : Q) (z : Z) :
  (0 <= z)%Z -> (x == inject_Z z)%Q -> py_int x = z.
Proof.
  intros Hz Hx. unfold py_int.
  assert (Qle_bool 0 x = true) as ->.
  { apply Qle_bool_iff. rewrite Hx. change 0%Q with (inject_Z 0).
    rewrite <- Zle_Qle. exact Hz. }
  rewrite Hx. apply Qfloor_Z.
Qed.

Lemma used_last_idxs_integral (n c : nat) (cs : Q) :
  1 <= c -> (cs == inject_Z (Z.of_nat c))%Q ->
  used_last_idxs n cs = c * (n / c).
Proof.
  intros Hc Hcs. unfold used_last_idxs, fmod.
  rewrite (py_int_integral _ (Z.of_nat (c * (n / c)))).
  - apply Nat2Z.id.
  - lia.
  - assert (Qfloor (inject_Z (Z.of_nat n) / cs) = (Z.of_nat n / Z.of_nat c)%Z)
      as ->.
    { rewrite Zdiv_Qdiv. apply Qfloor_comp. rewrite Hcs. reflexivity. }
    rewrite Nat2Z.inj_mul, Nat2Z.inj_div, inject_Z_mult.
    setoid_rewrite Hcs. ring.
Qed.

Lemma longer_than_integral (n c : nat) (cs : Q) :
  (cs == inject_Z (Z.of_nat c))%Q -> longer_than n cs = Nat.ltb c n.
Proof.
  intros Hcs. unfold longer_than, Qgtb.
  destruct (Nat.ltb_spec c n) as [Hlt|Hge].
  - destruct (Qle_bool _ cs) eqn:E; [|reflexivity].
    apply Qle_bool_iff in E. rewrite Hcs, <- Zle_Qle in E. lia.
  - assert (Qle_bool (inject_Z (Z.of_nat n)) cs = true) as ->; [|reflexivity].
    apply Qle_bool_iff. rewrite Hcs, <- Zle_Qle. lia.
Qed.


(** ** What a chunkwise call does *)

Lemma chunk_input_reads_model it w1 w new w2 :
  wc (self w1) = wc (self w) -> heap w1 = heap w ->
  chunk_input it w1 = Ok (new, w2) ->
  w2 = w1 /\ chunk_input it w = Ok (new, w).
Proof.
  intros Hwc Hheap. unfold chunk_input, generate_neuronal_oscill.
  cbv beta iota zeta delta [bind get ret raise deref wc_getitem].
  destruct (String.eqb it "exc"); cbv beta iota; rewrite ?Hwc, ?Hheap.
  - destruct (wc_outputs (wc (self w)) !! "exc"); cbv beta; [|discriminate].
    intros [= <- <-]. split; reflexivity.
  - destruct (String.eqb it "sum"); cbv beta iota; rewrite ?Hwc, ?Hheap.
    + destruct (wc_outputs (wc (self w)) !! "exc"); cbv beta; [|discriminate].
      rewrite ?Hwc.
      destruct (wc_outputs (wc (self w)) !! "inh"); cbv beta; [|discriminate].
      intros [= <- <-]. split; reflexivity.
    + destruct (heap w !! wc_Cmat (wc (self w))); cbv beta; [|discriminate].
      intros [= <- <-]. split; reflexivity.
Qed.

Lemma generate_bold_chunkwise_inv `{BoldIntegrator} TR_ it nm first fx w u w' :
  generate_bold_chunkwise TR_ it nm first fx w = Ok (u, w') ->
  exists old new,
    (if first then old = [] else input_rest (self w) = Some old) /\
    chunk_input it w = Ok (new, w) /\
    let dt := p_dt (params (wc (self w))) in
    let cs := (TR_ * 1000 / dt)%Q in
    let hrf0 := if first
                then Some (HRF_init (p_N (params (wc (self w)))) dt TR_ true nm fx)
                else hrf (self w) in
    let new_exc := old ++ new in
    let used := used_last_idxs (length new_exc) cs in
    if longer_than (length new_exc) cs then
      exists h0 h',
        hrf0 = Some h0 /\
        bw_convolve h0 (take used new_exc) (negb first) = Ok h' /\
        hrf (self w') = Some h' /\
        input_rest (self w') = Some (drop used new_exc)
    else
      hrf (self w') = hrf0 /\ input_rest (self w') = Some new_exc.
Proof.
  unfold generate_bold_chunkwise. intros Hr.
  apply bind_ok in Hr as (? & w1 & Hm & Hr). injection Hm as _ <-.
  apply bind_ok in Hr as (w0 & w1 & Hget & Hr). injection Hget as <- <-.
  cbv zeta in Hr. simpl in Hr.
  apply bind_ok in Hr as (cs & w1 & Hcs & Hr).
  unfold py_div in Hcs. destruct (Qeq_bool _ 0); [discriminate|].
  injection Hcs as <- <-.
  apply bind_ok in Hr as (? & w1 & Ha & Hr).
  apply (keeps_assert (fun w => w)) in Ha. subst w1.
  apply bind_ok in Hr as (old & w1 & Hold & Hr).
  assert ((if first then old = [] else input_rest (self w) = Some old) /\
          w1 = set_self (with_bold_params (normalize_max (self w))
                  (output_activation (self w)) (fix_bold (self w)) (Some TR_)) w)
    as [Hold' ->].
  { destruct first.
    - injection Hold as <- <-. split; reflexivity.
    - destruct (input_rest (self w)) as [r|]; [|discriminate].
      injection Hold as <- <-. split; reflexivity. }
  apply bind_ok in Hr as (new & w1 & Hnew & Hr).
  apply (chunk_input_reads_model it _ w) in Hnew as [-> Hnew]; [|reflexivity..].
  exists old, new. split; [exact Hold'|]. split; [exact Hnew|].
  cbv zeta.
  destruct (longer_than _ _).
  - apply bind_ok in Hr as (? & w1 & Hf & Hr).
    apply (keeps_py_fmod (fun w => w)) in Hf. subst w1.
    destruct (if first then _ else _) as [h0|]; [|discriminate].
    apply bind_ok in Hr as (h' & w1 & Hc & Hr).
    unfold lift in Hc.
    destruct (bw_convolve h0 _ _) as [h1|] eqn:Hbw; [|discriminate].
    injection Hc as <- <-. injection Hr as _ <-.
    exists h0, h1. repeat split; try assumption; reflexivity.
  - injection Hr as _ <-. split; reflexivity.
Qed.

Lemma phase_slice_ok {A : Type} (s idx : nat) (l r : list A) :
  phase_slice s idx l = Ok r ->
  1 <= s /\ r = strided s (slice_start s idx) l.
Proof.
  unfold phase_slice. destruct s; [discriminate|].
  intros [= <-]. split; [lia|reflexivity].
Qed.

Lemma bw_convolve_series `{BoldIntegrator} h a app h' :
  (forall x d st f, length (fst (simulateBOLD x d st f)) = length x) ->
  bw_convolve h a app = Ok h' ->
  (app = true \/ BOLD h = []) ->
  length (t_BOLD h) = length (BOLD h) ->
  let s := samplingRate_NDt h in
  let emitted := (length a + (s - 1) - slice_start s (idxLastT h)) / s in
  1 <= s /\
  samplingRate_NDt h' = s /\
  idxLastT h' = idxLastT h + length a /\
  length (BOLD h') = length (BOLD h) + emitted /\
  length (t_BOLD h') = length (BOLD h').
Proof.
  intros Hlen Hr Happ Ht. cbv zeta. unfold bw_convolve in Hr.
  destruct (negb (rows_are (hrf_N h) a)); [discriminate|].
  set (act := if normalize_input h then _ else a) in Hr.
  assert (length act = length a) as Hact.
  { subst act. destruct (normalize_input h); [apply length_map|reflexivity]. }
  pose proof (Hlen act (hrf_dt h * (1 # 1000))%Q (bw h) (hrf_fix h)) as Hl.
  destruct (simulateBOLD act _ _ _) as [chunk bw']. simpl in Hl.
  rewrite Hact in Hl. unfold resample_to_TR in Hr.
  destruct (phase_slice _ _ chunk) as [B_res|] eqn:HB; [|discriminate].
  destruct (phase_slice _ _ (t_new_idx _ _)) as [ts|] eqn:HT; [|discriminate].
  apply phase_slice_ok in HB as [Hs HB]. apply phase_slice_ok in HT as [_ HT].
  assert (length B_res
          = (length a + (samplingRate_NDt h - 1)
             - slice_start (samplingRate_NDt h) (idxLastT h))
            / samplingRate_NDt h) as HlB.
  { rewrite HB, strided_length, Hl by exact Hs. reflexivity. }
  assert (length (map (stamp (hrf_dt h)) ts) = length B_res) as HlT.
  { rewrite length_map, HB, HT, !strided_length by exact Hs.
    unfold t_new_idx. rewrite length_seq. reflexivity. }
  clear HB HT. split; [exact Hs|].
  destruct (Nat.eqb (length (BOLD h)) 0) eqn:E0.
  - apply Nat.eqb_eq in E0. injection Hr as <-. simpl.
    repeat split; lia.
  - destruct Happ as [-> | Hnil]; [|rewrite Hnil in E0; discriminate].
    injection Hr as <-. simpl. rewrite !length_app.
    repeat split; lia.
Qed.


(** ** The leftover buffer of the hemodynamic stage *)

Lemma hemo_inv_counts (c T : nat) (w : world) :
  1 <= c -> hemo_inv c T w ->
  exists h rest,
    hrf (self w) = Some h /\ input_rest (self w) = Some rest /\
    length rest <= c /\
    length (BOLD h) = (T - length rest) / c /\
    (length rest < c -> length (BOLD h) = T / c).
Proof.
  intros Hc (h & rest & Hh & Hr & Hs & Hle & HT & HB & Ht).
  exists h, rest. repeat split; try assumption.
  - replace (T - length rest) with (length (BOLD h) * c) by lia.
    symmetry. apply Nat.div_mul. lia.
  - intros Hlt.
    apply (Nat.div_unique T c (length (BOLD h)) (length rest)); lia.
Qed.

Lemma HRF_init_rate N dt TR_ ni nm fx (c : nat) :
  (TR_ * 1000 / dt == inject_Z (Z.of_nat c))%Q ->
  samplingRate_NDt (HRF_init N dt TR_ ni nm fx) = c.
Proof.
  intros Hcs. unfold HRF_init. simpl.
  rewrite (py_round_integral _ _ Hcs). apply Nat2Z.id.
Qed.

(** One call: from the bookkeeping after [T] fine steps ([T = 0] before
    the first call) to the bookkeeping after [T + length new]. *)
Lemma chunkwise_call_keeps_invariant `{BoldIntegrator} (c T : nat)
    TR_ it nm (first : bool) fx w u w' new :
  (forall x d st f, length (fst (simulateBOLD x d st f)) = length x) ->
  2 <= c ->
  (TR_ * 1000 / p_dt (params (wc (self w))) == inject_Z (Z.of_nat c))%Q ->
  (if first then T = 0 else hemo_inv c T w) ->
  chunk_input it w = Ok (new, w) ->
  generate_bold_chunkwise TR_ it nm first fx w = Ok (u, w') ->
  hemo_inv c (T + length new) w'.
Proof.
  intros Hlen Hc Hcs Hpre Hin Hrun.
  apply generate_bold_chunkwise_inv in Hrun as (old & new' & Hold & Hnew' & Hrest).
  rewrite Hin in Hnew'. injection Hnew' as <-. cbv zeta in Hrest.
  rewrite (longer_than_integral _ c _ Hcs),
    (used_last_idxs_integral _ c _ ltac:(lia) Hcs) in Hrest.
  set (n := length (old ++ new)) in *.
  assert (exists h0,
    (if first
     then Some (HRF_init (p_N (params (wc (self w))))
                  (p_dt (params (wc (self w)))) TR_ true nm fx)
     else hrf (self w)) = Some h0 /\
    samplingRate_NDt h0 = c /\ idxLastT h0 + length old = T /\
    length (BOLD h0) * c = idxLastT h0 /\
    length (t_BOLD h0) = length (BOLD h0) /\
    (negb first = true \/ BOLD h0 = [])) as (h0 & Hh0 & Hs0 & HT0 & HB0 & Ht0 & Happ).
  { destruct first.
    - subst old T. eexists. split; [reflexivity|].
      split; [apply HRF_init_rate; exact Hcs|].
      repeat split; try reflexivity. right. reflexivity.
    - destruct Hpre as (h & rest & Hh & Hr & Hs & Hle & HT & HB & Ht).
      rewrite Hr in Hold. injection Hold as <-.
      exists h. repeat split; try assumption. left. reflexivity. }
  rewrite Hh0 in Hrest.
  assert (n = length old + length new) as Hn by (subst n; apply length_app).
  destruct (Nat.ltb_spec c n) as [Hlt|Hge].
  - destruct Hrest as (h0' & h' & Heq & Hbw & Hh' & Hr'). injection Heq as <-.
    pose proof (Nat.Div0.mul_div_le n c) as Hused.
    pose proof (Nat.div_mod_eq n c) as Hdm.
    pose proof (Nat.mod_upper_bound n c ltac:(lia)) as Hmod.
    remember (n / c) as q eqn:Hq. remember (n mod c) as r eqn:Hr.
    apply bw_convolve_series in Hbw as (_ & Hs' & Hi' & HB' & Ht');
      [|exact Hlen|exact Happ|exact Ht0].
    rewrite length_take in Hi', HB'. fold n in Hi', HB'.
    rewrite Nat.min_l in Hi', HB' by exact Hused.
    rewrite Hs0 in Hs', HB'.
    rewrite <- HB0, (slice_start_multiple c _ ltac:(lia)) in HB'.
    assert ((c * q + (c - 1) - 1) / c = q) as Hdiv.
    { symmetry. apply (Nat.div_unique _ c q (c - 2)); lia. }
    rewrite Hdiv in HB'.
    exists h', (drop (c * q) (old ++ new)).
    rewrite length_drop. fold n.
    repeat split; try assumption; try lia.
  - destruct Hrest as [Hh' Hr'].
    exists h0, (old ++ new). fold n.
    repeat split; try assumption; try lia.
Qed.


(** X22: the bookkeeping of the hemodynamic stage as the code keeps it.
    For a sampling step of [c = TR * 1000 / dt >= 2] fine steps and an
    integrator that returns as many columns as it is given, after every
    sequence of chunkwise calls of one run that has fed [T] fine steps the
    leftover has at most [c] columns (it can hold exactly [c]), the
    number of coarse BOLD samples is [(T - leftover) / c], and it is
    [floor(T / c)] whenever the leftover is shorter than [c]. *)
Theorem chunkwise_leftover_invariant (B : BoldIntegrator) (c T : nat)
    TR_ it nm fx w :
  (forall x d st f, length (fst (simulateBOLD x d st f)) = length x) ->
  2 <= c ->
  chunkwise_calls B c TR_ it nm fx T w ->
  exists h rest,
    hrf (self w) = Some h /\ input_rest (self w) = Some rest /\
    length rest <= c /\
    length (BOLD h) = (T - length rest) / c /\
    (length rest < c -> length (BOLD h) = T / c).
Proof.
  intros Hlen Hc Hcalls. apply hemo_inv_counts; [lia|].
  induction Hcalls as [w u w' new Hcs Hin Hrun
                      |T w0 w u w' new _ IH Hh Hr Hcs Hin Hrun].
  - apply (chunkwise_call_keeps_invariant c 0 TR_ it nm true fx w u w' new);
      try assumption. reflexivity.
  - apply (chunkwise_call_keeps_invariant c T TR_ it nm false fx w u w' new);
      try assumption.
    destruct IH as (h & rest & H1 & H2 & H3).
    exists h, rest. rewrite Hh, Hr. split; [exact H1|]. split; [exact H2|exact H3].
Qed.

Lemma chunkwise_leftover_invariant_witness :
  exists T w,
    chunkwise_calls logging_bold 2 2 "exc" 2 true T w /\
    exists h rest,
      hrf (self w) = Some h /\ input_rest (self w) = Some rest /\
      length rest <= 2 /\
      length (BOLD h) = (T - length rest) / 2 /\
      (length rest < 2 -> length (BOLD h) = T / 2).
Proof.
  let v := eval vm_compute in sample_after_short_first_rest in
  match v with Some ?w => pose (w1 := w) end.
  let v := eval vm_compute in
    (@generate_bold_chunkwise logging_bold 2 "exc" 2 true true w1) in
  match v with Ok (_, ?w) => pose (w2 := w) end.
  let v := eval vm_compute in
    (@_generate_single_block counting_mass 1 3 true 2 false w2) in
  match v with Ok (_, ?w) => pose (w3 := w) end.
  let v := eval vm_compute in
    (@generate_bold_chunkwise logging_bold 2 "exc" 2 false true w3) in
  match v with Ok (_, ?w) => pose (w4 := w) end.
  assert (chunkwise_calls logging_bold 2 2 "exc" 2 true
            (length (wc_exc (wc (self w1))) + length (wc_exc (wc (self w3)))) w4)
    as Hcalls.
  { apply (calls_next logging_bold 2 2 "exc" 2 true _ w2 w3 tt w4
             (wc_exc (wc (self w3)))).
    - apply (calls_first logging_bold 2 2 "exc" 2 true w1 tt w2
               (wc_exc (wc (self w1)))); vm_compute; reflexivity.
    - reflexivity.
    - reflexivity.
    - vm_compute. reflexivity.
    - vm_compute. reflexivity.
    - vm_compute. reflexivity. }
  exists (length (wc_exc (wc (self w1))) + length (wc_exc (wc (self w3)))), w4.
  split; [exact Hcalls|].
  apply (chunkwise_leftover_invariant logging_bold 2 _ 2 "exc" 2 true w4).
  - intros x d st f. reflexivity.
  - lia.
  - exact Hcalls.
Defined.

(** Already the seeding call can keep a whole window: with
    [TR * 1000 / dt = 2] and a first rest block of exactly two fine steps,
    the assertion of [generate_full_series] passes and the first chunkwise
    call keeps both columns: the leftover is not shorter than [chunksize],
    and no coarse sample has been emitted although [floor(2 / 2) = 1]. *)
Lemma leftover_can_hold_a_whole_window :
  exists w w1 h rest,
    sample_world [(-4)%Q] ["A"] (inl 3%Q) = Some w /\
    (cs <- configure_series (sample_series true "exc") ;;
     @_generate_first_rest counting_mass true 2 false ;;;
     @seed_bold logging_bold (sample_series true "exc") cs) w = Ok (tt, w1) /\
    length (wc_exc (wc (self w1))) = 2 /\
    input_rest (self w1) = Some rest /\
    hrf (self w1) = Some h /\
    ~ (inject_Z (Z.of_nat (length rest))
       < 2 * 1000 / p_dt (params (wc (self w1))))%Q /\
    length (BOLD h) <> 2 / 2.
Proof.
  eexists. eexists. eexists. eexists.
  split; [vm_compute; reflexivity|].
  split; [vm_compute; reflexivity|].
  split; [vm_compute; reflexivity|].
  split; [vm_compute; reflexivity|].
  split; [vm_compute; reflexivity|].
  split; vm_compute; intros Hx; discriminate Hx.
Qed.

(** C2 (as the code behaves): [generate_full_series] accepts a first rest
    of [chunksize] columns as enough to seed the hemodynamic stage
    ([shape[1] >= chunksize]), but [generate_bold_chunkwise] resamples only
    a stack that is strictly longer than [chunksize], so a stack of exactly
    one window is kept whole.  With [TR = 4] s and [dt = 1000] ms
    ([chunksize = 4]) and blocks of 5, 2 and 1 fine steps the run feeds
    [T = 8] fine steps: the first call integrates four columns and emits
    one sample, the two later calls stack 3 and then 4 columns and keep
    them.  The run returns with one coarse sample where
    [floor(8 / 4) = 2], with a leftover of four columns, which is not
    shorter than [chunksize], and with the last whole window never
    integrated ([idxLastT = 4]). *)
Theorem whole_window_is_left_unintegrated :
  exists w w' h rest,
    @WCTaskSim_init counting_mass sample_heap
      {| a_Wij_task_dict := [("A", 1)]; a_Wij_rest := 0; a_D := 2;
         a_onset_time_list := Some [(-1)%Q]; a_task_name_list := Some ["A"];
         a_duration_list := inl 2%Q;
         a_rest_before := true; a_first_duration := 6; a_last_duration := 1;
         a_append_outputs := false; a_bold := false; a_chunkwise := false;
         a_act_sampling_rate := 20;
         a_c_excexc := 16; a_c_excinh := 15; a_c_inhexc := 12; a_c_inhinh := 3;
         a_scalars := ∅ |} = Ok w /\
    @generate_full_series counting_mass logging_bold
      {| g_bold_chunkwise := true; g_TR := 4; g_activity := true;
         g_a_s_rate := 2; g_normalize_max := 2; g_output_activation := "exc";
         g_clear_raw := true; g_fix_bold := true |} w = Ok (tt, w') /\
    time_idxs_dict (self w')
    = {[ "Rest" := [((-6)%Q, (-1)%Q); (1%Q, 2%Q)]; "A" := [((-1)%Q, 1%Q)] ]} /\
    idx_last_t (activity (self w')) = 8 /\
    hrf (self w') = Some h /\ input_rest (self w') = Some rest /\
    samplingRate_NDt h = 4 /\
    idxLastT h = 4 /\
    length (BOLD h) = 1 /\ 8 / 4 = 2 /\
    length rest = 4 /\
    rest = [[5; 5]; [6; 6]; [7; 7]; [8; 8]]%Z.
Proof.
  eexists. eexists. eexists. eexists.
  split; [vm_compute; reflexivity|].
  split; [vm_compute; reflexivity|].
  split; [vm_compute; reflexivity|].
  split; [vm_compute; reflexivity|].
  split; [vm_compute; reflexivity|].
  split; [vm_compute; reflexivity|].
  repeat split; vm_compute; reflexivity.
Qed.

(** ** What a chunkwise call integrates *)

Lemma bw_convolve_state `{BoldIntegrator} h a app h' :
  bw_convolve h a app = Ok h' ->
  bw h' = snd (simulateBOLD (integrator_input h a) (hrf_dt h * (1 # 1000))%Q
                 (bw h) (hrf_fix h)) /\
  idxLastT h' = idxLastT h + length a.
Proof.
  unfold bw_convolve, integrator_input.
  destruct (negb (rows_are (hrf_N h) a)); [discriminate|].
  destruct (simulateBOLD _ _ _ _) as [chunk bw'].
  destruct (resample_to_TR h chunk (idxLastT h)) as [[t_res B_res]|e]; [|discriminate].
  destruct (if Nat.eqb _ 0 then _ else _) as [t_new B_new].
  intros [= <-]. simpl. split; [reflexivity|].
  destruct (normalize_input h); [|reflexivity].
  unfold sig_scale. rewrite length_map. reflexivity.
Qed.




(** ** More on the resampler *)

Lemma resample_continuity_off_boundary_witness :
  1 <= 2 <= length [[10]; [11]; [12]; [13]]%Z /\
  phase (samplingRate_NDt (HRF_init 1 1000 2 true 1 true)) (0 + 2) <> 0 /\
  resample_in_two (HRF_init 1 1000 2 true 1 true) [[10]; [11]; [12]; [13]]%Z 2 0
  = resample_to_TR (HRF_init 1 1000 2 true 1 true) [[10]; [11]; [12]; [13]]%Z 0.
Proof.
  assert (1 <= 2 <= length [[10]; [11]; [12]; [13]]%Z) as H1 by (simpl; lia).
  assert (phase (samplingRate_NDt (HRF_init 1 1000 2 true 1 true)) (0 + 2) <> 0)
    as H2 by (vm_compute; lia).
  split; [exact H1|]. split; [exact H2|].
  exact (resample_continuity_off_boundary _ _ 2 0 H1 H2).
Defined.

Lemma resample_split_drops_boundary_column_witness :
  exists t1 t2 B1 B2,
    resample_to_TR (HRF_init 1 1000 2 true 1 true) [[10]; [11]; [12]; [13]]%Z 0
      = Ok (t1 ++ stamp 1000 (0 + 3) :: t2, B1 ++ [13%Z] :: B2) /\
    resample_in_two (HRF_init 1 1000 2 true 1 true) [[10]; [11]; [12]; [13]]%Z 3 0
      = Ok (t1 ++ t2, B1 ++ B2).
Proof.
  apply (resample_split_drops_boundary_column
           (HRF_init 1 1000 2 true 1 true) [[10]; [11]; [12]; [13]]%Z 3 0 [13%Z]).
  - vm_compute. lia.
  - lia.
  - reflexivity.
  - vm_compute. reflexivity.
Defined.

Lemma strided_lookup {A : Type} (c j0 j : nat) (l : list A) :
  1 <= c -> strided c j0 l !! j = l !! (j0 + j * c).
Proof.
  intros Hc. revert j0 j. induction l as [|x l IH]; intros j0 j.
  - rewrite !lookup_nil. reflexivity.
  - destruct j0 as [|k].
    + rewrite strided_cons_0. destruct j as [|j]; [reflexivity|].
      simpl lookup at 1. rewrite IH.
      replace (0 + S j * c) with (S (c - 1 + j * c)) by lia. reflexivity.
    + rewrite strided_cons_S, IH. reflexivity.
Qed.

Lemma walk_down (c p : nat) : walk c p p = 0.
Proof. induction p as [|p IH]; [reflexivity|exact IH]. Qed.

Lemma slice_start_sampling_point (c i : nat) :
  1 <= c ->
  1 <= slice_start c i <= c /\ phase c (i + slice_start c i) = 0.
Proof.
  intros Hc. rewrite (slice_start_phase c i Hc).
  assert (phase c i < c) as Hlt.
  { unfold phase.
    pose proof (Z.mod_pos_bound (1 - Z.of_nat i) (Z.of_nat c) ltac:(lia)). lia. }
  destruct (Nat.eqb_spec (phase c i) 0) as [E|E].
  - split; [lia|]. rewrite <- walk_phase, E by lia.
    destruct c as [|c]; [lia|]. simpl. replace (c - 0) with c by lia.
    apply walk_down.
  - split; [lia|]. rewrite <- walk_phase by lia. apply walk_down.
Qed.

Lemma phase_slice_lookup {A : Type} (s idx : nat) (l r : list A) :
  phase_slice s idx l = Ok r ->
  1 <= s /\ forall j, r !! j = l !! (slice_start s idx + j * s).
Proof.
  intros Hr. apply phase_slice_ok in Hr as [Hs ->]. split; [exact Hs|].
  intros j. apply strided_lookup. exact Hs.
Qed.

Lemma resample_to_TR_lookup (h : HRF) (sig : signal) (idx : nat)
    (t : list Q) (B : signal) :
  resample_to_TR h sig idx = Ok (t, B) ->
  1 <= samplingRate_NDt h /\
  forall j,
    B !! j = sig !! (slice_start (samplingRate_NDt h) idx + j * samplingRate_NDt h) /\
    t !! j = (fun _ => stamp (hrf_dt h)
                         (idx + slice_start (samplingRate_NDt h) idx
                          + j * samplingRate_NDt h))
               <$> sig !! (slice_start (samplingRate_NDt h) idx
                           + j * samplingRate_NDt h).
Proof.
  unfold resample_to_TR. intros Hr.
  destruct (phase_slice _ _ sig) as [B'|] eqn:HB; [|discriminate].
  destruct (phase_slice _ _ (t_new_idx _ _)) as [ts|] eqn:HT; [|discriminate].
  injection Hr as <- <-.
  apply phase_slice_lookup in HB as [Hs HB]. apply phase_slice_lookup in HT as [_ HT].
  split; [exact Hs|]. intros j. split; [apply HB|].
  rewrite list_lookup_fmap, HT. unfold t_new_idx.
  destruct (sig !! (slice_start (samplingRate_NDt h) idx + j * samplingRate_NDt h))
    as [x|] eqn:E.
  - rewrite lookup_seq_lt by (apply lookup_lt_Some in E; exact E).
    simpl. do 2 f_equal. lia.
  - rewrite lookup_seq_ge by (apply lookup_ge_None in E; exact E). reflexivity.
Qed.

Lemma resample_to_TR_length (h : HRF) (sig : signal) (idx : nat)
    (t : list Q) (B : signal) :
  resample_to_TR h sig idx = Ok (t, B) -> length t = length B.
Proof.
  unfold resample_to_TR. intros Hr.
  destruct (phase_slice _ _ sig) as [B'|] eqn:HB; [|discriminate].
  destruct (phase_slice _ _ (t_new_idx _ _)) as [ts|] eqn:HT; [|discriminate].
  injection Hr as <- <-.
  apply phase_slice_ok in HB as [Hs ->]. apply phase_slice_ok in HT as [_ ->].
  rewrite length_map, !strided_length by exact Hs.
  unfold t_new_idx. rewrite length_seq. reflexivity.
Qed.

(** X3: what [resample_to_TR] selects.  With sampling step [s] and offset
    [idx], the first column kept is at local position [start] with
    [1 <= start <= s], and global fine step [idx + start] is a sampling
    point; the [j]-th sample is the column at local position
    [start + j * s] and its time stamp is [dt] times the global fine step
    [idx + start + j * s]; time stamps and samples are equally many.  In
    particular the first column of a chunk is never kept. *)
Theorem resample_to_TR_selects_sampling_points (h : HRF) (sig : signal)
    (idx : nat) (t : list Q) (B : signal) :
  resample_to_TR h sig idx = Ok (t, B) ->
  let s := samplingRate_NDt h in
  let start := slice_start s idx in
  1 <= start <= s /\
  phase s (idx + start) = 0 /\
  length t = length B /\
  forall j,
    B !! j = sig !! (start + j * s) /\
    t !! j = (fun _ => stamp (hrf_dt h) (idx + start + j * s))
               <$> sig !! (start + j * s).
Proof.
  intros Hr. cbv zeta.
  destruct (resample_to_TR_lookup h sig idx t B Hr) as [Hs Hj].
  destruct (slice_start_sampling_point (samplingRate_NDt h) idx Hs) as [Hst Hph].
  split; [exact Hst|]. split; [exact Hph|].
  split; [exact (resample_to_TR_length h sig idx t B Hr)|exact Hj].
Qed.

Lemma resample_to_TR_selects_sampling_points_witness :
  resample_to_TR (HRF_init 1 1000 2 true 1 true) [[10]; [11]; [12]; [13]; [14]]%Z 3
    = Ok ([5000; 7000]%Q, [[12]; [14]]%Z) /\
  phase (samplingRate_NDt (HRF_init 1 1000 2 true 1 true))
    (3 + slice_start (samplingRate_NDt (HRF_init 1 1000 2 true 1 true)) 3) = 0.
Proof.
  assert (resample_to_TR (HRF_init 1 1000 2 true 1 true)
            [[10]; [11]; [12]; [13]; [14]]%Z 3
          = Ok ([5000; 7000]%Q, [[12]; [14]]%Z)) as H by (vm_compute; reflexivity).
  split; [exact H|].
  exact (proj1 (proj2 (resample_to_TR_selects_sampling_points _ _ _ _ _ H))).
Defined.

(** ** Chunks of [bw_convolve] *)

Lemma resample_to_TR_app (h : HRF) (c1 c2 : signal) (idx : nat)
    (t1 t2 : list Q) (B1 B2 : signal) :
  1 <= length c1 ->
  phase (samplingRate_NDt h) (idx + length c1) <> 0 ->
  resample_to_TR h c1 idx = Ok (t1, B1) ->
  resample_to_TR h c2 (idx + length c1) = Ok (t2, B2) ->
  resample_to_TR h (c1 ++ c2) idx = Ok (t1 ++ t2, B1 ++ B2).
Proof.
  intros Hk Hph. unfold resample_to_TR, phase_slice.
  destruct (samplingRate_NDt h) as [|c'] eqn:Ec; [discriminate|].
  set (c := S c') in *.
  intros [= <- <-] [= <- <-].
  assert (slice_start c (idx + length c1) = phase c (idx + length c1)) as Hs.
  { rewrite slice_start_phase by lia.
    destruct (Nat.eqb_spec (phase c (idx + length c1)) 0);
      [contradiction|reflexivity]. }
  rewrite strided_app, walk_slice_start, Hs by lia.
  unfold t_new_idx. rewrite length_app, seq_app, strided_app, length_seq.
  rewrite walk_slice_start, map_app by lia. reflexivity.
Qed.

Lemma rows_are_app (n : nat) (a b : signal) :
  rows_are n (a ++ b) = rows_are n a && rows_are n b.
Proof. unfold rows_are. apply forallb_app. Qed.

Lemma sig_scale_app (k : Z) (a b : signal) :
  sig_scale k (a ++ b) = sig_scale k a ++ sig_scale k b.
Proof. unfold sig_scale. apply map_app. Qed.

Lemma bw_convolve_app `{B : BoldIntegrator} (h h1 h2 : HRF)
    (a b : signal) (append : bool) :
  integrates_in_sequence B ->
  1 <= length a ->
  phase (samplingRate_NDt h) (idxLastT h + length a) <> 0 ->
  bw_convolve h a append = Ok h1 ->
  bw_convolve h1 b true = Ok h2 ->
  bw_convolve h (a ++ b) append
  = Ok (with_BOLD_chunk (BOLD_chunk h1 ++ BOLD_chunk h2) h2).
Proof.
  intros Hseq Hk Hph H1 H2. unfold bw_convolve in *.
  rewrite rows_are_app.
  destruct (rows_are (hrf_N h) a) eqn:Ra; [|discriminate]. simpl in H1.
  set (a' := if normalize_input h then sig_scale (hrf_normalize_max h) a else a) in *.
  assert (length a' = length a) as La.
  { unfold a', sig_scale. destruct (normalize_input h); [apply length_map|reflexivity]. }
  destruct (simulateBOLD a' (hrf_dt h * (1 # 1000))%Q (bw h) (hrf_fix h))
    as [c1 s1] eqn:E1.
  destruct (resample_to_TR h c1 (idxLastT h)) as [[t1 B1]|] eqn:R1; [|discriminate].
  assert (exists tn Bn, h1 = {| hrf_N := hrf_N h; hrf_dt := hrf_dt h; hrf_TR := hrf_TR h;
              normalize_input := normalize_input h;
              hrf_normalize_max := hrf_normalize_max h;
              hrf_fix := hrf_fix h;
              samplingRate_NDt := samplingRate_NDt h;
              t_BOLD := tn; BOLD := Bn; BOLD_chunk := B1;
              idxLastT := idxLastT h + length a'; bw := s1 |} /\
            (tn, Bn) = (if Nat.eqb (length (BOLD h)) 0 then (t1, B1)
                        else if append then (t_BOLD h ++ t1, BOLD h ++ B1)
                        else (t1, B1))) as (tn & Bn & -> & Hn).
  { destruct (if Nat.eqb (length (BOLD h)) 0 then (t1, B1)
              else if append then (t_BOLD h ++ t1, BOLD h ++ B1) else (t1, B1))
      as [tn Bn]. injection H1 as <-. eauto. }
  clear H1.
  cbn [hrf_N normalize_input hrf_normalize_max hrf_dt bw hrf_fix
    idxLastT BOLD t_BOLD samplingRate_NDt] in H2.
  destruct (rows_are (hrf_N h) b) eqn:Rb; [|discriminate]. simpl negb in H2. cbv iota in H2.
  simpl negb. cbv iota.
  set (b' := if normalize_input h then sig_scale (hrf_normalize_max h) b else b) in *.
  destruct (simulateBOLD b' (hrf_dt h * (1 # 1000))%Q s1 (hrf_fix h))
    as [c2 s2] eqn:E2.
  assert ((if normalize_input h then sig_scale (hrf_normalize_max h) (a ++ b)
           else a ++ b) = a' ++ b') as ->.
  { unfold a', b'. destruct (normalize_input h); [apply sig_scale_app|reflexivity]. }
  destruct (Hseq a' b' (hrf_dt h * (1 # 1000))%Q (bw h) (hrf_fix h)) as [Hs Hl].
  rewrite E1 in Hs, Hl. cbn [fst snd] in Hs, Hl. rewrite E2 in Hs. cbn [fst snd] in Hs.
  rewrite Hs.
  match type of H2 with
  | context [resample_to_TR ?hh c2 ?i] =>
      change (resample_to_TR hh c2 i) with (resample_to_TR h c2 i) in H2
  end.
  destruct (resample_to_TR h c2 (idxLastT h + length a')) as [[t2 B2]|] eqn:R2;
    [|discriminate].
  rewrite <- La in Hph. rewrite <- Hl in R2, Hph.
  rewrite (resample_to_TR_app h c1 c2 (idxLastT h) t1 t2 B1 B2) by (assumption || lia).
  pose proof (resample_to_TR_length _ _ _ _ _ R1) as Lt1.
  assert (exists t3 B3,
            (t3, B3) = (if Nat.eqb (length Bn) 0 then (t2, B2)
                        else (tn ++ t2, Bn ++ B2)) /\
            h2 = {| hrf_N := hrf_N h; hrf_dt := hrf_dt h; hrf_TR := hrf_TR h;
              normalize_input := normalize_input h;
              hrf_normalize_max := hrf_normalize_max h;
              hrf_fix := hrf_fix h;
              samplingRate_NDt := samplingRate_NDt h;
              t_BOLD := t3; BOLD := B3; BOLD_chunk := B2;
              idxLastT := idxLastT h + length a' + length b'; bw := s2 |})
    as (t3 & B3 & H3 & ->).
  { destruct (if Nat.eqb (length Bn) 0 then (t2, B2) else (tn ++ t2, Bn ++ B2))
      as [t3 B3]. injection H2 as <-. exists t3, B3. split; reflexivity. }
  clear H2.
  assert ((t3, B3) = (if Nat.eqb (length (BOLD h)) 0 then (t1 ++ t2, B1 ++ B2)
                      else if append then (t_BOLD h ++ t1 ++ t2, BOLD h ++ B1 ++ B2)
                      else (t1 ++ t2, B1 ++ B2))) as Hg.
  { rewrite H3. clear H3.
    assert (Nat.eqb (length B1) 0 = true -> (t2, B2) = (t1 ++ t2, B1 ++ B2)) as Hnil.
    { intros E%Nat.eqb_eq. destruct B1; [|discriminate].
      destruct t1; [reflexivity|discriminate]. }
    destruct (BOLD h) as [|x0 X] eqn:EB; cbn [length Nat.eqb] in *.
    - injection Hn as -> ->. destruct (Nat.eqb (length B1) 0) eqn:E; auto.
    - destruct append.
      + injection Hn as -> ->. cbn [app length Nat.eqb].
        rewrite <- !app_assoc. reflexivity.
      + injection Hn as -> ->. destruct (Nat.eqb (length B1) 0) eqn:E; auto. }
  rewrite <- Hg. unfold with_BOLD_chunk. cbn. rewrite length_app, Nat.add_assoc.
  reflexivity.
Qed.

(** X4: [bw_convolve] composes over chunks.  For an integrator that
    treats a chunk [a ++ b] as [a] followed by [b] from the state [a] left,
    and a non-empty [a] whose end is not a sampling point, calling
    [bw_convolve] on [a] and then, with [append=True], on [b] leaves the
    same [BOLD], [t_BOLD], [idxLastT] and Balloon-Windkessel state as one
    call on [a ++ b]; [BOLD_chunk] of the single call is the concatenation
    of the two chunks' samples. *)
Theorem bw_convolve_in_two_calls `{B : BoldIntegrator} (h h1 h2 : HRF)
    (a b : signal) (append : bool) :
  integrates_in_sequence B ->
  1 <= length a ->
  phase (samplingRate_NDt h) (idxLastT h + length a) <> 0 ->
  bw_convolve h a append = Ok h1 ->
  bw_convolve h1 b true = Ok h2 ->
  exists h',
    bw_convolve h (a ++ b) append = Ok h' /\
    BOLD h' = BOLD h2 /\ t_BOLD h' = t_BOLD h2 /\
    idxLastT h' = idxLastT h2 /\ bw h' = bw h2 /\
    BOLD_chunk h' = BOLD_chunk h1 ++ BOLD_chunk h2.
Proof.
  intros Hseq Hk Hph H1 H2. eexists. split.
  - exact (bw_convolve_app h h1 h2 a b append Hseq Hk Hph H1 H2).
  - repeat split.
Qed.

Lemma logging_bold_integrates_in_sequence : integrates_in_sequence logging_bold.
Proof.
  intros a b dt st fx. cbn. split; [|reflexivity].
  rewrite map_app, app_assoc. reflexivity.
Qed.

Lemma bw_convolve_in_two_calls_witness :
  exists h',
    @bw_convolve logging_bold (HRF_init 1 1000 2 true 1 true)
      ([[10]; [11]] ++ [[12]; [13]; [14]])%Z false = Ok h' /\
    BOLD h' = [[11]; [13]]%Z /\ idxLastT h' = 5.
Proof.
  let v := eval vm_compute in
    (@bw_convolve logging_bold (HRF_init 1 1000 2 true 1 true) [[10]; [11]]%Z false) in
  match v with Ok ?x => pose (h1 := x) end.
  let v := eval vm_compute in
    (@bw_convolve logging_bold h1 [[12]; [13]; [14]]%Z true) in
  match v with Ok ?x => pose (h2 := x) end.
  destruct (bw_convolve_in_two_calls (B := logging_bold)
              (HRF_init 1 1000 2 true 1 true) h1 h2
              [[10]; [11]]%Z [[12]; [13]; [14]]%Z false)
    as (h' & E & HB & _ & Hi & _ & _).
  - exact logging_bold_integrates_in_sequence.
  - simpl. lia.
  - vm_compute. lia.
  - vm_compute. reflexivity.
  - vm_compute. reflexivity.
  - exists h'. split; [exact E|]. split; [rewrite HB; reflexivity|rewrite Hi; reflexivity].
Defined.

(** ** The input fed to the hemodynamic stage *)

Lemma drop_take_tail {A : Type} (idx used : nat) (F : list A) :
  idx <= length F ->
  drop used (drop idx F) = drop (idx + length (take used (drop idx F))) F /\
  idx + length (take used (drop idx F)) <= length F.
Proof.
  intros Hi. rewrite length_take, length_drop, drop_drop.
  destruct (Nat.le_gt_cases used (length F - idx)) as [Hu|Hu].
  - rewrite Nat.min_l by lia. split; [reflexivity|lia].
  - rewrite Nat.min_r by lia. split; [|lia].
    rewrite !drop_ge by lia. reflexivity.
Qed.

(** X5: nothing is lost or duplicated between chunkwise calls.  After
    any sequence of [generate_bold_chunkwise] calls of one run (a first
    call, then continuation calls), whatever the chunk size, [input_rest]
    is exactly the part of the fed input that [hrf.idxLastT] has not yet
    counted: the fed columns from position [idxLastT] on. *)
Theorem leftover_is_the_unintegrated_tail `{B : BoldIntegrator}
    (sized : Q -> Prop) (TR_ : Q) (it : string) (nm : Z) (fx : bool)
    (h0 : HRF) (fed : signal) (w : world) :
  chunkwise_feed B sized TR_ it nm fx h0 fed w ->
  exists h rest,
    hrf (self w) = Some h /\ input_rest (self w) = Some rest /\
    idxLastT h <= length fed /\
    rest = drop (idxLastT h) fed.
Proof.
  induction 1 as [w u w' new _ Hin Hr|h0 fed w0 w u w' new _ IH Hh Hrest _ Hin Hr].
  - apply generate_bold_chunkwise_inv in Hr as (old & new' & -> & Hin' & Hr).
    rewrite Hin in Hin'. injection Hin' as <-. cbv zeta in Hr. simpl app in Hr.
    destruct (longer_than _ _).
    + destruct Hr as (h1 & h' & [= <-] & Hbw & Hh' & Hrest').
      apply bw_convolve_state in Hbw as [_ Hidx]. simpl in Hidx.
      exists h', (drop (used_last_idxs (length new)
                    (TR_ * 1000 / p_dt (params (wc (self w))))) new).
      destruct (drop_take_tail 0 (used_last_idxs (length new)
                    (TR_ * 1000 / p_dt (params (wc (self w))))) new ltac:(lia))
        as [E1 E2].
      rewrite drop_0 in E1, E2. simpl in E1, E2.
      rewrite Hidx. repeat split; assumption.
    + destruct Hr as [Hh' Hrest']. eexists _, new.
      split; [exact Hh'|]. split; [exact Hrest'|]. simpl. split; [lia|reflexivity].
  - destruct IH as (h & rest & Hh0 & Hr0 & Hle & ->).
    apply generate_bold_chunkwise_inv in Hr as (old & new' & Hold & Hin' & Hr).
    rewrite Hin in Hin'. injection Hin' as <-. cbv zeta in Hr.
    rewrite Hrest, Hr0 in Hold. injection Hold as <-.
    rewrite Hh, Hh0 in Hr.
    assert (drop (idxLastT h) fed ++ new = drop (idxLastT h) (fed ++ new)) as E.
    { rewrite drop_app_le by exact Hle. reflexivity. }
    rewrite E in Hr.
    destruct (longer_than _ _).
    + destruct Hr as (h1 & h' & [= <-] & Hbw & Hh' & Hrest').
      apply bw_convolve_state in Hbw as [_ Hidx].
      exists h', (drop (used_last_idxs (length (drop (idxLastT h) (fed ++ new)))
                    (TR_ * 1000 / p_dt (params (wc (self w)))))
                  (drop (idxLastT h) (fed ++ new))).
      destruct (drop_take_tail (idxLastT h)
                  (used_last_idxs (length (drop (idxLastT h) (fed ++ new)))
                    (TR_ * 1000 / p_dt (params (wc (self w))))) (fed ++ new))
        as [E1 E2]; [rewrite length_app; lia|].
      rewrite Hidx. repeat split; assumption.
    + destruct Hr as [Hh' Hrest']. exists h, (drop (idxLastT h) (fed ++ new)).
      repeat split; try assumption. rewrite length_app. lia.
Qed.

Lemma phase_multiple (c m : nat) : 2 <= c -> phase c (m * c) = 1.
Proof.
  intros Hc. unfold phase.
  replace (1 - Z.of_nat (m * c))%Z with (1 + (- Z.of_nat m) * Z.of_nat c)%Z by lia.
  rewrite Z_mod_plus_full, Z.mod_small by lia. reflexivity.
Qed.

Lemma take_add_drop {A : Type} (i k : nat) (l : list A) :
  take (i + k) l = take i l ++ take k (drop i l).
Proof.
  rewrite take_drop_commute.
  rewrite <- (take_drop i (take (i + k) l)) at 1.
  rewrite take_take, Nat.min_l by lia. reflexivity.
Qed.

Lemma bw_convolve_with_BOLD_chunk `{B : BoldIntegrator} ch h a app :
  bw_convolve (with_BOLD_chunk ch h) a app = bw_convolve h a app.
Proof. reflexivity. Qed.

Lemma bw_convolve_first_append `{B : BoldIntegrator} h a :
  BOLD h = [] -> bw_convolve h a true = bw_convolve h a false.
Proof. intros E. unfold bw_convolve. rewrite E. reflexivity. Qed.

Lemma with_BOLD_chunk_same (h : HRF) : with_BOLD_chunk (BOLD_chunk h) h = h.
Proof. destruct h. reflexivity. Qed.

Lemma chunkwise_feed_batch_inv `{B : BoldIntegrator} (c : nat) (TR_ : Q)
    (it : string) (nm : Z) (fx : bool) (h0 : HRF) (fed : signal) (w : world) :
  integrates_in_sequence B ->
  2 <= c ->
  chunkwise_feed B (fun cs => cs == inject_Z (Z.of_nat c))%Q TR_ it nm fx h0 fed w ->
  batch_inv c h0 fed w.
Proof.
  intros Hseq Hc.
  induction 1 as [w u w' new Hcs Hin Hr
                 |h0 fed w0 w u w' new _ IH Hh Hrest Hcs Hin Hr].
  - apply generate_bold_chunkwise_inv in Hr as (old & new' & -> & Hin' & Hr).
    rewrite Hin in Hin'. injection Hin' as <-. cbv zeta in Hr. simpl app in Hr.
    rewrite (longer_than_integral _ c _ Hcs) in Hr.
    rewrite (used_last_idxs_integral _ c _ ltac:(lia) Hcs) in Hr.
    split; [apply HRF_init_rate; exact Hcs|]. split; [reflexivity|].
    split; [reflexivity|].
    pose proof (Nat.Div0.mul_div_le (length new) c) as Hle.
    destruct (Nat.ltb_spec c (length new)) as [Hlt|Hge].
    + destruct Hr as (h1 & h' & [= <-] & Hbw & Hh' & Hrest').
      pose proof Hbw as Hbw'.
      apply bw_convolve_state in Hbw' as [_ Hidx]. simpl in Hidx.
      rewrite length_take, Nat.min_l in Hidx by exact Hle.
      exists h', (drop (c * (length new / c)) new), (length new / c).
      assert (1 <= length new / c) as Hq.
      { apply Nat.div_le_lower_bound; lia. }
      rewrite Hidx. repeat split; try assumption; try lia.
      right. split; [exact Hq|]. exists (BOLD_chunk h').
      rewrite with_BOLD_chunk_same. exact Hbw.
    + destruct Hr as [Hh' Hrest']. eexists _, new, 0.
      split; [exact Hh'|]. split; [exact Hrest'|]. simpl.
      repeat split; try lia. left. split; reflexivity.
  - destruct IH as (Hs0 & Hi0 & HB0 & h & rest & m & Hh0 & Hr0 & Hm & Hle & -> & Hb).
    split; [exact Hs0|]. split; [exact Hi0|]. split; [exact HB0|].
    apply generate_bold_chunkwise_inv in Hr as (old & new' & Hold & Hin' & Hr).
    rewrite Hin in Hin'. injection Hin' as <-. cbv zeta in Hr.
    rewrite Hrest, Hr0 in Hold. injection Hold as <-.
    rewrite Hh, Hh0 in Hr.
    assert (drop (idxLastT h) fed ++ new = drop (idxLastT h) (fed ++ new)) as E.
    { rewrite drop_app_le by exact Hle. reflexivity. }
    rewrite E in Hr. set (F := fed ++ new) in *.
    assert (length fed <= length F) as HF by (unfold F; rewrite length_app; lia).
    assert (take (idxLastT h) fed = take (idxLastT h) F) as ET.
    { unfold F. rewrite take_app_le by exact Hle. reflexivity. }
    rewrite (longer_than_integral _ c _ Hcs) in Hr.
    rewrite (used_last_idxs_integral _ c _ ltac:(lia) Hcs) in Hr.
    set (X := drop (idxLastT h) F) in *.
    pose proof (Nat.Div0.mul_div_le (length X) c) as HleX.
    assert (length X = length F - idxLastT h) as LX by (unfold X; apply length_drop).
    destruct (Nat.ltb_spec c (length X)) as [Hlt|Hge].
    + destruct Hr as (h1 & h' & [= <-] & Hbw & Hh' & Hrest').
      pose proof Hbw as Hbw'.
      apply bw_convolve_state in Hbw' as [_ Hidx].
      rewrite length_take, Nat.min_l in Hidx by exact HleX.
      assert (1 <= length X / c) as Hq by (apply Nat.div_le_lower_bound; lia).
      exists h', (drop (c * (length X / c)) X), (m + length X / c).
      split; [exact Hh'|]. split; [exact Hrest'|].
      split; [lia|]. split; [lia|]. split.
      { unfold X. rewrite drop_drop, Hidx. reflexivity. }
      right. split; [lia|].
      rewrite Hidx, take_add_drop. fold X.
      destruct Hb as [[-> ->]|[Hm1 [ch Hb]]].
      * exists (BOLD_chunk h'). rewrite with_BOLD_chunk_same.
        rewrite Hi0 in *. simpl. unfold X in *. rewrite drop_0 in *.
        rewrite <- bw_convolve_first_append by exact HB0. exact Hbw.
      * eexists.
        apply (bw_convolve_app h0 (with_BOLD_chunk ch h) h').
        -- exact Hseq.
        -- rewrite length_take. lia.
        -- rewrite length_take, Nat.min_l, Hi0, Hs0, Hm by lia. simpl.
           rewrite phase_multiple by exact Hc. lia.
        -- rewrite <- ET. exact Hb.
        -- rewrite bw_convolve_with_BOLD_chunk. exact Hbw.
    + destruct Hr as [Hh' Hrest']. exists h, X, m.
      rewrite Hh', Hrest'. repeat split; try assumption; try lia.
      rewrite <- ET. exact Hb.
Qed.

(** X6: chunkwise BOLD equals batch BOLD.  When [TR * 1000 / dt] is an
    integer [c >= 2] in every call and the integrator treats a
    concatenation as a sequence, then after any sequence of
    [generate_bold_chunkwise] calls the stage either has integrated nothing
    yet and [hrf] is as constructed, or one [bw_convolve] call of the fresh
    [HRF] on the first [idxLastT] fed columns gives the same [BOLD],
    [t_BOLD], Balloon-Windkessel state and [idxLastT]; the fed input is
    that prefix followed by [input_rest]. *)
Theorem chunkwise_bold_equals_batch `{B : BoldIntegrator} (c : nat) (TR_ : Q)
    (it : string) (nm : Z) (fx : bool) (h0 : HRF) (fed : signal) (w : world) :
  integrates_in_sequence B ->
  2 <= c ->
  chunkwise_feed B (fun cs => cs == inject_Z (Z.of_nat c))%Q TR_ it nm fx h0 fed w ->
  exists h rest,
    hrf (self w) = Some h /\ input_rest (self w) = Some rest /\
    fed = take (idxLastT h) fed ++ rest /\
    (idxLastT h = 0 /\ h = h0 \/
     exists hb,
       bw_convolve h0 (take (idxLastT h) fed) false = Ok hb /\
       BOLD hb = BOLD h /\ t_BOLD hb = t_BOLD h /\ bw hb = bw h /\
       idxLastT hb = idxLastT h).
Proof.
  intros Hseq Hc Hfeed.
  destruct (chunkwise_feed_batch_inv c TR_ it nm fx h0 fed w Hseq Hc Hfeed)
    as (_ & _ & _ & h & rest & m & Hh & Hr & Hm & _ & -> & Hb).
  exists h, (drop (idxLastT h) fed). split; [exact Hh|]. split; [exact Hr|].
  split; [symmetry; apply take_drop|].
  destruct Hb as [[-> ->]|[_ [ch Hb]]].
  - left. split; [exact Hm|reflexivity].
  - right. exists (with_BOLD_chunk ch h). split; [exact Hb|]. repeat split.
Qed.

Lemma sample_chunkwise_feed (sized : Q -> Prop) :
  sized (2 * 1000 / 1000)%Q ->
  exists h0 fed w,
    chunkwise_feed logging_bold sized 2 "exc" 2 true h0 fed w /\
    length fed = 6.
Proof.
  intros Hs.
  let v := eval vm_compute in sample_after_short_first_rest in
  match v with Some ?w => pose (w1 := w) end.
  let v := eval vm_compute in
    (@generate_bold_chunkwise logging_bold 2 "exc" 2 true true w1) in
  match v with Ok (_, ?w) => pose (w2 := w) end.
  let v := eval vm_compute in
    (@_generate_single_block counting_mass 1 3 true 2 false w2) in
  match v with Ok (_, ?w) => pose (w3 := w) end.
  let v := eval vm_compute in
    (@generate_bold_chunkwise logging_bold 2 "exc" 2 false true w3) in
  match v with Ok (_, ?w) => pose (w4 := w) end.
  exists (HRF_init 2 1000 2 true 2 true),
    (wc_exc (wc (self w1)) ++ wc_exc (wc (self w3))), w4. split.
  - apply (feed_next logging_bold sized 2 "exc" 2 true _ (wc_exc (wc (self w1))) w2 w3 tt w4
             (wc_exc (wc (self w3)))).
    + apply (feed_first logging_bold sized 2 "exc" 2 true w1 tt w2
               (wc_exc (wc (self w1)))); [exact Hs|vm_compute; reflexivity..].
    + reflexivity.
    + reflexivity.
    + exact Hs.
    + vm_compute. reflexivity.
    + vm_compute. reflexivity.
  - vm_compute. reflexivity.
Defined.

Lemma leftover_is_the_unintegrated_tail_witness :
  exists h0 fed w,
    chunkwise_feed logging_bold (fun _ => True) 2 "exc" 2 true h0 fed w /\
    exists h rest,
      hrf (self w) = Some h /\ input_rest (self w) = Some rest /\
      idxLastT h <= length fed /\
      rest = drop (idxLastT h) fed.
Proof.
  destruct (sample_chunkwise_feed (fun _ => True) I) as (h0 & fed & w & Hf & _).
  exists h0, fed, w. split; [exact Hf|].
  exact (leftover_is_the_unintegrated_tail (B := logging_bold) _ 2 "exc" 2 true
           h0 fed w Hf).
Defined.

Lemma chunkwise_bold_equals_batch_witness :
  exists h0 fed w,
    chunkwise_feed logging_bold (fun cs => cs == inject_Z (Z.of_nat 2))%Q
      2 "exc" 2 true h0 fed w /\
    exists h rest,
      hrf (self w) = Some h /\ input_rest (self w) = Some rest /\
      fed = take (idxLastT h) fed ++ rest /\
      (idxLastT h = 0 /\ h = h0 \/
       exists hb,
         @bw_convolve logging_bold h0 (take (idxLastT h) fed) false = Ok hb /\
         BOLD hb = BOLD h /\ t_BOLD hb = t_BOLD h /\ bw hb = bw h /\
         idxLastT hb = idxLastT h).
Proof.
  destruct (sample_chunkwise_feed (fun cs => cs == inject_Z (Z.of_nat 2))%Q
              ltac:(reflexivity)) as (h0 & fed & w & Hf & _).
  exists h0, fed, w. split; [exact Hf|].
  apply (chunkwise_bold_equals_batch (B := logging_bold) 2 2 "exc" 2 true h0 fed w).
  - exact logging_bold_integrates_in_sequence.
  - lia.
  - exact Hf.
Defined.

(** ** Failures of a chunkwise call *)

(** X7: how [generate_bold_chunkwise] fails before it touches the model
    outputs.  A zero [dt] raises [ZeroDivisionError]; otherwise an
    [input_type] other than 'exc', 'sum' and 'syn_act' raises the
    [AssertionError] of the method; otherwise a continuation call
    ([is_first=False]) on an object without [input_rest] raises
    [AttributeError]. *)
Theorem generate_bold_chunkwise_rejections `{B : BoldIntegrator} (TR_ : Q)
    (it : string) (nm : Z) (first fx : bool) (w : world) :
  let run := generate_bold_chunkwise TR_ it nm first fx w in
  (Qeq_bool (p_dt (params (wc (self w)))) 0 = true ->
   run = Err (ZeroDivisionError "float division by zero")) /\
  (Qeq_bool (p_dt (params (wc (self w)))) 0 = false ->
   in_keys it ["exc"; "sum"; "syn_act"] = false ->
   run = Err (AssertionError "input type could be 'exc', 'sum' or 'syn_act'")) /\
  (Qeq_bool (p_dt (params (wc (self w)))) 0 = false ->
   in_keys it ["exc"; "sum"; "syn_act"] = true ->
   first = false -> input_rest (self w) = None ->
   run = Err (AttributeError "input_rest")).
Proof.
  cbv zeta. unfold generate_bold_chunkwise.
  cbv beta iota delta [bind modify get py_div py_assert ret raise].
  cbn [self wc set_self with_bold_params params input_rest].
  repeat split.
  - intros ->. reflexivity.
  - intros -> ->. reflexivity.
  - intros -> -> -> ->. reflexivity.
Qed.

Lemma generate_bold_chunkwise_rejections_witness :
  exists w,
    sample_world [0%Q] ["A"] (inl 2%Q) = Some w /\
    @generate_bold_chunkwise logging_bold 2 "inh" 2 true true w
      = Err (AssertionError "input type could be 'exc', 'sum' or 'syn_act'") /\
    @generate_bold_chunkwise logging_bold 2 "exc" 2 false true w
      = Err (AttributeError "input_rest").
Proof.
  let v := eval vm_compute in (sample_world [0%Q] ["A"] (inl 2%Q)) in
  match v with Some ?w => exists w end.
  split; [vm_compute; reflexivity|].
  split.
  - apply (generate_bold_chunkwise_rejections (B := logging_bold) 2 "inh" 2 true true);
      vm_compute; reflexivity.
  - apply (generate_bold_chunkwise_rejections (B := logging_bold) 2 "exc" 2 false true);
      vm_compute; reflexivity.
Defined.

(** ** The constructor *)

Lemma in_keys_dict_get {V : Type} (d : list (string * V)) (k : string) :
  in_keys k (dict_keys d) = true <-> is_Some (dict_get d k).
Proof.
  unfold in_keys, dict_keys. induction d as [|[k' v] d IH]; simpl.
  - split; [discriminate|intros [? [=]]].
  - rewrite (String.eqb_sym k k'). destruct (String.eqb k' k); simpl.
    + split; eauto.
    + exact IH.
Qed.

Lemma list_to_map_all_empty {V : Type} (l : list (string * list V)) (k : string) :
  Forall (fun kv => kv.2 = []) l -> k ∈ l.*1 ->
  (list_to_map l : gmap string (list V)) !! k = Some [].
Proof.
  induction 1 as [|[k' v] l Hv _ IH]; simpl.
  - intros H%elem_of_nil. contradiction.
  - simpl in Hv. subst v. intros Hk.
    destruct (decide (k' = k)) as [->|Hne].
    + apply lookup_insert_eq.
    + rewrite lookup_insert_ne by exact Hne. apply IH.
      apply elem_of_cons in Hk as [Hk|Hk]; [congruence|exact Hk].
Qed.

(** X8: what the constructor establishes.  When [WCTaskSim(...)]
    returns, the design has at least one task, onsets, durations and task
    names are equally many, every task name is a key of [Wij_task_dict],
    [time_idxs_dict] maps "Rest" and every key of [Wij_task_dict] to the
    empty list, no activity has been saved ([idx_last_t = 0]), there is no
    [hrf] and no [input_rest], and the model holds no last state. *)
Theorem constructor_establishes_the_design `{NM : NeuralMass}
    (h : gmap loc matrix) (a : init_args) (w : world) :
  WCTaskSim_init h a = Ok w ->
  let s := self w in
  1 <= length (task_name_list s) /\
  length (onset_time_list s) = length (task_name_list s) /\
  length (duration_list s) = length (task_name_list s) /\
  (forall n, n ∈ task_name_list s -> is_Some (dict_get (Wij_task_dict s) n)) /\
  (forall n, n = "Rest" \/ is_Some (dict_get (Wij_task_dict s) n) ->
             time_idxs_dict s !! n = Some []) /\
  activity s = {| exc_series := None; inh_series := None; sa_series := None;
                  sampling_rate := a_act_sampling_rate a;
                  idx_last_t := 0; act_t := None |} /\
  hrf s = None /\ input_rest s = None /\ wc_state (wc s) = ∅.
Proof.
  unfold WCTaskSim_init, WCModel_new.
  destruct (h !! a_Wij_rest a) as [m|]; [|discriminate].
  set (names := match a_task_name_list a with
                | Some l => l | None => dict_keys (a_Wij_task_dict a) end).
  destruct (forallb _ names) eqn:Hn; [|discriminate]. cbn [negb].
  set (onsets := match a_onset_time_list a with
                 | Some l => l
                 | None => map (fun i => inject_Z (Z.of_nat i)) (seq 0 (length names))
                 end).
  destruct (Nat.eqb_spec (length names) (length onsets)) as [Hl|]; [|discriminate].
  cbn [negb].
  destruct (_ && _); [discriminate|].
  assert (forall durs : list Q,
            match a_duration_list a with
            | inl d => Ok (replicate (length onsets) d)
            | inr l =>
                if Nat.eqb (length l) (length onsets) then Ok l
                else Err (AssertionError "Lenght of duration list should be equal to onset_time list")
            end = Ok durs -> length durs = length onsets) as Hd.
  { intros durs. destruct (a_duration_list a) as [d|l].
    - intros [= <-]. apply length_replicate.
    - destruct (Nat.eqb_spec (length l) (length onsets)); [|discriminate].
      intros [= <-]. assumption. }
  destruct (match a_duration_list a with inl _ => _ | inr _ => _ end)
    as [durs|]; [|discriminate].
  specialize (Hd durs eq_refl).
  destruct durs as [|d0 durs]; [discriminate|].
  intros [= <-]. cbn [self task_name_list onset_time_list duration_list
    Wij_task_dict time_idxs_dict activity hrf input_rest wc with_params wc_state].
  simpl length in Hd.
  cbn [length]. split; [lia|]. split; [lia|]. split; [lia|]. split; [|split; [|repeat split]].
  - intros n Hin. apply in_keys_dict_get.
    rewrite forallb_forall in Hn. apply Hn. apply list_elem_of_In. exact Hin.
  - intros n Hn'.
    refine (list_to_map_all_empty
              (("Rest", []) :: map (fun k => (k, [])) (dict_keys (a_Wij_task_dict a)))
              n _ _).
    + constructor; [reflexivity|]. apply Forall_forall. intros kv Hkv.
      apply list_elem_of_fmap in Hkv as (k & -> & _). reflexivity.
    + rewrite fmap_cons. cbn [fst]. apply elem_of_cons.
      destruct Hn' as [->|Hs]; [left; reflexivity|right].
      apply in_keys_dict_get in Hs. unfold in_keys in Hs.
      apply existsb_exists in Hs as (k & Hk & E). apply String.eqb_eq in E. subst k.
      rewrite <- list_fmap_compose.
      replace (fst ∘ (fun k : string => (k, @nil (Q * Q))) <$> dict_keys (a_Wij_task_dict a))
        with (dict_keys (a_Wij_task_dict a)).
      * apply list_elem_of_In. exact Hk.
      * clear. induction (dict_keys (a_Wij_task_dict a)) as [|x l IH];
          [reflexivity|]. rewrite fmap_cons, <- IH. reflexivity.
Qed.


Lemma arange_has_positive_step (n : nat) :
  any_diff_positive (map (fun i => inject_Z (Z.of_nat i)) (seq 0 (S (S n)))) = true.
Proof. reflexivity. Qed.

Lemma keys_are_in_keys {V : Type} (d : list (string * V)) :
  forallb (fun n => in_keys n (dict_keys d)) (dict_keys d) = true.
Proof.
  apply forallb_forall. intros k Hk. unfold in_keys.
  apply existsb_exists. exists k. split; [exact Hk|apply String.eqb_refl].
Qed.

(** X9: the constructor's defaults.  With a non-empty [Wij_task_dict], no
    [task_name_list], no [onset_time_list] and a single number [d] as
    [duration_list], the constructor succeeds: the tasks are the keys of
    the dictionary in its order, the onsets are [0, 1, ..., n - 1], every
    duration is [d], and the model's duration is [d * 1000] ms. *)
Theorem constructor_defaults `{NM : NeuralMass}
    (h : gmap loc matrix) (a : init_args) (m : matrix) (d : Q) :
  h !! a_Wij_rest a = Some m ->
  a_Wij_task_dict a <> [] ->
  a_task_name_list a = None ->
  a_onset_time_list a = None ->
  a_duration_list a = inl d ->
  exists w,
    WCTaskSim_init h a = Ok w /\
    let n := length (a_Wij_task_dict a) in
    task_name_list (self w) = dict_keys (a_Wij_task_dict a) /\
    onset_time_list (self w) = map (fun i => inject_Z (Z.of_nat i)) (seq 0 n) /\
    duration_list (self w) = replicate n d /\
    p_duration (params (wc (self w))) = (d * 1000)%Q.
Proof.
  intros Hm Hne Hnames Honsets Hdur.
  unfold WCTaskSim_init, WCModel_new. rewrite Hm, Hnames, Honsets, Hdur.
  rewrite keys_are_in_keys. cbn [negb].
  rewrite length_map, length_seq, Nat.eqb_refl. cbn [negb].
  unfold dict_keys at 1 2 3 4. rewrite !length_map.
  destruct (a_Wij_task_dict a) as [|kv0 [|kv1 dict]] eqn:Ed; [contradiction| |].
  - cbn. eexists. split; [reflexivity|]. cbn. repeat split.
  - cbn [length]. rewrite arange_has_positive_step.
    replace (Nat.ltb 1 (S (S (length dict)))) with true by reflexivity.
    cbn [andb negb replicate]. eexists. split; [reflexivity|]. cbn.
    rewrite !length_map. repeat split.
Qed.

Lemma constructor_defaults_witness :
  exists w,
    @WCTaskSim_init counting_mass sample_heap
      {| a_Wij_task_dict := [("A", 1); ("B", 1)]; a_Wij_rest := 0; a_D := 2;
         a_onset_time_list := None; a_task_name_list := None;
         a_duration_list := inl 3%Q;
         a_rest_before := true; a_first_duration := 6; a_last_duration := 8;
         a_append_outputs := false; a_bold := false; a_chunkwise := false;
         a_act_sampling_rate := 20;
         a_c_excexc := 16; a_c_excinh := 15; a_c_inhexc := 12; a_c_inhinh := 3;
         a_scalars := ∅ |} = Ok w /\
    task_name_list (self w) = ["A"; "B"] /\
    onset_time_list (self w) = [inject_Z 0; inject_Z 1] /\
    duration_list (self w) = [3%Q; 3%Q].
Proof.
  destruct (constructor_defaults (NM := counting_mass) sample_heap
              {| a_Wij_task_dict := [("A", 1); ("B", 1)]; a_Wij_rest := 0; a_D := 2;
                 a_onset_time_list := None; a_task_name_list := None;
                 a_duration_list := inl 3%Q;
                 a_rest_before := true; a_first_duration := 6; a_last_duration := 8;
                 a_append_outputs := false; a_bold := false; a_chunkwise := false;
                 a_act_sampling_rate := 20;
                 a_c_excexc := 16; a_c_excinh := 15; a_c_inhexc := 12; a_c_inhinh := 3;
                 a_scalars := ∅ |} [[5; 1]; [1; 5]]%Z 3%Q)
    as (w & Hw & Hn & Ho & Hd & _).
  - vm_compute. reflexivity.
  - discriminate.
  - reflexivity.
  - reflexivity.
  - reflexivity.
  - exists w. split; [exact Hw|]. split; [exact Hn|]. split; [exact Ho|exact Hd].
Defined.

Lemma constructor_establishes_the_design_witness :
  exists w,
    @WCTaskSim_init counting_mass sample_heap (sample_args [0%Q] ["A"] (inl 2%Q)) = Ok w /\
    length (onset_time_list (self w)) = length (task_name_list (self w)) /\
    time_idxs_dict (self w) !! "Rest" = Some [] /\
    time_idxs_dict (self w) !! "A" = Some [].
Proof.
  let v := eval vm_compute in
    (@WCTaskSim_init counting_mass sample_heap (sample_args [0%Q] ["A"] (inl 2%Q))) in
  match v with Ok ?w => exists w; assert (@WCTaskSim_init counting_mass sample_heap
     (sample_args [0%Q] ["A"] (inl 2%Q)) = Ok w) as Hw by (vm_compute; reflexivity) end.
  split; [exact Hw|].
  destruct (constructor_establishes_the_design _ _ _ Hw) as (_ & Hl & _ & _ & Ht & _).
  split; [exact Hl|]. split.
  - apply Ht. left. reflexivity.
  - apply Ht. right. vm_compute. eauto.
Defined.

(** X10: what the constructor rejects.  A task name that is not a key of
    [Wij_task_dict] raises the [AssertionError] about names; with all names
    known, an [onset_time_list] of another length than the task names
    raises the [AssertionError] about the number of tasks; an empty design
    (no task names, no onsets, no duration list entries) passes every
    assertion and then raises [IndexError] in [init_wc_model], at
    [duration_list[0]]. *)
Theorem constructor_rejections `{NM : NeuralMass}
    (h : gmap loc matrix) (a : init_args) (m : matrix) :
  h !! a_Wij_rest a = Some m ->
  (forall n, n ∈ resolved_names a -> dict_get (a_Wij_task_dict a) n = None ->
     WCTaskSim_init h a = Err (AssertionError "Name in task names not from the dict")) /\
  (forall onsets,
     (forall n, n ∈ resolved_names a -> is_Some (dict_get (a_Wij_task_dict a) n)) ->
     a_onset_time_list a = Some onsets ->
     length onsets <> length (resolved_names a) ->
     WCTaskSim_init h a
     = Err (AssertionError "Number of tasks should be equal to number of onset times")) /\
  (resolved_names a = [] ->
   a_onset_time_list a = None \/ a_onset_time_list a = Some [] ->
   (forall l, a_duration_list a = inr l -> l = []) ->
   WCTaskSim_init h a = Err (IndexError "list index out of range")).
Proof.
  intros Hm. unfold WCTaskSim_init, WCModel_new, resolved_names. rewrite Hm.
  set (names := match a_task_name_list a with
                | Some l => l | None => dict_keys (a_Wij_task_dict a) end).
  split; [|split].
  - intros n Hin Hnone.
    destruct (forallb _ names) eqn:Hn; [|reflexivity].
    rewrite forallb_forall in Hn.
    apply list_elem_of_In, Hn, in_keys_dict_get in Hin as [v Hv]. congruence.
  - intros onsets Hall -> Hlen.
    assert (forallb (fun n => in_keys n (dict_keys (a_Wij_task_dict a))) names = true)
      as ->.
    { apply forallb_forall. intros n Hin%list_elem_of_In.
      apply in_keys_dict_get, Hall, Hin. }
    cbn [negb].
    destruct (Nat.eqb_spec (length names) (length onsets)); [lia|reflexivity].
  - intros -> Ho Hd. cbn.
    destruct Ho as [-> | ->]; cbn;
      (destruct (a_duration_list a) as [d|l]; [reflexivity|]);
      rewrite (Hd l eq_refl); reflexivity.
Qed.

Lemma constructor_rejections_witness :
  @WCTaskSim_init counting_mass sample_heap (sample_args [0%Q] ["B"] (inl 2%Q))
    = Err (AssertionError "Name in task names not from the dict") /\
  @WCTaskSim_init counting_mass sample_heap (sample_args [0%Q; 5%Q] ["A"] (inl 2%Q))
    = Err (AssertionError "Number of tasks should be equal to number of onset times") /\
  @WCTaskSim_init counting_mass sample_heap (sample_args [] [] (inl 2%Q))
    = Err (IndexError "list index out of range").
Proof.
  split; [|split].
  - apply (constructor_rejections (NM := counting_mass) sample_heap
             (sample_args [0%Q] ["B"] (inl 2%Q)) [[5; 1]; [1; 5]]%Z eq_refl) with "B".
    + vm_compute. apply list_elem_of_here.
    + reflexivity.
  - apply (constructor_rejections (NM := counting_mass) sample_heap
             (sample_args [0%Q; 5%Q] ["A"] (inl 2%Q)) [[5; 1]; [1; 5]]%Z eq_refl)
      with [0%Q; 5%Q].
    + intros n Hn. vm_compute in Hn. apply list_elem_of_singleton in Hn as ->.
      vm_compute. eauto.
    + reflexivity.
    + vm_compute. lia.
  - apply (constructor_rejections (NM := counting_mass) sample_heap
             (sample_args [] [] (inl 2%Q)) [[5; 1]; [1; 5]]%Z eq_refl).
    + reflexivity.
    + right. reflexivity.
    + intros l [=].
Defined.

(** ** The saved activity *)

Lemma lift_ok {A : Type} (r : result A) w a w' :
  lift r w = Ok (a, w') -> r = Ok a /\ w' = w.
Proof. unfold lift. destruct r; [|discriminate]. intros [= <- <-]. split; reflexivity. Qed.

Lemma save_activity_aligned r sa ser w u w' :
  save_activity r sa ser w = Ok (u, w') ->
  length (wc_inh (wc (self w))) = length (wc_exc (wc (self w))) ->
  not_yet_saved (activity (self w)) \/ aligned (activity (self w)) ->
  aligned (activity (self w')) /\
  idx_last_t (activity (self w'))
  = idx_last_t (activity (self w)) + length (wc_exc (wc (self w))) /\
  sampling_rate (activity (self w')) = r.
Proof.
  unfold save_activity. intros Hr Hlen Hpre.
  apply bind_ok in Hr as (w0 & w1 & Hget & Hr). injection Hget as <- <-.
  cbv zeta in Hr.
  apply bind_ok in Hr as (ratio & w1 & Hdiv & Hr).
  apply (keeps_py_div (fun w => w)) in Hdiv. subst w1.
  apply bind_ok in Hr as (ne & w1 & H1 & Hr). apply lift_ok in H1 as [H1 ->].
  apply bind_ok in Hr as (ni & w1 & H2 & Hr). apply lift_ok in H2 as [H2 ->].
  apply bind_ok in Hr as (ns & w1 & H3 & Hr).
  assert (w1 = w) as ->.
  { destruct sa; [apply lift_ok in H3 as [_ ->]|injection H3 as _ <-]; reflexivity. }
  clear H3.
  apply bind_ok in Hr as ([[es is_] ss] & w1 & Hs & Hr).
  apply bind_ok in Hr as (sel & w2 & H4 & Hr). apply lift_ok in H4 as [H4 ->].
  cbv zeta in Hr. injection Hr as <- <-.
  apply phase_slice_ok in H1 as [Hc ->]. apply phase_slice_ok in H2 as [_ ->].
  apply phase_slice_ok in H4 as [_ ->].
  cbn [self set_self activity with_activity exc_series inh_series act_t idx_last_t
       sampling_rate].
  split; [|split; reflexivity].
  set (s := Z.to_nat (py_round ratio)) in *.
  set (st := slice_start s (idx_last_t (activity (self w)))) in *.
  assert (length (strided s st (wc_inh (wc (self w))))
          = length (strided s st (wc_exc (wc (self w))))) as Ei.
  { rewrite !strided_length, Hlen by exact Hc. reflexivity. }
  assert (length (map (stamp (p_dt (params (wc (self w)))))
                    (strided s st (t_new_idx (idx_last_t (activity (self w)))
                                     (length (wc_exc (wc (self w)))))))
          = length (strided s st (wc_exc (wc (self w))))) as Et.
  { rewrite length_map, !strided_length by exact Hc.
    unfold t_new_idx. rewrite length_seq. reflexivity. }
  destruct Hpre as [[He Ht]|(e & i & t & He & Hi & Ht & Li & Lt)].
  - rewrite He in Hs. injection Hs as <- <- _ <-. rewrite Ht.
    eexists _, _, _. repeat split; assumption.
  - rewrite He, Hi in Hs.
    apply bind_ok in Hs as (i' & w2 & Hh & Hs). injection Hh as <- <-.
    apply bind_ok in Hs as (ss' & w2 & _ & Hs). injection Hs as <- <- _ <-.
    rewrite Ht. eexists _, _, _. split; [reflexivity|]. split; [reflexivity|].
    split; [reflexivity|]. rewrite !length_app. lia.
Qed.

Lemma preserves_bind {A B : Type} (I : world -> Prop) (m : M A) (k : A -> M B) :
  preserves I m -> (forall a, preserves I (k a)) -> preserves I (bind m k).
Proof.
  intros Hm Hk w b w' HI Hr. apply bind_ok in Hr as (a & w1 & H1 & H2).
  eapply Hk; [|exact H2]. eapply Hm; eassumption.
Qed.

Lemma preserves_when (I : world -> Prop) (b : bool) (m : M unit) :
  preserves I m -> preserves I (when b m).
Proof. intros Hm. destruct b; [exact Hm|]. intros w a w' HI [= _ <-]. exact HI. Qed.

Lemma preserves_for_each {A : Type} (I : world -> Prop) (l : list A)
    (body : A -> M unit) :
  (forall x, preserves I (body x)) -> preserves I (for_each l body).
Proof.
  intros Hb. induction l as [|x l IH]; simpl.
  - intros w a w' HI [= _ <-]. exact HI.
  - apply preserves_bind; [apply Hb|intros _; exact IH].
Qed.

Lemma preserves_keeps {A X : Type} (P : world -> X) (Q : X -> Prop) (m : M A) :
  keeps P m -> preserves (fun w => Q (P w)) m.
Proof. intros Hk w a w' HI Hr. rewrite (Hk _ _ _ Hr). exact HI. Qed.

Section ActivityFrame.
Context `{NM : NeuralMass} `{B : BoldIntegrator}.

Lemma activity_install_Cmat c : keeps activity_of (install_Cmat c).
Proof. unfold install_Cmat. frame. Qed.

Lemma activity_WCModel_run b c : keeps activity_of (WCModel_run b c).
Proof. unfold WCModel_run. frame. Qed.

Lemma activity_record_interval l s e : keeps activity_of (record_interval l s e).
Proof. unfold record_interval. frame. Qed.

Lemma activity_generate_bold_chunkwise TR_ it nm first fx :
  keeps activity_of (generate_bold_chunkwise TR_ it nm first fx).
Proof. unfold generate_bold_chunkwise. frame. Qed.

Lemma activity_bold_after_block g first : keeps activity_of (bold_after_block g first).
Proof. unfold bold_after_block. frame. apply activity_generate_bold_chunkwise. Qed.

Lemma activity_configure_series g : keeps activity_of (configure_series g).
Proof. unfold configure_series. frame. Qed.

Lemma activity_seed_bold g cs : keeps activity_of (seed_bold g cs).
Proof. unfold seed_bold. frame. apply activity_generate_bold_chunkwise. Qed.

Lemma WCModel_run_lengths b c w u w' :
  equal_length_outputs NM ->
  WCModel_run b c w = Ok (u, w') ->
  length (wc_inh (wc (self w'))) = length (wc_exc (wc (self w'))).
Proof.
  intros Heq. unfold WCModel_run. intros Hr.
  apply bind_ok in Hr as (w0 & w1 & Hget & Hr). injection Hget as <- <-.
  cbv zeta in Hr.
  apply bind_ok in Hr as (C & w1 & Hd & Hr).
  apply (keeps_deref (fun w => w)) in Hd. subst w1.
  injection Hr as <- <-. simpl. apply Heq.
Qed.

Lemma generate_single_block_aligned c d r sa w u w' :
  equal_length_outputs NM ->
  not_yet_saved (activity (self w)) \/ aligned (activity (self w)) ->
  _generate_single_block c d true r sa w = Ok (u, w') ->
  saved_at r w' /\
  idx_last_t (activity (self w'))
  = idx_last_t (activity (self w)) + length (wc_exc (wc (self w'))).
Proof.
  intros Heq Hpre. unfold _generate_single_block. intros Hr.
  apply bind_ok in Hr as (w0 & w1 & Hget & Hr). injection Hget as <- <-.
  apply bind_ok in Hr as (? & w1 & H1 & Hr).
  assert (activity_of w1 = activity_of w) as E1.
  { revert H1. apply (keeps_when activity_of). frame. }
  apply bind_ok in Hr as (? & w2 & H2 & Hr).
  apply activity_install_Cmat in H2.
  apply bind_ok in Hr as (? & w3 & H3 & Hr). injection H3 as _ <-.
  apply bind_ok in Hr as (? & w4 & H4 & Hr).
  pose proof (WCModel_run_lengths _ _ _ _ _ Heq H4) as Hlen.
  apply activity_WCModel_run in H4.
  apply bind_ok in Hr as (ser & w5 & H5 & Hr).
  assert (w5 = w4) as ->.
  { destruct sa; [|injection H5 as _ <-; reflexivity].
    apply (keeps_generate_neuronal_oscill (fun w => w)) in H5. exact H5. }
  cbn [when] in Hr.
  assert (activity (self w4) = activity (self w)) as Ea.
  { change (activity_of w4 = activity_of w). rewrite H4.
    change (activity_of w2 = activity_of w). rewrite H2. exact E1. }
  pose proof (wc_of_save_activity _ _ _ _ _ _ Hr) as Ewc. unfold wc_of in Ewc.
  apply save_activity_aligned in Hr as (Hal & Hidx & Hrate);
    [|exact Hlen|rewrite Ea; exact Hpre].
  rewrite Ewc, Hidx, Ea. split; [split; assumption|reflexivity].
Qed.

Lemma generate_single_block_keeps_saved c d r sa :
  equal_length_outputs NM ->
  preserves (saved_at r) (_generate_single_block c d true r sa).
Proof.
  intros Heq w u w' [Hal _] Hr.
  apply (generate_single_block_aligned c d r sa w u w' Heq); [right; exact Hal|exact Hr].
Qed.

Lemma saved_at_keeps {A : Type} r (m : M A) :
  keeps activity_of m -> preserves (saved_at r) m.
Proof.
  intros Hk. apply (preserves_keeps activity_of
    (fun a => aligned a /\ sampling_rate a = r)). exact Hk.
Qed.

Lemma task_iteration_keeps_saved g sa i :
  equal_length_outputs NM -> g_activity g = true ->
  preserves (saved_at (g_a_s_rate g)) (task_iteration g sa i).
Proof.
  intros Heq Hact. unfold task_iteration, _generate_last_rest. rewrite Hact.
  repeat first
    [ apply generate_single_block_keeps_saved; exact Heq
    | apply saved_at_keeps;
      first [apply activity_bold_after_block | apply activity_record_interval
            | solve [frame]]
    | match goal with
      | |- preserves _ (if ?b then _ else _) => destruct b
      | |- preserves _ (match ?x with _ => _ end) => destruct x
      | |- preserves _ (let _ := _ in _) => cbv zeta
      | |- preserves _ (when _ _) => apply preserves_when
      | |- preserves _ (bind _ _) => apply preserves_bind; [|intros ?]
      end ].
Qed.

(** X11: the saved activity stays aligned.  For an integrator whose
    excitatory and inhibitory outputs are equally long, a run of
    [generate_full_series] with [activity=True], started before any
    activity was saved or on aligned series, returns with
    [activity['exc_series']], [activity['inh_series']] and [activity['t']]
    all set and equally long, and [activity['sampling_rate']] equal to
    [a_s_rate]. *)
Theorem full_series_keeps_activity_aligned (g : series_args) (w : world)
    (u : unit) (w' : world) :
  equal_length_outputs NM ->
  g_activity g = true ->
  not_yet_saved (activity (self w)) \/ aligned (activity (self w)) ->
  generate_full_series g w = Ok (u, w') ->
  aligned (activity (self w')) /\
  sampling_rate (activity (self w')) = g_a_s_rate g.
Proof.
  intros Heq Hact Hpre. unfold generate_full_series, _generate_first_rest.
  rewrite Hact. intros Hr.
  apply bind_ok in Hr as (cs & w1 & H1 & Hr).
  apply activity_configure_series in H1. unfold activity_of in H1.
  apply bind_ok in Hr as (? & w2 & H2 & Hr).
  assert (saved_at (g_a_s_rate g) w2) as Hs.
  { apply bind_ok in H2 as (w0 & ? & Hget & H2). injection Hget as <- <-.
    apply bind_ok in H2 as (on0 & w3 & Hi & H2).
    apply (keeps_index (fun w => w)) in Hi. subst w3.
    destruct (if rest_before (self w1) then _ else _) as [st du].
    apply bind_ok in H2 as (? & w3 & Hb & H2).
    apply generate_single_block_aligned in Hb as [Hb _];
      [|exact Heq|rewrite H1; exact Hpre].
    revert H2. apply saved_at_keeps; [apply activity_record_interval|exact Hb]. }
  match type of Hr with
  | ?m _ = _ => assert (preserves (saved_at (g_a_s_rate g)) m) as Hp
  end; [|exact (Hp _ _ _ Hs Hr)].
  apply preserves_bind; [|intros ?; apply preserves_bind; [|intros ?]].
  - apply saved_at_keeps, activity_seed_bold.
  - apply saved_at_keeps. frame.
  - apply preserves_for_each. intros i.
    apply task_iteration_keeps_saved; assumption.
Qed.
End ActivityFrame.

Lemma counting_mass_equal_length_outputs : equal_length_outputs counting_mass.
Proof. intros C p b c. cbn. rewrite !length_map. reflexivity. Qed.

Lemma full_series_keeps_activity_aligned_witness :
  exists w w',
    sample_world [2%Q] ["A"] (inl 3%Q) = Some w /\
    @generate_full_series counting_mass logging_bold
      (sample_series true "syn_act") w = Ok (tt, w') /\
    aligned (activity (self w')) /\
    sampling_rate (activity (self w')) = 2%Q.
Proof.
  let v := eval vm_compute in (sample_world [2%Q] ["A"] (inl 3%Q)) in
  match v with Some ?w => pose (w0 := w) end.
  let v := eval vm_compute in
    (@generate_full_series counting_mass logging_bold
       (sample_series true "syn_act") w0) in
  match v with Ok (_, ?w) => pose (w1 := w) end.
  exists w0, w1. split; [vm_compute; reflexivity|].
  assert (@generate_full_series counting_mass logging_bold
            (sample_series true "syn_act") w0 = Ok (tt, w1)) as Hr
    by (vm_compute; reflexivity).
  split; [exact Hr|].
  apply (full_series_keeps_activity_aligned (NM := counting_mass) (B := logging_bold)
           (sample_series true "syn_act") w0 tt w1).
  - exact counting_mass_equal_length_outputs.
  - reflexivity.
  - left. split; reflexivity.
  - exact Hr.
Defined.

(** ** The time-index map of any design *)

Lemma record_interval_planned l s e w u w' :
  record_interval l s e w = Ok (u, w') ->
  time_idxs_of w' = record_planned (time_idxs_of w) (l, (s, e)).
Proof.
  intros Hr. apply record_interval_ok in Hr as (old & Hold & ->).
  unfold record_planned. cbn [fst snd]. rewrite Hold. reflexivity.
Qed.

Lemma index_ok {A : Type} (l : list A) i w a w' :
  index l i w = Ok (a, w') -> l !! i = Some a /\ w' = w.
Proof.
  unfold index. destruct (l !! i); [|discriminate].
  intros [= <- <-]. split; reflexivity.
Qed.

Lemma index_last_ok {A : Type} (l : list A) w a w' :
  index_last l w = Ok (a, w') -> last l = Some a /\ w' = w.
Proof.
  unfold index_last. destruct (last l); [|discriminate].
  intros [= <- <-]. split; reflexivity.
Qed.

Lemma design_lists w1 w :
  design_of w1 = design_of w ->
  task_name_list (self w1) = task_name_list (self w) /\
  onset_time_list (self w1) = onset_time_list (self w) /\
  duration_list (self w1) = duration_list (self w) /\
  rest_before (self w1) = rest_before (self w) /\
  first_duration (self w1) = first_duration (self w) /\
  last_duration (self w1) = last_duration (self w).
Proof. unfold design_of, design. intros [= _ _ -> -> -> -> -> ->]. repeat split. Qed.


Section TimeMap.
Context `{NM : NeuralMass} `{B : BoldIntegrator}.

Lemma task_iteration_time_map g sa i w u w' :
  task_iteration g sa i w = Ok (u, w') ->
  time_idxs_of w' = foldl record_planned (time_idxs_of w) (task_intervals (self w) i).
Proof.
  unfold task_iteration. intros E.
  next_step E. injection E0 as <- <-. cbv zeta in E.
  next_step E. apply index_ok in E0 as [Hn ->].
  next_step E.
  assert (w0 = w) as ->.
  { destruct (dict_get _ _); [injection E0 as _ <-; reflexivity|discriminate]. }
  clear E0.
  next_step E. apply index_ok in E0 as [Ho ->].
  next_step E. apply index_ok in E0 as [Hd ->].
  unfold task_intervals. rewrite Hn, Ho, Hd.
  next_step E. pose proof (tidx_generate_single_block _ _ _ _ _ _ _ _ E0) as T1.
  apply design_generate_single_block in E0. rename E0 into D1.
  next_step E. pose proof (tidx_bold_after_block _ _ _ _ _ E0) as T2.
  apply design_bold_after_block in E0. rewrite D1 in E0. clear D1. rename E0 into D2.
  rewrite T1 in T2. clear T1.
  next_step E. pose proof (record_interval_planned _ _ _ _ _ _ E0) as T3.
  apply design_record_interval in E0. rewrite D2 in E0. clear D2. rename E0 into D3.
  rewrite T2 in T3. clear T2.
  next_step E. injection E as _ <-.
  change (time_idxs_of (set_self (with_wc (clear_model (g_clear_raw g))) w3))
    with (time_idxs_of w3).
  cbn [foldl]. rewrite <- T3. clear T3.
  destruct (Nat.ltb i (length (onset_time_list (self w)) - 1)).
  - next_step E0. apply index_ok in E1 as [Hx ->]. rewrite Hx.
    destruct (Qgtb _ 0); cbn [when] in E0.
    + next_step E0. apply tidx_generate_single_block in E1.
      next_step E0. apply tidx_bold_after_block in E2. rewrite E1 in E2.
      apply record_interval_planned in E0. rewrite E2 in E0. exact E0.
    + injection E0 as _ <-. reflexivity.
  - next_step E0. unfold _generate_last_rest in E1.
    next_step E1. injection E2 as <- <-.
    destruct (design_lists _ _ D3) as (_ & Eo & Ed & _ & _ & El).
    rewrite Eo, Ed, El in E1.
    next_step E1. apply index_last_ok in E2 as [Ho' ->].
    next_step E1. apply index_last_ok in E2 as [Hd' ->].
    rewrite Ho', Hd'. cbv zeta in E1.
    next_step E1. apply tidx_generate_single_block in E2.
    apply record_interval_planned in E1. rewrite E2 in E1.
    apply tidx_bold_after_block in E0. rewrite E1 in E0. exact E0.
Qed.


End TimeMap.


(** ** Runs without [bold_chunkwise] *)

Section HemoFrame.
Context `{NM : NeuralMass} `{B : BoldIntegrator}.

(** X14: without [bold_chunkwise] a run leaves the hemodynamic stage
    alone.  When [generate_full_series(bold_chunkwise=False)] returns,
    [hrf], [BOLD], [t_BOLD] and [input_rest] are what they were, nothing
    was printed, and the flags [bold] and [chunkwise] are unchanged. *)
Theorem no_hemodynamics_without_bold_chunkwise (g : series_args) (w : world)
    (u : unit) (w' : world) :
  g_bold_chunkwise g = false ->
  generate_full_series g w = Ok (u, w') ->
  hrf (self w') = hrf (self w) /\
  sim_BOLD (self w') = sim_BOLD (self w) /\
  sim_t_BOLD (self w') = sim_t_BOLD (self w) /\
  input_rest (self w') = input_rest (self w) /\
  stdout w' = stdout w /\
  bold (self w') = bold (self w) /\ chunkwise (self w') = chunkwise (self w).
Proof.
  intros Hb Hr.
  assert (keeps (fun w => (hemo_of w, bold (self w), chunkwise (self w)))
            (generate_full_series g)) as Hk.
  { unfold generate_full_series, configure_series, seed_bold, _generate_first_rest.
    rewrite Hb. cbn [when].
    assert (forall c d a r sa,
              keeps (fun w => (hemo_of w, bold (self w), chunkwise (self w)))
                (_generate_single_block c d a r sa)) as Hblock.
    { intros. unfold _generate_single_block, install_Cmat, WCModel_run, save_activity.
      frame. }
    assert (forall l s e,
              keeps (fun w => (hemo_of w, bold (self w), chunkwise (self w)))
                (record_interval l s e)) as Hrec.
    { intros. unfold record_interval. frame. }
    repeat first
      [ apply Hblock | apply Hrec
      | match goal with
        | |- keeps _ (task_iteration _ _ _) =>
            unfold task_iteration, _generate_last_rest, bold_after_block;
            rewrite Hb; cbn [when]
        end
      | keeps_step ]. }
  apply Hk in Hr. unfold hemo_of in Hr.
  injection Hr as -> -> -> -> -> -> ->. repeat split.
Qed.
End HemoFrame.

Lemma no_hemodynamics_without_bold_chunkwise_witness :
  exists w w',
    sample_world [2%Q] ["A"] (inl 3%Q) = Some w /\
    @generate_full_series counting_mass logging_bold
      (sample_series false "exc") w = Ok (tt, w') /\
    hrf (self w') = None /\ sim_BOLD (self w') = None /\ stdout w' = [].
Proof.
  let v := eval vm_compute in (sample_world [2%Q] ["A"] (inl 3%Q)) in
  match v with Some ?w => pose (w0 := w) end.
  let v := eval vm_compute in
    (@generate_full_series counting_mass logging_bold
       (sample_series false "exc") w0) in
  match v with Ok (_, ?w) => pose (w1 := w) end.
  exists w0, w1. split; [vm_compute; reflexivity|].
  assert (@generate_full_series counting_mass logging_bold
            (sample_series false "exc") w0 = Ok (tt, w1)) as Hr
    by (vm_compute; reflexivity).
  split; [exact Hr|].
  destruct (no_hemodynamics_without_bold_chunkwise (NM := counting_mass)
              (B := logging_bold) (sample_series false "exc") w0 tt w1 eq_refl Hr)
    as (H1 & H2 & _ & _ & H5 & _).
  rewrite H1, H2, H5. repeat split.
Defined.

(** X13: with the model's own chunkwise integration on
    ([self.chunkwise]) and [bold_chunkwise=False], [generate_full_series]
    fails with the [AssertionError] of [_generate_single_block] as soon as
    the duration of the first rest block ([first_duration + onset[0]], or
    [onset[0]] without a rest before) is not a multiple of two. *)
Theorem neurolib_chunkwise_rejects_odd_first_rest `{NM : NeuralMass}
    `{B : BoldIntegrator} (g : series_args) (w : world) (onset0 : Q) :
  g_bold_chunkwise g = false ->
  chunkwise (self w) = true ->
  onset_time_list (self w) !! 0 = Some onset0 ->
  Qeq_bool (fmod (if rest_before (self w)
                  then (- - first_duration (self w) + onset0)%Q
                  else onset0) 2) 0 = false ->
  generate_full_series g w
  = Err (AssertionError
      "For faster integration time duration is chunkwise duration should be divisible by two ").
Proof.
  intros Hb Hc Ho Hodd.
  unfold generate_full_series, configure_series, _generate_first_rest,
    _generate_single_block. rewrite Hb.
  cbv beta iota zeta delta [bind modify get ret index when py_fmod py_assert raise].
  cbn [self set_self with_bold_params onset_time_list rest_before first_duration
       chunkwise].
  rewrite Ho. cbv beta iota.
  destruct (rest_before (self w)); cbv beta iota;
    cbn [self set_self with_bold_params chunkwise]; rewrite Hc; cbv beta iota;
    change (Qeq_bool 2 0) with false; cbv beta iota; rewrite Hodd; reflexivity.
Qed.

Lemma neurolib_chunkwise_rejects_odd_first_rest_witness :
  exists w,
    @WCTaskSim_init counting_mass sample_heap
      {| a_Wij_task_dict := [("A", 1)]; a_Wij_rest := 0; a_D := 2;
         a_onset_time_list := Some [1%Q]; a_task_name_list := Some ["A"];
         a_duration_list := inl 2%Q;
         a_rest_before := true; a_first_duration := 6; a_last_duration := 8;
         a_append_outputs := false; a_bold := true; a_chunkwise := true;
         a_act_sampling_rate := 20;
         a_c_excexc := 16; a_c_excinh := 15; a_c_inhexc := 12; a_c_inhinh := 3;
         a_scalars := ∅ |} = Ok w /\
    @generate_full_series counting_mass logging_bold (sample_series false "exc") w
    = Err (AssertionError
        "For faster integration time duration is chunkwise duration should be divisible by two ").
Proof.
  eexists. split; [vm_compute; reflexivity|].
  apply (neurolib_chunkwise_rejects_odd_first_rest (NM := counting_mass)
           (B := logging_bold) (sample_series false "exc") _ 1%Q);
    vm_compute; reflexivity.
Defined.

Lemma generate_neuronal_oscill_formula_witness :
  exists w sa,
    sample_after_short_first_rest = Some w /\
    generate_neuronal_oscill w = Ok (sa, w) /\
    exists C, heap w !! wc_Cmat (wc (self w)) = Some C /\
      sa = synaptic_formula 16 15 12 3 (wc_exc (wc (self w))) (wc_inh (wc (self w))) C.
Proof.
  let v := eval vm_compute in sample_after_short_first_rest in
  match v with Some ?w => pose (w1 := w) end.
  let v := eval vm_compute in (generate_neuronal_oscill w1) in
  match v with Ok (?sa, _) => pose (sa1 := sa) end.
  assert (generate_neuronal_oscill w1 = Ok (sa1, w1)) as E by (vm_compute; reflexivity).
  exists w1, sa1. split; [vm_compute; reflexivity|]. split; [exact E|].
  exact (proj2 (generate_neuronal_oscill_formula w1 sa1 w1 E)).
Defined.

(** ** The box-car design of [create_task_design_activation] *)

Lemma set_ones_length s e row : length (set_ones s e row) = length row.
Proof. unfold set_ones. apply length_imap. Qed.

Lemma boxcar_fold (h : HRF) (d : Q) (os : list Q) (row : list Z) :
  let out := foldl (fun row onset =>
                      set_ones (onset_window h d onset).1
                               (onset_window h d onset).2 row) row os in
  length out = length row /\
  forall p x, row !! p = Some x ->
    out !! p = Some (if existsb (in_window h (length row) d p) os then 1%Z else x).
Proof.
  cbv zeta. revert row. induction os as [|o os IH]; intros row.
  - split; [reflexivity|]. intros p x Hp. exact Hp.
  - cbn [foldl existsb].
    destruct (IH (set_ones (onset_window h d o).1 (onset_window h d o).2 row))
      as [Hl Hp].
    rewrite set_ones_length in Hl, Hp. split; [exact Hl|].
    intros p x Hx.
    rewrite (Hp p (if in_window h (length row) d p o then 1%Z else x)).
    + destruct (in_window h (length row) d p o); cbn [orb]; [|reflexivity].
      destruct (existsb _ os); reflexivity.
    + unfold set_ones. rewrite list_lookup_imap, Hx. reflexivity.
Qed.

Lemma for_list_lookup {A B : Type} (f : A -> result B) (l : list A) (ys : list B) :
  for_list f l = Ok ys ->
  length ys = length l /\
  forall i x, l !! i = Some x -> exists y, ys !! i = Some y /\ f x = Ok y.
Proof.
  revert ys. induction l as [|a l IH]; intros ys; cbn [for_list].
  - intros [= <-]. split; [reflexivity|]. intros i x Hx. rewrite lookup_nil in Hx. discriminate.
  - destruct (f a) as [y|] eqn:Ea; [|discriminate].
    destruct (for_list f l) as [ys'|]; [|discriminate].
    intros [= <-]. destruct (IH ys' eq_refl) as [Hl Hi].
    split; [cbn; rewrite Hl; reflexivity|].
    intros [|i] x Hx; cbn in Hx.
    + injection Hx as <-. exists y. split; [reflexivity|exact Ea].
    + apply Hi. exact Hx.
Qed.

(** X16: [create_task_design_activation] returns a box-car design.
    When it returns, the result has one row per region; every row has
    [int(first_rest * 1000 / dt)] leading zeros followed by [n] entries
    (the same [n] for all rows); entry [p] of that part is 1 exactly when
    [p] lies in the window [start:end] (with Python's clipping of slice
    bounds) of one of the region's onsets, and 0 otherwise. *)
Theorem create_task_design_activation_is_a_boxcar (h : HRF)
    (onsets : list Q + list (list Q)) (duration first_rest last_rest : Q)
    (rows : list (list Z)) :
  create_task_design_activation h onsets duration first_rest last_rest = Ok rows ->
  exists (n : nat),
    let n0 := Z.to_nat (py_int (first_rest * 1000 / hrf_dt h)) in
    length rows = hrf_N h /\
    forall i row, rows !! i = Some row ->
      length row = n0 + n /\
      (forall p, p < n0 -> row !! p = Some 0%Z) /\
      (forall p, p < n ->
         row !! (n0 + p)
         = Some (if existsb (in_window h n duration p) (region_onsets onsets i)
                 then 1%Z else 0%Z)).
Proof.
  unfold create_task_design_activation. intros Hr.
  set (ons := match onsets with
              | inl l => replicate (hrf_N h) l | inr ll => ll end) in *.
  assert (match for_list np_max ons with
          | Err e => Err e
          | Ok maxes =>
              match np_max maxes with
              | Err e => Err e
              | Ok max_onset =>
                  if Qeq_bool (hrf_dt h) 0
                  then Err (ZeroDivisionError "float division by zero")
                  else
                  let length_ :=
                    py_int ((max_onset + duration + last_rest) * 1000 / hrf_dt h) in
                  let length_first_rest := py_int (first_rest * 1000 / hrf_dt h) in
                  if (length_ <? 0)%Z
                  then Err (ValueError "negative dimensions are not allowed")
                  else
                  match
                    for_list (fun i =>
                      match ons !! i with
                      | None => Err (IndexError "list index out of range")
                      | Some os =>
                          Ok (foldl (fun row onset =>
                                       set_ones (onset_window h duration onset).1
                                                (onset_window h duration onset).2 row)
                                (replicate (Z.to_nat length_) 0%Z) os)
                      end) (seq 0 (hrf_N h))
                  with
                  | Err e => Err e
                  | Ok activation =>
                      if (length_first_rest <? 0)%Z
                      then Err (ValueError "negative dimensions are not allowed")
                      else Ok (map (fun row =>
                                      replicate (Z.to_nat length_first_rest) 0%Z ++ row)
                                 activation)
                  end
              end
          end = Ok rows) as Hr'.
  { destruct onsets as [[|]|[|]]; try discriminate; exact Hr. }
  clear Hr. rename Hr' into Hr.
  destruct (for_list np_max ons) as [maxes|]; [|discriminate].
  destruct (np_max maxes) as [mx|]; [|discriminate].
  destruct (Qeq_bool (hrf_dt h) 0); [discriminate|]. cbv zeta in Hr.
  set (L := Z.to_nat (py_int ((mx + duration + last_rest) * 1000 / hrf_dt h))) in *.
  destruct (_ <? 0)%Z; [discriminate|].
  destruct (for_list _ (seq 0 (hrf_N h))) as [act|] eqn:Ha; [|discriminate].
  destruct (_ <? 0)%Z; [discriminate|]. injection Hr as <-.
  apply for_list_lookup in Ha as [Hl Hi]. rewrite length_seq in Hl.
  exists L. cbv zeta. split; [rewrite length_map; exact Hl|].
  intros i row Hrow. rewrite list_lookup_fmap in Hrow.
  destruct (act !! i) as [r|] eqn:Hact; [|discriminate]. injection Hrow as <-.
  assert (i < hrf_N h) as Hlt by (rewrite <- Hl; eapply lookup_lt_Some; exact Hact).
  destruct (Hi i i (lookup_seq_lt _ _ _ Hlt)) as (y & Hy & Hf).
  rewrite Hact in Hy. injection Hy as <-.
  destruct (ons !! i) as [os|] eqn:Hos; [|discriminate].
  match type of Hf with
  | Ok ?t = Ok _ => assert (r = t) as -> by (injection Hf as <-; reflexivity)
  end. clear Hf.
  assert (region_onsets onsets i = os) as ->.
  { unfold region_onsets, ons in *. destruct onsets as [l|ll].
    - apply lookup_replicate in Hos as [-> _]. reflexivity.
    - rewrite Hos. reflexivity. }
  destruct (boxcar_fold h duration os (replicate L 0%Z)) as [Hlen Hp].
  cbv zeta in Hlen, Hp. rewrite length_replicate in Hlen, Hp.
  split; [rewrite length_app, length_replicate, Hlen; reflexivity|]. split.
  - intros p Hp0. rewrite lookup_app_l by (rewrite length_replicate; exact Hp0).
    apply lookup_replicate_2. exact Hp0.
  - intros p HpL. rewrite lookup_app_r by (rewrite length_replicate; lia).
    rewrite length_replicate. replace (_ + p - _) with p by lia.
    apply Hp. apply lookup_replicate_2. exact HpL.
Qed.

Lemma create_task_design_activation_is_a_boxcar_witness :
  exists rows,
    create_task_design_activation (HRF_init 2 500 2 true 1 true)
      (inl [1%Q; 3%Q]) 1 1 1 = Ok rows /\
    rows = [[0; 0; 0; 0; 1; 1; 0; 0; 1; 1; 0; 0];
            [0; 0; 0; 0; 1; 1; 0; 0; 1; 1; 0; 0]]%Z /\
    exists n,
      length rows = 2 /\
      forall i row, rows !! i = Some row ->
        length row = 2 + n /\
        (forall p, p < 2 -> row !! p = Some 0%Z) /\
        (forall p, p < n ->
           row !! (2 + p)
           = Some (if existsb (in_window (HRF_init 2 500 2 true 1 true) n 1 p)
                        (region_onsets (inl [1%Q; 3%Q]) i)
                   then 1%Z else 0%Z)).
Proof.
  eexists. split; [vm_compute; reflexivity|]. split; [reflexivity|].
  apply (create_task_design_activation_is_a_boxcar (HRF_init 2 500 2 true 1 true)
           (inl [1%Q; 3%Q]) 1 1 1).
  vm_compute. reflexivity.
Defined.

(** ** [generate_bold] *)

Lemma py_drop_nil {A : Type} (k : Z) : py_drop k (@nil A) = [].
Proof. unfold py_drop. destruct (k <? 0)%Z; apply drop_nil. Qed.

(** X17: [generate_bold] with a [conv_type] other than "BW" and "Gamma"
    raises nothing: for nonzero [dt] and [TR] it returns an empty time axis
    and an empty BOLD array, whatever the input. *)
Theorem generate_bold_ignores_unknown_conv_type `{B : BoldIntegrator}
    `{G : GammaKernel} (N : nat) (bold_input : signal) (dt TR_ drop_first : Q)
    (nm : Z) (conv_type : string) (fx : bool) :
  conv_type <> "BW" -> conv_type <> "Gamma" ->
  Qeq_bool dt 0 = false -> Qeq_bool TR_ 0 = false ->
  generate_bold N bold_input dt TR_ drop_first nm conv_type fx = Ok ([], []).
Proof.
  intros H1 H2 Hdt HTR. unfold generate_bold. rewrite Hdt.
  apply String.eqb_neq in H1, H2. rewrite H1, H2, HTR.
  cbn [t_BOLD BOLD HRF_init]. rewrite !py_drop_nil. reflexivity.
Qed.

Lemma slice_start_0 (s : nat) : 1 <= s -> slice_start s 0 = 1.
Proof. intros Hs. exact (slice_start_multiple s 0 Hs). Qed.

(** X18: the samples [generate_bold] returns for [conv_type="BW"] when the
    sampling step is not negative.  With [s = round(TR * 1000 / dt) >= 0]
    and [k = int(drop_first / TR) >= 0], a successful call has [s >= 1],
    and its [j]-th returned sample is the column at position
    [1 + (k + j) * s] of the integrator's output on
    [normalize_max * bold_input] from the initial state, with time stamp
    [dt * (1 + (k + j) * s)].  (With a negative step Python slices
    backwards; that case is outside the statement.) *)
Theorem generate_bold_BW_samples `{B : BoldIntegrator} `{G : GammaKernel}
    (N : nat) (bold_input : signal) (dt TR_ drop_first : Q) (nm : Z) (fx : bool)
    (ts : list Q) (Bs : signal) :
  (0 <= py_round (TR_ * 1000 / dt))%Z ->
  (0 <= py_int (drop_first / TR_))%Z ->
  generate_bold N bold_input dt TR_ drop_first nm "BW" fx = Ok (ts, Bs) ->
  let s := Z.to_nat (py_round (TR_ * 1000 / dt)) in
  let k := Z.to_nat (py_int (drop_first / TR_)) in
  let chunk :=
    fst (simulateBOLD (sig_scale nm bold_input) (dt * (1 # 1000))%Q
           (bw (HRF_init N dt TR_ true nm fx)) fx) in
  1 <= s /\
  forall j,
    Bs !! j = chunk !! (1 + (k + j) * s) /\
    ts !! j = (fun _ => stamp dt (1 + (k + j) * s)) <$> chunk !! (1 + (k + j) * s).
Proof.
  intros _ Hk. unfold generate_bold.
  destruct (Qeq_bool dt 0); [discriminate|].
  cbn [String.eqb Ascii.eqb Bool.eqb andb].
  set (h0 := HRF_init N dt TR_ true nm fx).
  unfold bw_convolve.
  destruct (negb (rows_are (hrf_N h0) bold_input)); [discriminate|].
  cbn [normalize_input hrf_normalize_max hrf_dt hrf_fix h0 HRF_init idxLastT BOLD
       length Nat.eqb].
  fold h0.
  destruct (simulateBOLD (sig_scale nm bold_input) (dt * (1 # 1000))%Q (bw h0) fx)
    as [chunk st] eqn:Es.
  destruct (resample_to_TR h0 chunk 0) as [[t B0]|] eqn:Er; [|discriminate].
  cbn [t_BOLD BOLD].
  destruct (Qeq_bool TR_ 0); [discriminate|].
  intros [= <- <-]. cbv zeta. cbn [fst].
  apply resample_to_TR_lookup in Er as [Hs Hj].
  change (samplingRate_NDt h0) with (Z.to_nat (py_round (TR_ * 1000 / dt))) in Hs, Hj.
  split; [exact Hs|]. intros j.
  unfold py_drop. destruct (Z.ltb_spec (py_int (drop_first / TR_)) 0) as [?|_]; [lia|].
  rewrite !lookup_drop. rewrite slice_start_0 in Hj by exact Hs.
  destruct (Hj (Z.to_nat (py_int (drop_first / TR_)) + j)) as [HB Ht].
  split; [exact HB|]. rewrite Ht. reflexivity.
Qed.

(** ** [gamma_convolve] *)

Lemma add_padded_length (a b : list Z) :
  length (add_padded a b) = Nat.max (length a) (length b).
Proof.
  revert b. induction a as [|x a IH]; intros [|y b]; simpl; try reflexivity.
  rewrite IH. reflexivity.
Qed.

Lemma add_padded_lookup (a b : list Z) (n : nat) :
  add_padded a b !! n
  = match a !! n, b !! n with
    | Some x, Some y => Some (x + y)%Z
    | Some x, None => Some x
    | None, o => o
    end.
Proof.
  revert b n. induction a as [|x a IH]; intros [|y b] [|n]; simpl; try reflexivity.
  - destruct (a !! n); reflexivity.
  - apply IH.
Qed.

Lemma convolve_full_length (a v : list Z) :
  a <> [] -> v <> [] -> length (convolve_full a v) = length a + length v - 1.
Proof.
  intros Ha Hv. induction a as [|x r IH]; [contradiction|].
  cbn [convolve_full]. rewrite add_padded_length, length_map. cbn [length].
  destruct r as [|y r].
  - cbn. destruct v; [contradiction|]. cbn. lia.
  - rewrite IH by discriminate. cbn [length]. lia.
Qed.

Lemma convolve_full_lookup (a v : list Z) (n : nat) :
  n < length a -> convolve_full a v !! n = Some (conv_at a v n).
Proof.
  revert n. induction a as [|x r IH]; intros n Hn; [cbn in Hn; lia|].
  cbn [convolve_full conv_at]. rewrite add_padded_lookup, list_lookup_fmap.
  assert ((0%Z :: convolve_full r v) !! n
          = Some (match n with O => 0%Z | S n' => conv_at r v n' end)) as ->.
  { destruct n as [|n']; [reflexivity|]. cbn. apply IH. cbn in Hn. lia. }
  destruct (v !! n) as [y|] eqn:E; cbn.
  - rewrite (nth_lookup_Some _ _ _ _ E). reflexivity.
  - rewrite (nth_overflow v 0%Z) by (apply lookup_ge_None; exact E).
    f_equal. lia.
Qed.

Lemma convolve_row_ok (kernel row out : list Z) :
  convolve_row kernel row = Ok out ->
  2 <= length kernel /\ row <> [] /\ length out = length row /\
  forall n, n < length row -> out !! n = Some (conv_at row kernel n).
Proof.
  unfold convolve_row, np_convolve.
  destruct row as [|x r]; [discriminate|].
  destruct kernel as [|k0 [|k1 ks]]; [discriminate| |].
  - cbn [length Nat.sub drop_last Nat.eqb]. discriminate.
  - set (row := x :: r). set (kernel := k0 :: k1 :: ks).
    assert (forall full : list Z,
              drop_last (length kernel - 1) full
              = take (length full - (length kernel - 1)) full) as Hd
      by (intros; reflexivity).
    assert (length (convolve_full row kernel) = length row + length kernel - 1)
      as Hf by (apply convolve_full_length; discriminate).
    assert (2 <= length kernel) as Hk by (unfold kernel; cbn; lia).
    assert (1 <= length row) as Hr by (unfold row; cbn; lia).
    rewrite Hd.
    assert (length (take (length (convolve_full row kernel) - (length kernel - 1))
                      (convolve_full row kernel)) = length row) as Hl
      by (rewrite length_take, Hf; lia).
    rewrite Hl, Nat.eqb_refl. intros E.
    match type of E with
    | Ok ?t = _ => assert (out = t) as -> by (injection E as <-; reflexivity)
    end. clear E.
    split; [exact Hk|]. split; [discriminate|]. split; [exact Hl|].
    intros n Hn. rewrite lookup_take_lt by (rewrite Hf; lia).
    apply convolve_full_lookup. exact Hn.
Qed.

Lemma convolve_row_short (kernel row : list Z) :
  length kernel <= 1 \/ row = [] ->
  exists msg, convolve_row kernel row = Err (ValueError msg).
Proof.
  unfold convolve_row, np_convolve. intros [Hk| ->]; [|eauto].
  destruct row as [|x r]; [eauto|].
  destruct kernel as [|k0 [|k1 ks]]; [eauto| |cbn in Hk; lia].
  cbn [length Nat.sub drop_last Nat.eqb]. eauto.
Qed.

Section Gamma.
Context `{G : GammaKernel}.

(** X19: [gamma_convolve] needs a kernel of at least two taps and a
    non-empty chunk.  For [N >= 1] regions, a kernel of length 0 or 1, or
    an activity array without columns, makes the call raise
    [ValueError]. *)
Theorem gamma_convolve_rejects_short_kernel_and_empty_chunk (h : HRF)
    (activity : signal) (append : bool) :
  1 <= hrf_N h ->
  rows_are (hrf_N h) activity = true ->
  length (_gamma_hrf (hrf_dt h)) <= 1 \/ activity = [] ->
  exists msg, gamma_convolve h activity append = Err (ValueError msg).
Proof.
  intros HN Hrows Hshort. unfold gamma_convolve. rewrite Hrows. cbn [negb].
  destruct (hrf_N h) as [|n] eqn:EN; [lia|]. cbn [seq for_list].
  destruct (convolve_row_short (_gamma_hrf (hrf_dt h))
              (row_of (if normalize_input h
                       then sig_scale (hrf_normalize_max h) activity
                       else activity) 0)) as [msg ->]; [|eauto].
  destruct Hshort as [Hk| ->]; [left; exact Hk|right].
  destruct (normalize_input h); reflexivity.
Qed.

(** X20: [gamma_convolve] is a causal convolution of the current chunk.
    When it returns, the Balloon-Windkessel state is untouched, [idxLastT]
    has advanced by the chunk length, and the [j]-th column of
    [BOLD_chunk] holds, for every region [i], the convolution sum of row
    [i] of the (normalised) chunk with the kernel at local position
    [start + j * s]: a sum over the chunk's entries up to that position
    only, and over no entry of an earlier chunk. *)
Theorem gamma_convolve_is_a_causal_convolution (h h' : HRF) (activity : signal)
    (append : bool) :
  gamma_convolve h activity append = Ok h' ->
  let a := integrator_input h activity in
  let s := samplingRate_NDt h in
  let start := slice_start s (idxLastT h) in
  bw h' = bw h /\
  idxLastT h' = idxLastT h + length activity /\
  forall j col,
    BOLD_chunk h' !! j = Some col ->
    start + j * s < length activity /\
    col = map (fun i => conv_at (row_of a i) (_gamma_hrf (hrf_dt h)) (start + j * s))
            (seq 0 (hrf_N h)).
Proof.
  unfold gamma_convolve, integrator_input.
  destruct (negb (rows_are (hrf_N h) activity)); [discriminate|].
  set (a := if normalize_input h then sig_scale (hrf_normalize_max h) activity
            else activity).
  assert (length a = length activity) as La.
  { unfold a, sig_scale. destruct (normalize_input h); [apply length_map|reflexivity]. }
  destruct (for_list _ (seq 0 (hrf_N h))) as [rows|] eqn:Hrows; [|discriminate].
  destruct (phase_slice _ _ (of_rows _ _)) as [B_res|] eqn:HB; [|discriminate].
  destruct (phase_slice _ _ (t_new_idx _ _)) as [ts|] eqn:HT; [|discriminate].
  destruct (if Nat.eqb _ 0 then _ else _) as [t_new B_new].
  intros [= <-]. cbv zeta. cbn [bw idxLastT BOLD_chunk].
  split; [reflexivity|]. split; [rewrite La; reflexivity|].
  intros j col Hcol.
  apply phase_slice_lookup in HB as [Hs HB]. rewrite HB in Hcol.
  unfold of_rows in Hcol. rewrite list_lookup_fmap in Hcol.
  destruct (seq 0 (length a) !! _) as [t|] eqn:Et; [|discriminate].
  apply lookup_seq in Et as [-> Hlt]. cbn in Hcol. injection Hcol as <-.
  cbn [Nat.add] in *. split; [lia|].
  apply for_list_lookup in Hrows as [Hl Hi]. rewrite length_seq in Hl.
  apply list_eq. intros i. rewrite !list_lookup_fmap.
  destruct (Nat.lt_ge_cases i (hrf_N h)) as [Hi'|Hi'].
  - rewrite lookup_seq_lt by exact Hi'.
    destruct (Hi i i (lookup_seq_lt _ _ _ Hi')) as (out & Hout & Hc).
    rewrite Hout. cbn. f_equal.
    apply convolve_row_ok in Hc as (_ & _ & _ & Hn).
    apply nth_lookup_Some. apply Hn.
    unfold row_of. rewrite length_map. exact Hlt.
  - rewrite lookup_seq_ge by exact Hi'.
    rewrite lookup_ge_None_2 by lia. reflexivity.
Qed.
End Gamma.

Lemma generate_bold_ignores_unknown_conv_type_witness :
  @generate_bold logging_bold two_tap_kernel 1 [[1]; [2]; [3]]%Z 1000 2 12 2
    "gamma" true = Ok ([], []).
Proof.
  apply (generate_bold_ignores_unknown_conv_type (B := logging_bold)
           (G := two_tap_kernel)); (discriminate || reflexivity).
Defined.

Lemma generate_bold_BW_samples_witness :
  exists ts Bs,
    @generate_bold logging_bold two_tap_kernel 1
      [[1]; [2]; [3]; [4]; [5]; [6]]%Z 1000 2 2 1 "BW" true = Ok (ts, Bs) /\
    Bs !! 0 = Some [4%Z] /\ ts !! 0 = Some 3000%Q.
Proof.
  eexists _, _. split; [vm_compute; reflexivity|].
  destruct (generate_bold_BW_samples (B := logging_bold) (G := two_tap_kernel) 1
              [[1]; [2]; [3]; [4]; [5]; [6]]%Z 1000 2 2 1 true
              [3000; 5000]%Q [[4]; [6]]%Z) as [_ Hj].
  - vm_compute. discriminate.
  - vm_compute. discriminate.
  - vm_compute. reflexivity.
  - destruct (Hj 0) as [HB Ht]. split; [rewrite HB|rewrite Ht]; reflexivity.
Defined.

Lemma gamma_convolve_rejects_short_kernel_and_empty_chunk_witness :
  (exists msg,
     @gamma_convolve one_tap_kernel (HRF_init 1 1000 2 true 1 true)
       [[1]; [2]]%Z false = Err (ValueError msg)) /\
  (exists msg,
     @gamma_convolve two_tap_kernel (HRF_init 1 1000 2 true 1 true)
       [] false = Err (ValueError msg)).
Proof.
  split.
  - apply (gamma_convolve_rejects_short_kernel_and_empty_chunk (G := one_tap_kernel));
      [cbn; lia|reflexivity|left; cbn; lia].
  - apply (gamma_convolve_rejects_short_kernel_and_empty_chunk (G := two_tap_kernel));
      [cbn; lia|reflexivity|right; reflexivity].
Defined.

Lemma gamma_convolve_is_a_causal_convolution_witness :
  exists h',
    @gamma_convolve two_tap_kernel (HRF_init 1 1000 2 true 1 true)
      [[1]; [2]; [3]; [4]]%Z false = Ok h' /\
    BOLD_chunk h' = [[4]; [10]]%Z /\
    bw h' = bw (HRF_init 1 1000 2 true 1 true) /\ idxLastT h' = 4.
Proof.
  eexists. split; [vm_compute; reflexivity|]. split; [reflexivity|].
  match goal with
  | |- bw ?h' = _ /\ _ =>
      destruct (gamma_convolve_is_a_causal_convolution (G := two_tap_kernel)
                  (HRF_init 1 1000 2 true 1 true) h' [[1]; [2]; [3]; [4]]%Z false)
        as (Hbw & Hidx & _)
  end.
  - vm_compute. reflexivity.
  - split; [exact Hbw|exact Hidx].
Defined.

(** ** No [KeyError], no [IndexError] *)

Lemma bind_err {A B : Type} (m : M A) (k : A -> M B) w e :
  bind m k w = Err e ->
  m w = Err e \/ exists a w1, m w = Ok (a, w1) /\ k a w1 = Err e.
Proof.
  unfold bind. destruct (m w) as [[a w1]|e']; [|intros [= <-]; left; reflexivity].
  intros Hk. right. exists a, w1. split; [reflexivity|exact Hk].
Qed.

Lemma mild_ret {A : Type} (a : A) : mild (ret a).
Proof. intros w e [=]. Qed.
Lemma mild_get : mild get.
Proof. intros w e [=]. Qed.
Lemma mild_modify f : mild (modify f).
Proof. intros w e [=]. Qed.
Lemma mild_raise {A : Type} (e : exn) : benign e -> mild (@raise A e).
Proof. intros He w e' [= <-]. exact He. Qed.
Lemma mild_bind {A B : Type} (m : M A) (k : A -> M B) :
  mild m -> (forall a, mild (k a)) -> mild (bind m k).
Proof.
  intros Hm Hk w e He. apply bind_err in He as [He|(a & w1 & _ & He)].
  - exact (Hm _ _ He).
  - exact (Hk _ _ _ He).
Qed.
Lemma mild_when b (m : M unit) : mild m -> mild (when b m).
Proof. intros Hm. destruct b; [exact Hm|apply mild_ret]. Qed.
Lemma mild_assert b msg : mild (py_assert b msg).
Proof. destruct b; [apply mild_ret|apply mild_raise; exact I]. Qed.
Lemma mild_py_div a b : mild (py_div a b).
Proof. unfold py_div. destruct (Qeq_bool b 0); [apply mild_raise; exact I|apply mild_ret]. Qed.
Lemma mild_py_fmod a b : mild (py_fmod a b).
Proof. unfold py_fmod. destruct (Qeq_bool b 0); [apply mild_raise; exact I|apply mild_ret]. Qed.
Lemma mild_deref l : mild (deref l).
Proof.
  unfold deref. apply mild_bind; [apply mild_get|intros w].
  destruct (heap w !! l); [apply mild_ret|apply mild_raise; exact I].
Qed.
Lemma mild_hstack_onto {A : Type} (o : option (list A)) n : mild (hstack_onto o n).
Proof. destruct o; [apply mild_ret|apply mild_raise; exact I]. Qed.
Lemma mild_lift_phase_slice {A : Type} s idx (l : list A) :
  mild (lift (phase_slice s idx l)).
Proof. intros w e. unfold lift, phase_slice. destruct s; intros [= <-]. exact I. Qed.
Lemma mild_generate_neuronal_oscill : mild generate_neuronal_oscill.
Proof.
  unfold generate_neuronal_oscill. apply mild_bind; [apply mild_get|intros w].
  cbv zeta. apply mild_bind; [apply mild_deref|intros C; apply mild_ret].
Qed.

Ltac mild_step :=
  match goal with
  | |- mild (bind _ _) => apply mild_bind; [|intros ?]
  | |- mild (ret _) => apply mild_ret
  | |- mild get => apply mild_get
  | |- mild (modify _) => apply mild_modify
  | |- mild (py_assert _ _) => apply mild_assert
  | |- mild (when _ _) => apply mild_when
  | |- mild (py_div _ _) => apply mild_py_div
  | |- mild (py_fmod _ _) => apply mild_py_fmod
  | |- mild (deref _) => apply mild_deref
  | |- mild (hstack_onto _ _) => apply mild_hstack_onto
  | |- mild (lift (phase_slice _ _ _)) => apply mild_lift_phase_slice
  | |- mild generate_neuronal_oscill => apply mild_generate_neuronal_oscill
  | |- mild (raise _) => apply mild_raise; exact I
  | |- mild (if ?b then _ else _) => destruct b
  | |- mild (match ?x with _ => _ end) => destruct x
  | |- mild (let _ := _ in _) => cbv zeta
  end.

Lemma index_err {A : Type} (l : list A) i w e :
  index l i w = Err e -> length l <= i.
Proof.
  unfold index. destruct (l !! i) eqn:E; [discriminate|].
  intros _. apply lookup_ge_None. exact E.
Qed.

Lemma index_last_err {A : Type} (l : list A) w e :
  index_last l w = Err e -> l = [].
Proof.
  unfold index_last. destruct (last l) eqn:E; [discriminate|].
  intros _. apply last_None. exact E.
Qed.

Lemma record_interval_err l s e w x :
  record_interval l s e w = Err x -> time_idxs_dict (self w) !! l = None.
Proof.
  unfold record_interval, bind, get.
  destruct (time_idxs_dict (self w) !! l); [discriminate|reflexivity].
Qed.

Lemma bw_convolve_err `{B : BoldIntegrator} h a app e :
  bw_convolve h a app = Err e -> benign e.
Proof.
  unfold bw_convolve, resample_to_TR, phase_slice.
  destruct (negb _); [intros [= <-]; exact I|].
  destruct (simulateBOLD _ _ _ _) as [chunk st].
  destruct (samplingRate_NDt h); [intros [= <-]; exact I|].
  destruct (if Nat.eqb _ 0 then _ else _). discriminate.
Qed.

Section Safety.
Context `{NM : NeuralMass} `{B : BoldIntegrator}.

Lemma mild_generate_single_block c d a r sa :
  mild (_generate_single_block c d a r sa).
Proof.
  unfold _generate_single_block, install_Cmat, WCModel_run, save_activity.
  repeat mild_step.
Qed.

Lemma mild_configure_series g : mild (configure_series g).
Proof. unfold configure_series. repeat mild_step. Qed.

Lemma generate_single_block_has_outputs c d a r sa w u w' :
  _generate_single_block c d a r sa w = Ok (u, w') -> has_outputs w'.
Proof.
  unfold _generate_single_block. intros Hr.
  apply bind_ok in Hr as (w0 & w1 & Hget & Hr). injection Hget as <- <-.
  apply bind_ok in Hr as (? & w1 & _ & Hr).
  apply bind_ok in Hr as (? & w2 & _ & Hr).
  apply bind_ok in Hr as (? & w3 & _ & Hr).
  apply bind_ok in Hr as (? & w4 & Hrun & Hr).
  assert (has_outputs w4) as Ho.
  { unfold WCModel_run in Hrun.
    apply bind_ok in Hrun as (? & ? & Hget & Hrun). injection Hget as <- <-.
    cbv zeta in Hrun.
    apply bind_ok in Hrun as (C & ? & Hd & Hrun).
    apply (keeps_deref (fun w => w)) in Hd. subst.
    injection Hrun as <- <-. unfold has_outputs. cbn.
    split; [rewrite lookup_insert_eq|rewrite lookup_insert_ne, lookup_insert_eq];
      (eauto || discriminate). }
  match type of Hr with
  | ?m _ = _ => assert (keeps wc_of m) as Hk
  end.
  { apply keeps_bind; [|intros ?; apply keeps_when; apply wc_of_save_activity].
    destruct sa; [apply keeps_generate_neuronal_oscill|apply keeps_ret]. }
  apply Hk in Hr. unfold has_outputs, wc_of in *. rewrite Hr. exact Ho.
Qed.

Lemma chunk_input_err it w e :
  has_outputs w -> chunk_input it w = Err e -> benign e.
Proof.
  intros [[x Hx] [y Hy]]. unfold chunk_input.
  destruct (String.eqb it "exc").
  - unfold wc_getitem, bind, get. rewrite Hx. discriminate.
  - destruct (String.eqb it "sum"); [|apply mild_generate_neuronal_oscill].
    unfold wc_getitem, bind, get. rewrite Hx. cbn. rewrite Hy. discriminate.
Qed.

Lemma generate_bold_chunkwise_err TR_ it nm first fx w e :
  has_outputs w ->
  generate_bold_chunkwise TR_ it nm first fx w = Err e -> benign e.
Proof.
  intros Ho. unfold generate_bold_chunkwise. intros E.
  apply bind_err in E as [E|(? & w1 & E0 & E)]; [discriminate|].
  injection E0 as _ <-.
  apply bind_err in E as [E|(w0 & w1 & E0 & E)]; [discriminate|].
  injection E0 as <- <-. cbv zeta in E.
  apply bind_err in E as [E|(cs & w1 & E0 & E)]; [exact (mild_py_div _ _ _ _ E)|].
  apply (keeps_py_div (fun w => w)) in E0. subst w1.
  apply bind_err in E as [E|(? & w1 & E0 & E)]; [exact (mild_assert _ _ _ _ E)|].
  apply (keeps_assert (fun w => w)) in E0. subst w1.
  apply bind_err in E as [E|(old & w1 & E0 & E)].
  { destruct first; [discriminate|].
    destruct (input_rest _); [discriminate|]. injection E as <-. exact I. }
  assert (w1 = set_self (fun s => with_bold_params (normalize_max s)
                  (output_activation s) (fix_bold s) (Some TR_) s) w) as ->.
  { destruct first; [injection E0 as _ <-; reflexivity|].
    destruct (input_rest _); [injection E0 as _ <-; reflexivity|discriminate]. }
  clear E0.
  apply bind_err in E as [E|(new & w1 & E0 & E)].
  { revert E. apply chunk_input_err. exact Ho. }
  apply (keeps_chunk_input (fun w => w)) in E0. subst w1.
  destruct (longer_than _ _); [|discriminate].
  apply bind_err in E as [E|(? & w1 & E0 & E)]; [exact (mild_py_fmod _ _ _ _ E)|].
  destruct (if first then _ else _) as [h|]; [|injection E as <-; exact I].
  apply bind_err in E as [E|(? & ? & _ & E)]; [|discriminate].
  unfold lift in E. destruct (bw_convolve _ _ _) eqn:Eb; [discriminate|].
  injection E as <-. exact (bw_convolve_err _ _ _ _ Eb).
Qed.
End Safety.

Lemma well_formed_transfer w w' :
  design_of w' = design_of w ->
  (forall k, is_Some (time_idxs_of w !! k) -> is_Some (time_idxs_of w' !! k)) ->
  well_formed w -> well_formed w'.
Proof.
  unfold well_formed, design_of, design, time_idxs_of. cbv zeta.
  intros [= -> _ -> -> -> _ _ _] Hk (H1 & H2 & H3 & H4 & H5).
  repeat split; try assumption. intros n Hn. apply Hk, H5, Hn.
Qed.

Lemma record_planned_keys m iv k :
  is_Some (m !! k) -> is_Some (record_planned m iv !! k).
Proof.
  intros Hk. unfold record_planned.
  destruct (decide (iv.1 = k)) as [->|Hne].
  - rewrite lookup_insert_eq. eauto.
  - rewrite lookup_insert_ne by exact Hne. exact Hk.
Qed.

Lemma foldl_record_planned_keys ivs m k :
  is_Some (m !! k) -> is_Some (foldl record_planned m ivs !! k).
Proof.
  revert m. induction ivs as [|iv ivs IH]; intros m Hk; [exact Hk|].
  cbn [foldl]. apply IH, record_planned_keys, Hk.
Qed.

Section SafetyRun.
Context `{NM : NeuralMass} `{B : BoldIntegrator}.

Lemma bold_after_block_err g first w e :
  has_outputs w -> bold_after_block g first w = Err e -> benign e.
Proof.
  intros Ho. unfold bold_after_block.
  destruct (g_bold_chunkwise g); [|discriminate].
  apply generate_bold_chunkwise_err. exact Ho.
Qed.

Lemma has_outputs_keeps {A : Type} (m : M A) w a w' :
  keeps wc_of m -> m w = Ok (a, w') -> has_outputs w -> has_outputs w'.
Proof.
  intros Hk Hr Ho. apply Hk in Hr. unfold has_outputs, wc_of in *.
  rewrite Hr. exact Ho.
Qed.

Lemma wc_of_bold_after_block g first : keeps wc_of (bold_after_block g first).
Proof. unfold bold_after_block, generate_bold_chunkwise. frame. Qed.

(** A block followed by the record of its interval and, in either order,
    the hemodynamic call. *)
Lemma block_then_record_err c d a r sa l s e w x :
  is_Some (time_idxs_of w !! l) ->
  (_generate_single_block c d a r sa ;;; record_interval l s e) w = Err x ->
  benign x.
Proof.
  intros Hl E. apply bind_err in E as [E|(? & w1 & E0 & E)].
  - exact (mild_generate_single_block _ _ _ _ _ _ _ E).
  - apply record_interval_err in E.
    apply tidx_generate_single_block in E0. unfold time_idxs_of in *.
    rewrite E0 in E. rewrite E in Hl. destruct Hl as [? [=]].
Qed.

Lemma task_iteration_err g sa i w e :
  well_formed w -> i < length (onset_time_list (self w)) ->
  task_iteration g sa i w = Err e -> benign e.
Proof.
  intros (H1 & H2 & H3 & H4 & H5) Hi E. cbv zeta in *.
  unfold task_iteration in E.
  apply bind_err in E as [E|(w0 & w1 & E0 & E)]; [discriminate|].
  injection E0 as <- <-. cbv zeta in E.
  apply bind_err in E as [E|(name & w1 & E0 & E)]; [apply index_err in E; lia|].
  apply index_ok in E0 as [Hn ->].
  assert (is_Some (dict_get (Wij_task_dict (self w)) name)) as Hname.
  { apply H4. eapply list_elem_of_lookup_2. exact Hn. }
  destruct Hname as [c Hc]. rewrite Hc in E.
  apply bind_err in E as [E|(? & w1 & E0 & E)]; [discriminate|].
  injection E0 as <- <-.
  apply bind_err in E as [E|(onset & w1 & E0 & E)]; [apply index_err in E; lia|].
  apply index_ok in E0 as [Ho ->].
  apply bind_err in E as [E|(dur & w1 & E0 & E)]; [apply index_err in E; lia|].
  apply index_ok in E0 as [Hd ->].
  apply bind_err in E as [E|(? & w1 & E0 & E)];
    [exact (mild_generate_single_block _ _ _ _ _ _ _ E)|].
  pose proof (generate_single_block_has_outputs _ _ _ _ _ _ _ _ E0) as Hout.
  pose proof (design_generate_single_block _ _ _ _ _ _ _ _ E0) as D1.
  apply tidx_generate_single_block in E0. rename E0 into T1.
  apply bind_err in E as [E|(? & w2 & E0 & E)];
    [exact (bold_after_block_err _ _ _ _ Hout E)|].
  pose proof (design_bold_after_block _ _ _ _ _ E0) as D2. rewrite D1 in D2. clear D1.
  apply tidx_bold_after_block in E0. rewrite T1 in E0. clear T1. rename E0 into T2.
  apply bind_err in E as [E|(? & w3 & E0 & E)].
  { apply record_interval_err in E. unfold time_idxs_of in T2. rewrite T2 in E.
    destruct (H5 name) as [? Hx]; [right; eauto|]. congruence. }
  pose proof (design_record_interval _ _ _ _ _ _ E0) as D3. rewrite D2 in D3. clear D2.
  destruct (design_lists _ _ D3) as (_ & Eo & Ed & _).
  assert (forall k, is_Some (time_idxs_of w !! k) -> is_Some (time_idxs_of w3 !! k))
    as T3.
  { intros k Hk. apply record_interval_planned in E0. rewrite E0, T2.
    apply record_planned_keys. exact Hk. }
  clear E0 T2.
  apply bind_err in E as [E|(? & ? & _ & E)]; [|discriminate].
  assert (is_Some (time_idxs_of w3 !! "Rest")) as HR.
  { apply T3. apply H5. left. reflexivity. }
  destruct (Nat.ltb_spec i (length (onset_time_list (self w)) - 1)) as [Hlt|Hge].
  - apply bind_err in E as [E|(next & w4 & E0 & E)]; [apply index_err in E; lia|].
    apply index_ok in E0 as [_ ->].
    destruct (Qgtb _ 0); [|discriminate]. cbn [when] in E. cbv zeta in E.
    apply bind_err in E as [E|(? & w4 & E0 & E)];
      [exact (mild_generate_single_block _ _ _ _ _ _ _ E)|].
    pose proof (generate_single_block_has_outputs _ _ _ _ _ _ _ _ E0) as Hout'.
    apply tidx_generate_single_block in E0.
    apply bind_err in E as [E|(? & w5 & E1 & E)];
      [exact (bold_after_block_err _ _ _ _ Hout' E)|].
    apply tidx_bold_after_block in E1. apply record_interval_err in E.
    unfold time_idxs_of in *. rewrite E1, E0 in E. rewrite E in HR.
    destruct HR as [? [=]].
  - apply bind_err in E as [E|(? & w4 & E0 & E)].
    + unfold _generate_last_rest in E.
      apply bind_err in E as [E|(? & ? & E0 & E)]; [discriminate|].
      injection E0 as <- <-. rewrite Eo, Ed in E.
      apply bind_err in E as [E|(ol & ? & E0 & E)].
      { apply index_last_err in E. pose proof (f_equal length E) as El.
        cbn in El. lia. }
      apply index_last_ok in E0 as [_ ->].
      apply bind_err in E as [E|(dl & ? & E0 & E)].
      { apply index_last_err in E. pose proof (f_equal length E) as El.
        cbn in El. lia. }
      apply index_last_ok in E0 as [_ ->]. cbv zeta in E.
      revert E. apply block_then_record_err. exact HR.
    + revert E. apply bold_after_block_err.
      unfold _generate_last_rest in E0.
      apply bind_ok in E0 as (? & ? & Hg & E0). injection Hg as <- <-.
      apply bind_ok in E0 as (? & ? & Hg & E0). apply index_last_ok in Hg as [_ ->].
      apply bind_ok in E0 as (? & ? & Hg & E0). apply index_last_ok in Hg as [_ ->].
      cbv zeta in E0.
      apply bind_ok in E0 as (? & w5 & Hb & E0).
      apply generate_single_block_has_outputs in Hb.
      revert E0 Hb. apply has_outputs_keeps. apply wc_of_record_interval.
Qed.
End SafetyRun.

Section SafetyLoop.
Context `{NM : NeuralMass} `{B : BoldIntegrator}.

Lemma task_iteration_well_formed g sa i w u w' :
  task_iteration g sa i w = Ok (u, w') -> well_formed w -> well_formed w'.
Proof.
  intros E. apply well_formed_transfer.
  - exact (design_task_iteration _ _ _ _ _ _ E).
  - intros k Hk. rewrite (task_iteration_time_map _ _ _ _ _ _ E).
    apply foldl_record_planned_keys. exact Hk.
Qed.

Lemma task_loop_safe g sa (k a : nat) w :
  well_formed w -> a + k <= length (onset_time_list (self w)) ->
  match for_each (seq a k) (task_iteration g sa) w with
  | Ok (_, w') => well_formed w'
  | Err e => benign e
  end.
Proof.
  revert a w. induction k as [|k IH]; intros a w Hwf Hle; [exact Hwf|].
  cbn [seq for_each]. rewrite run_bind.
  destruct (task_iteration g sa a w) as [[[] w1]|e] eqn:E.
  - pose proof (task_iteration_well_formed _ _ _ _ _ _ E Hwf) as Hwf1.
    apply (IH (S a) w1 Hwf1).
    apply design_task_iteration in E. destruct (design_lists _ _ E) as (_ & -> & _).
    lia.
  - apply (task_iteration_err _ _ _ _ _ Hwf) in E; [exact E|lia].
Qed.

(** X21: a well-formed simulation never fails a run with [KeyError] or
    [IndexError].  On an object whose design is consistent (at least one
    onset; names, onsets and durations equally many; every task name a key
    of [Wij_task_dict]) and whose [time_idxs_dict] has "Rest" and every
    key of [Wij_task_dict], as the constructor leaves it,
    [generate_full_series] either returns, leaving the object well formed,
    or raises an exception that is neither a [KeyError] nor an
    [IndexError].  The two integrators are the total functions of the
    embedding: what neurolib itself may raise is outside this statement. *)
Theorem well_formed_run_raises_no_KeyError_or_IndexError (g : series_args)
    (w : world) :
  well_formed w ->
  match generate_full_series g w with
  | Ok (_, w') => well_formed w'
  | Err e => forall msg, e <> KeyError msg /\ e <> IndexError msg
  end.
Proof.
  intros Hwf.
  assert (match generate_full_series g w with
          | Ok (_, w') => well_formed w'
          | Err e => benign e
          end) as H.
  { unfold generate_full_series. rewrite run_bind.
    destruct (configure_series g w) as [[cs w1]|e] eqn:E1;
      [|exact (mild_configure_series _ _ _ E1)].
    assert (well_formed w1) as Hwf1.
    { revert Hwf. apply well_formed_transfer.
      - exact (design_configure_series _ _ _ _ E1).
      - intros k. rewrite (tidx_configure_series _ _ _ _ E1). trivial. }
    clear E1 Hwf. cbv zeta. rewrite run_bind.
    destruct (_generate_first_rest _ _ _ w1) as [[[] w2]|e] eqn:E2.
    2:{ unfold _generate_first_rest in E2.
        apply bind_err in E2 as [E2|(? & ? & E0 & E2)]; [discriminate|].
        injection E0 as <- <-.
        apply bind_err in E2 as [E2|(on0 & ? & E0 & E2)].
        { apply index_err in E2. destruct Hwf1 as (H1 & _). cbv zeta in H1. lia. }
        apply index_ok in E0 as [_ ->].
        destruct (if rest_before (self w1) then _ else _) as [st du].
        revert E2. apply block_then_record_err.
        destruct Hwf1 as (_ & _ & _ & _ & H5). apply H5. left. reflexivity. }
    assert (well_formed w2 /\ has_outputs w2) as [Hwf2 Hout].
    { split.
      - revert Hwf1. apply well_formed_transfer.
        + exact (design_generate_first_rest _ _ _ _ _ _ E2).
        + intros k Hk. unfold _generate_first_rest in E2.
          apply bind_ok in E2 as (? & ? & Hg & E2). injection Hg as <- <-.
          apply bind_ok in E2 as (? & ? & Hg & E2). apply index_ok in Hg as [_ ->].
          destruct (if rest_before (self w1) then _ else _) as [st du].
          apply bind_ok in E2 as (? & w3 & Hb & E2).
          apply tidx_generate_single_block in Hb.
          apply record_interval_planned in E2. rewrite E2, Hb.
          apply record_planned_keys. exact Hk.
      - unfold _generate_first_rest in E2.
        apply bind_ok in E2 as (? & ? & Hg & E2). injection Hg as <- <-.
        apply bind_ok in E2 as (? & ? & Hg & E2). apply index_ok in Hg as [_ ->].
        destruct (if rest_before (self w1) then _ else _) as [st du].
        apply bind_ok in E2 as (? & w3 & Hb & E2).
        apply generate_single_block_has_outputs in Hb.
        revert E2 Hb. apply has_outputs_keeps. apply wc_of_record_interval. }
    clear E2 Hwf1. rewrite run_bind.
    destruct (seed_bold g cs w2) as [[[] w3]|e] eqn:E3.
    2:{ unfold seed_bold in E3. destruct (g_bold_chunkwise g); [|discriminate].
        cbn [when] in E3.
        apply bind_err in E3 as [E3|(ex & ? & E0 & E3)].
        { destruct Hout as [[x Hx] _]. unfold wc_getitem, bind, get in E3.
          rewrite Hx in E3. discriminate. }
        apply (keeps_wc_getitem (fun w => w)) in E0. subst.
        apply bind_err in E3 as [E3|(? & ? & E0 & E3)];
          [exact (mild_assert _ _ _ _ E3)|].
        apply (keeps_assert (fun w => w)) in E0. subst.
        revert E3. apply generate_bold_chunkwise_err. exact Hout. }
    assert (well_formed w3) as Hwf3.
    { revert Hwf2. apply well_formed_transfer.
      - exact (design_seed_bold _ _ _ _ _ E3).
      - intros k. rewrite (tidx_seed_bold _ _ _ _ _ E3). trivial. }
    rewrite run_bind. cbn [get].
    apply task_loop_safe; [exact Hwf3|lia]. }
  destruct (generate_full_series g w) as [[[] w']|e]; [exact H|].
  intros msg. destruct e; cbn in H; try contradiction; split; discriminate.
Qed.
End SafetyLoop.

Lemma well_formed_run_raises_no_KeyError_or_IndexError_witness :
  exists w,
    @WCTaskSim_init counting_mass sample_heap
      (sample_args [2%Q] ["A"] (inl 3%Q)) = Ok w /\
    match @generate_full_series counting_mass logging_bold
            (sample_series true "syn_act") w with
    | Ok (_, w') => well_formed w'
    | Err e => forall msg, e <> KeyError msg /\ e <> IndexError msg
    end.
Proof.
  let v := eval vm_compute in
    (@WCTaskSim_init counting_mass sample_heap (sample_args [2%Q] ["A"] (inl 3%Q))) in
  match v with Ok ?w => pose (w0 := w) end.
  assert (@WCTaskSim_init counting_mass sample_heap
            (sample_args [2%Q] ["A"] (inl 3%Q)) = Ok w0) as E
    by (vm_compute; reflexivity).
  exists w0. split; [exact E|].
  apply (well_formed_run_raises_no_KeyError_or_IndexError (NM := counting_mass)
           (B := logging_bold)).
  unfold well_formed. cbv zeta.
  split; [vm_compute; lia|]. split; [reflexivity|]. split; [reflexivity|]. split.
  - intros n Hn. apply list_elem_of_singleton in Hn as ->.
    eexists. reflexivity.
  - intros n Hn'. destruct Hn' as [->|Hn]; [eexists; reflexivity|].
    assert (n = "A") as ->.
    { change (is_Some (if String.eqb "A" n then Some 1 else None)) in Hn.
      destruct (String.eqb "A" n) eqn:En.
      - apply String.eqb_eq in En. symmetry. exact En.
      - destruct Hn as [? [=]]. }
    eexists. reflexivity.
Defined.
